(** * The conversation-tab state machine of the chat renderer

    A shallow embedding of the tab registry, the streaming session, the
    persistence layer and the history loader of the renderer
    (the second, [tabType]-based implementation: [canCreateNewTab],
    [createTab], [closeTab], [addMessage], [loadConversationHistory],
    [sendMessage], [saveTabs], [restoreTabs] and the stream and completion
    handlers registered by [setupEventListeners]).

    The program is TypeScript: the data it reads back from [localStorage]
    and from the bridge is untyped at run time, so values are modelled
    dynamically ([jsval]) wherever the source stores what it was handed
    without checking it.  Module-level variables become the fields of
    [State]; DOM message nodes live in an explicit store and are referred
    to by index, so that [tab.messages] and [tab.streamingElement] alias
    the same node as in the source.  Calls to the host bridge
    ([window.claude]) are answered by an explicit [Bridge] record. *)

From Stdlib Require Import ZArith String Ascii List Bool Lia DecimalString.
From Stdlib Require Import Sorting.Permutation Sorting.Sorted.
From stdpp Require Import base list strings option.
Import ListNotations.

Set Warnings "-register-all".
Local Open Scope list_scope.

(** ** JavaScript values *)

(** What [JSON.parse] can produce, plus [undefined].  Numbers are the
    integers; the program only ever tests them for truthiness, converts
    them to text or hands them to [Date]. *)
Inductive jsval : Type :=
| JUndefined
| JNull
| JBool (b : bool)
| JNum (n : Z)
| JStr (s : string)
| JArr (items : list jsval)
| JObj (props : list (string * jsval)).

(** What can be thrown: the errors of the language, and the reason of a
    rejected promise of the bridge. *)
Inductive exn : Type :=
| TypeError (what : string)
| SyntaxError
| Rejection (reason : string).

(** The result of evaluating something that may throw. *)
Inductive outcome (A : Type) : Type :=
| Normal (a : A)
| Throw (e : exn).
Arguments Normal {A} a.
Arguments Throw {A} e.

Definition nonempty (s : string) : bool :=
  match s with EmptyString => false | String _ _ => true end.

(** [!!v] *)
Definition truthy (v : jsval) : bool :=
  match v with
  | JUndefined | JNull => false
  | JBool b => b
  | JNum n => negb (n =? 0)%Z
  | JStr s => nonempty s
  | JArr _ | JObj _ => true
  end.

(** [a || b] *)
Definition js_or (a b : jsval) : jsval := if truthy a then a else b.

(** [a === b].  Primitives compare by value.  Arrays and objects compare
    by reference in JavaScript: the program compares the ids of tabs and
    of conversations with strings taken from the DOM, from storage or
    from the bridge, or with [activeTabId], and two composite values are
    taken here for different references.  That is exact unless
    [activeTabId] was copied from a tab whose stored id is itself an
    array or an object. *)
Definition strict_eq (a b : jsval) : bool :=
  match a, b with
  | JUndefined, JUndefined => true
  | JNull, JNull => true
  | JBool x, JBool y => Bool.eqb x y
  | JNum x, JNum y => (x =? y)%Z
  | JStr x, JStr y => String.eqb x y
  | _, _ => false
  end.

Fixpoint assoc (k : string) (ps : list (string * jsval)) : jsval :=
  match ps with
  | [] => JUndefined
  | (k', v) :: rest => if String.eqb k k' then v else assoc k rest
  end.

(** [v.k] for the property names the program reads ([id], [name],
    [text], [sender], ...): none of them is defined on the prototypes of
    strings, numbers, booleans or arrays, so only objects answer with
    something else than [undefined]; reading a property of [null] or
    [undefined] throws. *)
Definition get (v : jsval) (k : string) : outcome jsval :=
  match v with
  | JUndefined | JNull => Throw (TypeError "Cannot read properties of null or undefined")
  | JObj ps => Normal (assoc k ps)
  | _ => Normal JUndefined
  end.

Definition chars (s : string) : list jsval :=
  map (fun c => JStr (String c EmptyString)) (list_ascii_of_string s).

(** The values a [for ... of] loop visits: arrays and strings are
    iterable, nothing else that JSON can hold is. *)
Definition iterate (v : jsval) : outcome (list jsval) :=
  match v with
  | JArr l => Normal l
  | JStr s => Normal (chars s)
  | _ => Throw (TypeError "value is not iterable")
  end.

Definition decimal (n : Z) : string := NilZero.string_of_int (Z.to_int n).

Fixpoint join (sep : string) (l : list string) : string :=
  match l with
  | [] => EmptyString
  | [s] => s
  | s :: rest => s +:+ sep +:+ join sep rest
  end.

(** [String(v)] and template interpolation.  Objects print as
    [[object Object]]: an object that shadows [toString] (for which the
    conversion would throw) is outside the model.  Numbers print in
    full, as the language prints the integers of magnitude below
    [10^21]; it prints the others with an exponent, and they are
    outside the model too. *)
Fixpoint ToString (v : jsval) : string :=
  match v with
  | JUndefined => "undefined"
  | JNull => "null"
  | JBool true => "true"
  | JBool false => "false"
  | JNum n => decimal n
  | JStr s => s
  | JArr l =>
      join "," (map (fun x => match x with
                              | JUndefined | JNull => EmptyString
                              | _ => ToString x
                              end) l)
  | JObj _ => "[object Object]"
  end.

(** What [JSON.parse (JSON.stringify v)] gives back: properties holding
    [undefined] are left out of objects, [undefined] inside an array
    becomes [null]. *)
Fixpoint jsonify (v : jsval) : jsval :=
  match v with
  | JArr l =>
      JArr (map (fun x => match x with
                          | JUndefined => JNull
                          | _ => jsonify x
                          end) l)
  | JObj ps =>
      JObj ((fix props (ps : list (string * jsval)) : list (string * jsval) :=
               match ps with
               | [] => []
               | (k, JUndefined) :: rest => props rest
               | (k, x) :: rest => (k, jsonify x) :: props rest
               end) ps)
  | _ => v
  end.

(** ** Strings *)

Fixpoint replaceAll (c : ascii) (by_ : string) (s : string) : string :=
  match s with
  | EmptyString => EmptyString
  | String a rest =>
      if Ascii.eqb a c then by_ +:+ replaceAll c by_ rest
      else String a (replaceAll c by_ rest)
  end.

Definition dquote : ascii := ascii_of_nat 34.

Definition escapeHtml_string (text : string) : string :=
  replaceAll dquote "&quot;"
    (replaceAll ">" "&gt;"
       (replaceAll "<" "&lt;"
          (replaceAll "&" "&amp;" text))).

(** [escapeHtml]: the text, or the empty string when it is falsy,
    followed by [.replace], which exists on strings only. *)
Definition escapeHtml (text : jsval) : outcome string :=
  match js_or text (JStr EmptyString) with
  | JStr s => Normal (escapeHtml_string s)
  | _ => Throw (TypeError "replace is not a function")
  end.

(** White space of [String.prototype.trim] among the characters a
    [string] holds, the code units below 256: tab, line feed, vertical
    tab, form feed, carriage return, space and no-break space.  The
    rest of the white space of the language lies beyond that range. *)
Definition is_space (c : ascii) : bool :=
  let n := nat_of_ascii c in
  (n =? 32) || ((9 <=? n) && (n <=? 13)) || (n =? 160).

Fixpoint trimStart (s : string) : string :=
  match s with
  | EmptyString => EmptyString
  | String c rest => if is_space c then trimStart rest else s
  end.

Definition reverse_string (s : string) : string :=
  string_of_list_ascii (rev (list_ascii_of_string s)).

Definition trim (s : string) : string :=
  reverse_string (trimStart (reverse_string (trimStart s))).

(** ** Data model *)

Inductive Role : Type := user | assistant.

(** A message node of the DOM ([div.message.<role>] with its
    [div.message-content] child); [innerHTML] is the child's markup. *)
Record MessageEl : Type := {
  role : Role;
  innerHTML : string
}.

Record AttachmentPayload : Type := {
  document_id : string;
  file_name : string;
  file_size : Z;
  file_type : string;
  file_url : option string;
  extracted_content : option string
}.

(** [UploadedAttachment extends AttachmentPayload] with a local [id]. *)
Record UploadedAttachment : Type := {
  attachment_id : string;
  payload : AttachmentPayload
}.

Inductive TermOp : Type :=
| Write (data : string)
| Writeln (data : string).

(** The terminal widget, seen through what was written to it. *)
Definition CLITerminal : Type := list TermOp.

(** [ChatTab].  The durable fields hold whatever [restoreTabs] found in
    storage; DOM nodes are indices into [nodes]. *)
Record ChatTab : Type := {
  tab_id : jsval;
  tab_name : jsval;
  accountId : jsval;
  conversationId : jsval;
  parentMessageUuid : jsval;
  model : jsval;
  messages : list nat;
  isLoading : bool;
  streamingElement : option nat;
  pendingAttachments : list UploadedAttachment;
  tabType : jsval;
  terminal : option CLITerminal
}.

(** The text kept under [TAB_STORAGE_KEY], seen through what
    [JSON.parse] makes of it. *)
Inductive StoredText : Type :=
| EmptyText
| Malformed
| Json (v : jsval).

(** [localStorage], reduced to the two keys of the program:
    [TAB_STORAGE_KEY] and [ACTIVE_TAB_KEY]; [None] is a key that is not
    set. *)
Record Storage : Type := {
  chatTabs : option StoredText;
  activeTabKey : option string
}.

(** The elements of the page that the tab logic looks up. *)
Record Page : Type := {
  inputValue : option string;
  terminalContainer : bool;
  messagesContainer : bool;
  chatContainer : bool;
  tabsContainer : bool;
  accountSelectModal : bool
}.

Record State : Type := {
  tabs : list ChatTab;
  activeTabId : jsval;
  selectedAccountForNewTab : option string;
  selectedTabType : string;
  nodes : list MessageEl;
  localStorage : Storage;
  page : Page;
  modalVisible : bool
}.

Definition MAX_TABS : nat := 3.

Record AccountInfo : Type := {
  account_id : string;
  orgId : string;
  sessionKey : string;
  email : option string;
  account_name : option string;
  avatarUrl : option string;
  addedAt : Z;
  lastUsed : Z
}.

(** A settled promise of the bridge. *)
Inductive response (A : Type) : Type :=
| Resolve (a : A)
| Reject (reason : string).
Arguments Resolve {A} a.
Arguments Reject {A} reason.

(** The answers of the host to the calls the tab logic makes, and the
    identifier [crypto.randomUUID] hands out. *)
Module claude.
Record Bridge : Type := {
  createConversation : jsval -> response (string * string);
  loadConversation : jsval -> response jsval;
  sendMessage : response unit;
  getActiveAccount : response (bool * option AccountInfo);
  randomUUID : string
}.
End claude.

(** What [window.claude.sendMessage] is called with. *)
Record Outgoing : Type := {
  out_conversation : jsval;
  out_message : string;
  out_parent : jsval;
  out_attachments : list AttachmentPayload
}.

(** *** Field updates *)

Definition set_tabs (l : list ChatTab) (st : State) : State :=
  {| tabs := l; activeTabId := activeTabId st;
     selectedAccountForNewTab := selectedAccountForNewTab st;
     selectedTabType := selectedTabType st; nodes := nodes st;
     localStorage := localStorage st; page := page st;
     modalVisible := modalVisible st |}.

Definition set_activeTabId (v : jsval) (st : State) : State :=
  {| tabs := tabs st; activeTabId := v;
     selectedAccountForNewTab := selectedAccountForNewTab st;
     selectedTabType := selectedTabType st; nodes := nodes st;
     localStorage := localStorage st; page := page st;
     modalVisible := modalVisible st |}.

Definition set_selectedAccountForNewTab (a : option string) (st : State) : State :=
  {| tabs := tabs st; activeTabId := activeTabId st;
     selectedAccountForNewTab := a;
     selectedTabType := selectedTabType st; nodes := nodes st;
     localStorage := localStorage st; page := page st;
     modalVisible := modalVisible st |}.

Definition set_selectedTabType (t : string) (st : State) : State :=
  {| tabs := tabs st; activeTabId := activeTabId st;
     selectedAccountForNewTab := selectedAccountForNewTab st;
     selectedTabType := t; nodes := nodes st;
     localStorage := localStorage st; page := page st;
     modalVisible := modalVisible st |}.

Definition set_nodes (l : list MessageEl) (st : State) : State :=
  {| tabs := tabs st; activeTabId := activeTabId st;
     selectedAccountForNewTab := selectedAccountForNewTab st;
     selectedTabType := selectedTabType st; nodes := l;
     localStorage := localStorage st; page := page st;
     modalVisible := modalVisible st |}.

Definition set_localStorage (s : Storage) (st : State) : State :=
  {| tabs := tabs st; activeTabId := activeTabId st;
     selectedAccountForNewTab := selectedAccountForNewTab st;
     selectedTabType := selectedTabType st; nodes := nodes st;
     localStorage := s; page := page st;
     modalVisible := modalVisible st |}.

Definition set_inputValue (v : option string) (st : State) : State :=
  {| tabs := tabs st; activeTabId := activeTabId st;
     selectedAccountForNewTab := selectedAccountForNewTab st;
     selectedTabType := selectedTabType st; nodes := nodes st;
     localStorage := localStorage st;
     page := {| inputValue := v;
                terminalContainer := terminalContainer (page st);
                messagesContainer := messagesContainer (page st);
                chatContainer := chatContainer (page st);
                tabsContainer := tabsContainer (page st);
                accountSelectModal := accountSelectModal (page st) |};
     modalVisible := modalVisible st |}.

Definition set_modalVisible (b : bool) (st : State) : State :=
  {| tabs := tabs st; activeTabId := activeTabId st;
     selectedAccountForNewTab := selectedAccountForNewTab st;
     selectedTabType := selectedTabType st; nodes := nodes st;
     localStorage := localStorage st; page := page st;
     modalVisible := b |}.

Definition set_name (v : jsval) (t : ChatTab) : ChatTab :=
  {| tab_id := tab_id t; tab_name := v; accountId := accountId t;
     conversationId := conversationId t;
     parentMessageUuid := parentMessageUuid t; model := model t;
     messages := messages t; isLoading := isLoading t;
     streamingElement := streamingElement t;
     pendingAttachments := pendingAttachments t; tabType := tabType t;
     terminal := terminal t |}.

Definition set_conversationId (v : jsval) (t : ChatTab) : ChatTab :=
  {| tab_id := tab_id t; tab_name := tab_name t; accountId := accountId t;
     conversationId := v;
     parentMessageUuid := parentMessageUuid t; model := model t;
     messages := messages t; isLoading := isLoading t;
     streamingElement := streamingElement t;
     pendingAttachments := pendingAttachments t; tabType := tabType t;
     terminal := terminal t |}.

Definition set_parentMessageUuid (v : jsval) (t : ChatTab) : ChatTab :=
  {| tab_id := tab_id t; tab_name := tab_name t; accountId := accountId t;
     conversationId := conversationId t;
     parentMessageUuid := v; model := model t;
     messages := messages t; isLoading := isLoading t;
     streamingElement := streamingElement t;
     pendingAttachments := pendingAttachments t; tabType := tabType t;
     terminal := terminal t |}.

Definition set_messages (l : list nat) (t : ChatTab) : ChatTab :=
  {| tab_id := tab_id t; tab_name := tab_name t; accountId := accountId t;
     conversationId := conversationId t;
     parentMessageUuid := parentMessageUuid t; model := model t;
     messages := l; isLoading := isLoading t;
     streamingElement := streamingElement t;
     pendingAttachments := pendingAttachments t; tabType := tabType t;
     terminal := terminal t |}.

Definition set_isLoading (b : bool) (t : ChatTab) : ChatTab :=
  {| tab_id := tab_id t; tab_name := tab_name t; accountId := accountId t;
     conversationId := conversationId t;
     parentMessageUuid := parentMessageUuid t; model := model t;
     messages := messages t; isLoading := b;
     streamingElement := streamingElement t;
     pendingAttachments := pendingAttachments t; tabType := tabType t;
     terminal := terminal t |}.

Definition set_streamingElement (e : option nat) (t : ChatTab) : ChatTab :=
  {| tab_id := tab_id t; tab_name := tab_name t; accountId := accountId t;
     conversationId := conversationId t;
     parentMessageUuid := parentMessageUuid t; model := model t;
     messages := messages t; isLoading := isLoading t;
     streamingElement := e;
     pendingAttachments := pendingAttachments t; tabType := tabType t;
     terminal := terminal t |}.

Definition set_pendingAttachments (l : list UploadedAttachment) (t : ChatTab) : ChatTab :=
  {| tab_id := tab_id t; tab_name := tab_name t; accountId := accountId t;
     conversationId := conversationId t;
     parentMessageUuid := parentMessageUuid t; model := model t;
     messages := messages t; isLoading := isLoading t;
     streamingElement := streamingElement t;
     pendingAttachments := l; tabType := tabType t;
     terminal := terminal t |}.

Definition set_terminal (c : option CLITerminal) (t : ChatTab) : ChatTab :=
  {| tab_id := tab_id t; tab_name := tab_name t; accountId := accountId t;
     conversationId := conversationId t;
     parentMessageUuid := parentMessageUuid t; model := model t;
     messages := messages t; isLoading := isLoading t;
     streamingElement := streamingElement t;
     pendingAttachments := pendingAttachments t; tabType := tabType t;
     terminal := c |}.

(** Mutation of the tab object held at position [i] of [tabs]. *)
Definition update_tab (i : nat) (f : ChatTab -> ChatTab) (st : State) : State :=
  set_tabs (alter f i (tabs st)) st.

(** ** Stateful code that may throw *)

Definition M (A : Type) : Type := State -> outcome A * State.

Definition ret {A} (a : A) : M A := fun st => (Normal a, st).

Definition bind {A B} (m : M A) (k : A -> M B) : M B :=
  fun st =>
    match m st with
    | (Normal a, st') => k a st'
    | (Throw e, st') => (Throw e, st')
    end.

Definition throw {A} (e : exn) : M A := fun st => (Throw e, st).

Definition lift {A} (o : outcome A) : M A := fun st => (o, st).

Definition modify (f : State -> State) : M unit := fun st => (Normal tt, f st).

Definition gets {A} (f : State -> A) : M A := fun st => (Normal (f st), st).

(** [try { body } catch (e) { console.error (...) }]: what the body did
    to the state before it threw stays done. *)
Definition try_catch (body : M unit) : M unit :=
  fun st =>
    match body st with
    | (Normal _, st') => (Normal tt, st')
    | (Throw _, st') => (Normal tt, st')
    end.

Notation "'let*' x := m 'in' k" := (bind m (fun x => k))
  (at level 10, x name, m at level 100, k at level 200).
Notation "m ;; k" := (bind m (fun _ => k))
  (at level 100, k at level 200, right associativity).

Fixpoint forM_ {A} (l : list A) (body : A -> M unit) : M unit :=
  match l with
  | [] => ret tt
  | x :: rest => body x ;; forM_ rest body
  end.

Fixpoint findIndex {A} (p : A -> bool) (l : list A) : option nat :=
  match l with
  | [] => None
  | x :: rest => if p x then Some 0 else S <$> findIndex p rest
  end.

(** ** Tab management *)

Definition canCreateNewTab (st : State) : bool :=
  length (tabs st) <? MAX_TABS.

(** [getActiveTab]: the position of the first tab whose id is
    [activeTabId] (the source returns the tab object itself). *)
Definition getActiveTab (st : State) : option nat :=
  findIndex (fun t => strict_eq (tab_id t) (activeTabId st)) (tabs st).

Definition tabData (t : ChatTab) : jsval :=
  JObj [("id", tab_id t); ("name", tab_name t); ("accountId", accountId t);
        ("conversationId", conversationId t);
        ("parentMessageUuid", parentMessageUuid t);
        ("model", model t); ("tabType", tabType t)].

Definition saveTabs (st : State) : State :=
  set_localStorage
    {| chatTabs := Some (Json (jsonify (JArr (map tabData (tabs st)))));
       activeTabKey := Some (ToString (js_or (activeTabId st) (JStr EmptyString))) |}
    st.

Definition esc : string := String (ascii_of_nat 27) EmptyString.

Definition prompt : string := esc +:+ "[36m❯" +:+ esc +:+ "[0m ".

Definition welcome : CLITerminal :=
  [ Writeln (esc +:+ "[1;36m╔═══════════════════════════════════════════════════════╗" +:+ esc +:+ "[0m");
    Writeln (esc +:+ "[1;36m║" +:+ esc +:+ "[0m           " +:+ esc
             +:+ "[1;35mZenCLI Terminal - Open Claude" +:+ esc
             +:+ "[0m           " +:+ esc +:+ "[1;36m║" +:+ esc +:+ "[0m");
    Writeln (esc +:+ "[1;36m╚═══════════════════════════════════════════════════════╝" +:+ esc +:+ "[0m");
    Writeln EmptyString;
    Writeln (esc +:+ "[32mTerminal ready. Messages will sync with GUI."
             +:+ esc +:+ "[0m");
    Writeln EmptyString;
    Write prompt ].

(** [initializeTerminal tab], for the tab at position [i].  The input
    callback it registers belongs to the terminal widget and is not part
    of the tab state. *)
Definition initializeTerminal (i : nat) (st : State) : State :=
  if terminalContainer (page st)
  then update_tab i (set_terminal (Some welcome)) st
  else st.

Definition colors : list string :=
  ["#4A90E2"; "#50C878"; "#FFB347"; "#FF6B6B"; "#9B59B6"].

(** [getAccountColor]: [accountId.split] exists on strings only. *)
Definition getAccountColor (accountId : jsval) : outcome string :=
  match accountId with
  | JStr s =>
      let hash := fold_left (fun acc c => acc + nat_of_ascii c)
                            (list_ascii_of_string s) 0 in
      Normal (nth (hash mod length colors) colors EmptyString)
  | JUndefined | JNull =>
      Throw (TypeError "Cannot read properties of null or undefined")
  | _ => Throw (TypeError "split is not a function")
  end.

(** [renderTabs] writes to the DOM only, but building the markup of a
    tab evaluates [getAccountColor (tab.accountId)] and
    [escapeHtml (tab.name)], either of which may throw. *)
Definition renderTabs : M unit :=
  fun st =>
    if tabsContainer (page st)
    then forM_ (tabs st)
           (fun tab =>
              let* _ := lift (getAccountColor (accountId tab)) in
              let* _ := lift (escapeHtml (tab_name tab)) in
              ret tt) st
    else (Normal tt, st).

(** [renderActiveTab]: of what it does, only the lazy creation of the
    terminal of a CLI tab touches the tab state (the rest shows, hides
    and refills containers). *)
Definition renderActiveTab (st : State) : State :=
  if negb (messagesContainer (page st) && chatContainer (page st)) then st
  else
    match getActiveTab st with
    | None => st
    | Some i =>
        match tabs st !! i with
        | None => st
        | Some tab =>
            if strict_eq (tabType tab) (JStr "cli")
            then match terminal tab with
                 | None => initializeTerminal i st
                 | Some _ => st
                 end
            else st
        end
    end.

Definition numeral (n : nat) : string :=
  NilZero.string_of_uint (Nat.to_uint n).

(** [createTab accountId name tabType]; [tabId] is the value drawn from
    [crypto.randomUUID].  [updateInputBadge], [updateModelSelector] and
    [updateModeToggle] only write to the DOM. *)
Definition createTab (tabId : string) (account : string)
    (name : option string) (type : string) : M unit :=
  let* n := gets (fun st => length (tabs st)) in
  let tabName :=
    js_or (match name with Some s => JStr s | None => JUndefined end)
          (JStr (if String.eqb type "cli"
                 then "CLI " +:+ numeral (n + 1)
                 else "Chat " +:+ numeral (n + 1))) in
  let tab :=
    {| tab_id := JStr tabId; tab_name := tabName; accountId := JStr account;
       conversationId := JNull; parentMessageUuid := JNull;
       model := JStr "claude-opus-4-5-20251101";
       messages := []; isLoading := false; streamingElement := None;
       pendingAttachments := []; tabType := JStr type; terminal := None |} in
  modify (fun st => set_tabs (tabs st ++ [tab]) st) ;;
  modify (set_activeTabId (JStr tabId)) ;;
  modify (fun st => if String.eqb type "cli" then initializeTerminal n st else st) ;;
  renderTabs ;;
  modify renderActiveTab ;;
  modify saveTabs.

Definition switchTab (tabId : string) : M unit :=
  let* st := gets (fun st => st) in
  if strict_eq (activeTabId st) (JStr tabId) then ret tt
  else
    match findIndex (fun t => strict_eq (tab_id t) (JStr tabId)) (tabs st) with
    | None => ret tt
    | Some _ =>
        modify (set_activeTabId (JStr tabId)) ;;
        renderTabs ;;
        modify renderActiveTab ;;
        modify saveTabs
    end.

(** [closeTab].  After the splice the list still holds a tab, so
    [tabs[Math.max(0, tabIndex - 1)]] exists ([closeTab_neighbour_exists]
    below); the [None] branch stands for the property read that would
    throw otherwise. *)
Definition closeTab (tabId : string) : M unit :=
  let* st := gets (fun st => st) in
  if length (tabs st) =? 1 then ret tt
  else
    match findIndex (fun t => strict_eq (tab_id t) (JStr tabId)) (tabs st) with
    | None => ret tt
    | Some tabIndex =>
        let rest := delete tabIndex (tabs st) in
        modify (set_tabs rest) ;;
        (if strict_eq (activeTabId st) (JStr tabId)
         then match rest !! Nat.max 0 (tabIndex - 1) with
              | Some t => modify (set_activeTabId (tab_id t))
              | None => throw (TypeError "Cannot read properties of undefined")
              end
         else ret tt) ;;
        renderTabs ;;
        modify renderActiveTab ;;
        modify saveTabs
    end.

Definition updateTabName (tabId : jsval) (name : jsval) : M unit :=
  let* st := gets (fun st => st) in
  match findIndex (fun t => strict_eq (tab_id t) tabId) (tabs st) with
  | None => ret tt
  | Some i =>
      modify (update_tab i (set_name name)) ;;
      renderTabs ;;
      modify saveTabs
  end.

(** ** Messages, streaming and history *)

Section Renderer.

(** [marked.parse] on a string, and [Date.parse]; [None] is [NaN]. *)
Variable marked : string -> string.
Variable Date_parse : string -> option Z.

(** [parseMarkdown t] without citations. *)
Definition parseMarkdown (t : string) : string :=
  if nonempty t then marked t else EmptyString.

Definition set_innerHTML (el : nat) (html : string) (st : State) : State :=
  set_nodes
    (alter (fun e => {| role := role e; innerHTML := html |}) el (nodes st))
    st.

(** [addMessage role content raw].  Every caller hands it a string
    (the history loader throws before the call otherwise), on which
    [escapeHtml] cannot throw.  The new node is pushed on the messages
    of the tab that is active at the time of the call. *)
Definition addMessage (r : Role) (content : string) (raw : bool)
    (st : State) : nat * State :=
  let html :=
    match r with
    | user => escapeHtml_string content
    | assistant => if raw then content else parseMarkdown content
    end in
  let el := length (nodes st) in
  let st1 := set_nodes (nodes st ++ [{| role := r; innerHTML := html |}]) st in
  match getActiveTab st1 with
  | Some i => (el, update_tab i (fun t => set_messages (messages t ++ [el]) t) st1)
  | None => (el, st1)
  end.

Definition quote : string := String dquote EmptyString.

Definition errorMarker (e : string) : string :=
  "<span style=" +:+ quote +:+ "color: #ff453a;" +:+ quote +:+ ">Error: "
    +:+ escapeHtml_string e +:+ "</span>".

(** [sendMessage] up to the call of [window.claude.sendMessage]:
    the position of the sending tab and the arguments of the call, or
    [None] when the function returned before sending.  For a tab that
    has a conversation nothing is awaited on the way.  For a tab that
    has none the function waits for [createConversation]; the wait is
    taken for one step here, no other handler running during it. *)
Definition sendMessage_begin (br : claude.Bridge) (st : State)
    : option (nat * Outgoing) * State :=
  match getActiveTab st, inputValue (page st) with
  | Some i, Some value =>
      match tabs st !! i with
      | None => (None, st)
      | Some tab =>
          let message := trim value in
          if negb (nonempty message) then (None, st)
          else
            let created :=
              if truthy (conversationId tab) then Some st
              else
                match claude.createConversation br (model tab) with
                | Resolve (c, p) =>
                    Some (update_tab i
                            (fun t => set_parentMessageUuid (JStr p)
                                        (set_conversationId (JStr c) t)) st)
                | Reject _ => None
                end in
            match created with
            | None => (None, st)
            | Some st1 =>
                let st2 := snd (addMessage user message false st1) in
                let st3 := set_inputValue (Some EmptyString) st2 in
                let attachments :=
                  match tabs st3 !! i with
                  | Some t => map payload (pendingAttachments t)
                  | None => []
                  end in
                let st4 := update_tab i (set_pendingAttachments []) st3 in
                let (assistantMsg, st5) := addMessage assistant EmptyString true st4 in
                let st6 :=
                  update_tab i
                    (fun t => set_isLoading true
                                (set_streamingElement (Some assistantMsg) t)) st5 in
                match tabs st6 !! i with
                | None => (None, st6)
                | Some t =>
                    (Some (i, {| out_conversation := conversationId t;
                                 out_message := message;
                                 out_parent := js_or (parentMessageUuid t)
                                                     (conversationId t);
                                 out_attachments := attachments |}), st6)
                end
            end
      end
  | _, _ => (None, st)
  end.

(** The [catch] block of [sendMessage], for the tab at position [i]. *)
Definition sendMessage_rejected (i : nat) (e : string) (st : State) : State :=
  match tabs st !! i with
  | None => st
  | Some tab =>
      let st1 :=
        match streamingElement tab with
        | Some el => set_innerHTML el (errorMarker e) st
        | None => st
        end in
      update_tab i (set_isLoading false) st1
  end.

(** [sendMessage], run with no other handler in between its awaits;
    the result is the message handed to the bridge, if any. *)
Definition sendMessage (br : claude.Bridge) (st : State)
    : option Outgoing * State :=
  match sendMessage_begin br st with
  | (None, st') => (None, st')
  | (Some (i, out), st') =>
      match claude.sendMessage br with
      | Resolve _ => (Some out, st')
      | Reject e => (Some out, sendMessage_rejected i e st')
      end
  end.

Definition cr : string := String (ascii_of_nat 13) EmptyString.
Definition lf : string := String (ascii_of_nat 10) EmptyString.

Definition terminal_do (ops : list TermOp) (t : ChatTab) : ChatTab :=
  match terminal t with
  | Some term => set_terminal (Some (term ++ ops)) t
  | None => t
  end.

(** The callback given to [window.claude.onMessageStream]. *)
Definition onMessageStream (conversation fullText : string) (st : State) : State :=
  match findIndex (fun t => strict_eq (conversationId t) (JStr conversation)) (tabs st) with
  | None => st
  | Some i =>
      match tabs st !! i with
      | None => st
      | Some tab =>
          match streamingElement tab with
          | None => st
          | Some el =>
              let st1 := set_innerHTML el (parseMarkdown fullText) st in
              if strict_eq (tab_id tab) (activeTabId st)
              then update_tab i
                     (terminal_do
                        [Write (cr +:+ esc +:+ "[K" +:+ esc +:+ "[32mClaude:"
                                +:+ esc +:+ "[0m " +:+ substring 0 100 fullText
                                +:+ "...")]) st1
              else st1
          end
      end
  end.

(** The callback given to [window.claude.onMessageComplete]. *)
Definition onMessageComplete (conversation fullText messageUuid : string)
    (st : State) : State :=
  match findIndex (fun t => strict_eq (conversationId t) (JStr conversation)) (tabs st) with
  | None => st
  | Some i =>
      let st1 :=
        update_tab i
          (fun t => set_streamingElement None
                      (set_isLoading false
                         (set_parentMessageUuid (JStr messageUuid) t))) st in
      let st2 :=
        update_tab i
          (terminal_do
             [Writeln (cr +:+ esc +:+ "[K" +:+ esc +:+ "[32mClaude:" +:+ esc
                       +:+ "[0m " +:+ fullText);
              Writeln EmptyString;
              Write prompt]) st1 in
      saveTabs st2
  end.

(** *** Conversation history *)

(** [new Date(v).getTime()]; [None] is [NaN]. *)
Definition getTime (v : jsval) : option Z :=
  match v with
  | JUndefined => None
  | JNull => Some 0%Z
  | JBool b => Some (if b then 1 else 0)%Z
  | JNum n => if (Z.abs n <=? 8640000000000000)%Z then Some n else None
  | JStr s => Date_parse s
  | JArr _ | JObj _ => Date_parse (ToString v)
  end.

(** The comparator handed to [sort]:
    [new Date(a.created_at).getTime() - new Date(b.created_at).getTime()]. *)
Definition byCreation (a b : jsval) : outcome (option Z) :=
  match get a "created_at", get b "created_at" with
  | Normal ca, Normal cb =>
      match getTime ca, getTime cb with
      | Some x, Some y => Normal (Some (x - y)%Z)
      | _, _ => Normal None
      end
  | Throw e, _ => Throw e
  | _, Throw e => Throw e
  end.

(** [Array.prototype.sort] is stable, never calls the comparator on a
    list of fewer than two elements, and takes a [NaN] answer for a
    zero.  A stable insertion sort has these three properties; where
    the comparator is not a consistent order (invalid dates) the
    language leaves the result to the engine and this is one possible
    answer.  Arrays received from the bridge hold no [undefined]. *)
Fixpoint insert (cmp : jsval -> jsval -> outcome (option Z))
    (x : jsval) (l : list jsval) : outcome (list jsval) :=
  match l with
  | [] => Normal [x]
  | y :: rest =>
      match cmp x y with
      | Throw e => Throw e
      | Normal (Some c) =>
          if (0 <? c)%Z
          then match insert cmp x rest with
               | Normal r => Normal (y :: r)
               | Throw e => Throw e
               end
          else Normal (x :: l)
      | Normal None => Normal (x :: l)
      end
  end.

Fixpoint sort (cmp : jsval -> jsval -> outcome (option Z))
    (l : list jsval) : outcome (list jsval) :=
  match l with
  | [] => Normal []
  | x :: rest =>
      match sort cmp rest with
      | Normal sorted => insert cmp x sorted
      | Throw e => Throw e
      end
  end.

(** The text blocks of [msg.content], in order. *)
Fixpoint textParts (blocks : list jsval) : outcome (list string) :=
  match blocks with
  | [] => Normal []
  | contentBlock :: rest =>
      match get contentBlock "type", get contentBlock "text" with
      | Normal ty, Normal tx =>
          match textParts rest with
          | Normal parts =>
              if strict_eq ty (JStr "text") && truthy tx
              then Normal (ToString tx :: parts)
              else Normal parts
          | Throw e => Throw e
          end
      | Throw e, _ => Throw e
      | _, Throw e => Throw e
      end
  end.

(** The first half of the loop body of [loadConversationHistory]:
    [msg.text] or else the empty string, replaced by the joined text blocks when it is
    empty and [msg.content] is an array. *)
Definition messageText (msg : jsval) : outcome jsval :=
  match get msg "text", get msg "content" with
  | Normal tx, Normal content =>
      let direct := js_or tx (JStr EmptyString) in
      match content with
      | JArr blocks =>
          if truthy direct then Normal direct
          else match textParts blocks with
               | Normal parts => Normal (JStr (join lf parts))
               | Throw e => Throw e
               end
      | _ => Normal direct
      end
  | Throw e, _ => Throw e
  | _, Throw e => Throw e
  end.

(** The loop body.  The log line evaluates
    [messageText?.substring(0, 50)], which throws on a text that is
    neither a string nor null. *)
Definition renderHistoryMessage (msg : jsval) : M unit :=
  let* mt := lift (messageText msg) in
  match mt with
  | JStr s =>
      if negb (nonempty s) then ret tt
      else
        let* sender := lift (get msg "sender") in
        if strict_eq sender (JStr "human")
        then modify (fun st => snd (addMessage user s false st))
        else if strict_eq sender (JStr "assistant")
        then modify (fun st => snd (addMessage assistant s false st))
        else ret tt
  | _ => throw (TypeError "substring is not a function")
  end.

(** [loadConversationHistory tab], for the tab at position [i]. *)
Definition loadConversationHistory (br : claude.Bridge) (i : nat) : M unit :=
  let* st := gets (fun st => st) in
  match tabs st !! i with
  | None => ret tt
  | Some tab =>
      if negb (truthy (conversationId tab)) || (0 <? length (messages tab))
      then ret tt
      else
        try_catch
          match claude.loadConversation br (conversationId tab) with
          | Reject reason => throw (Rejection reason)
          | Resolve data =>
              if negb (truthy data) then ret tt
              else
                let* m1 := lift (get data "chat_messages") in
                let* m2 := lift (get data "messages") in
                let* m3 := lift (get data "chat_history") in
                match js_or m1 (js_or m2 m3) with
                | JArr items =>
                    let* sortedMessages := lift (sort byCreation items) in
                    forM_ sortedMessages renderHistoryMessage ;;
                    match list.last sortedMessages with
                    | Some lastMessage =>
                        let* uuid := lift (get lastMessage "uuid") in
                        modify (update_tab i (set_parentMessageUuid uuid))
                    | None => ret tt
                    end ;;
                    let* name := lift (get data "name") in
                    if truthy name
                    then match name with
                         | JStr s =>
                             if nonempty (trim s)
                             then updateTabName (tab_id tab) name
                             else ret tt
                         | _ => throw (TypeError "trim is not a function")
                         end
                    else ret tt
                | _ => ret tt
                end
          end
  end.

(** *** Persistence *)

Definition prop (v : jsval) (k : string) : jsval :=
  match get v k with
  | Normal x => x
  | Throw _ => JUndefined
  end.

(** The tab built from one entry of the snapshot. *)
Definition tabOfData (tabData : jsval) : ChatTab :=
  {| tab_id := prop tabData "id";
     tab_name := prop tabData "name";
     accountId := prop tabData "accountId";
     conversationId := prop tabData "conversationId";
     parentMessageUuid := prop tabData "parentMessageUuid";
     model := prop tabData "model";
     messages := [];
     isLoading := false;
     streamingElement := None;
     pendingAttachments := [];
     tabType :=
       if truthy (prop tabData "tabType") then prop tabData "tabType"
       else if truthy (prop tabData "displayMode") then prop tabData "displayMode"
       else JStr "gui";
     terminal := None |}.

(** The body of the loop over the parsed snapshot: the first property
    read throws on an entry that is [null]. *)
Definition restoreEntry (tabData : jsval) : M unit :=
  let* _ := lift (get tabData "tabType") in
  modify (fun st => set_tabs (tabs st ++ [tabOfData tabData]) st).

Definition chooseActiveTab (saved : option string) : M unit :=
  let* st := gets (fun st => st) in
  let found :=
    match saved with
    | Some s =>
        nonempty s &&
        bool_decide (is_Some (findIndex (fun t => strict_eq (tab_id t) (JStr s)) (tabs st)))
    | None => false
    end in
  if found
  then modify (set_activeTabId (match saved with Some s => JStr s | None => JNull end))
  else match tabs st with
       | t :: _ => modify (set_activeTabId (tab_id t))
       | [] => ret tt
       end.

(** The first statement of [restoreTabs]: [if (tabsData) { try { ... }
    catch (e) { ... } }]. *)
Definition restoreTabs_load : M unit :=
  let* st := gets (fun st => st) in
  let savedActiveTabId := activeTabKey (localStorage st) in
  match chatTabs (localStorage st) with
  | None | Some EmptyText => ret tt
  | Some Malformed => try_catch (throw SyntaxError)
  | Some (Json parsed) =>
      try_catch
        (let* entries := lift (iterate parsed) in
         forM_ entries restoreEntry ;;
         chooseActiveTab savedActiveTabId)
  end.

(** [restoreTabs], run with no other handler in between its awaits. *)
Definition restoreTabs (br : claude.Bridge) : M unit :=
  restoreTabs_load ;;
  let* st := gets (fun st => st) in
  if length (tabs st) =? 0
  then
    match claude.getActiveAccount br with
    | Reject reason => throw (Rejection reason)
    | Resolve (success, account) =>
        match account with
        | Some a =>
            if success
            then createTab (claude.randomUUID br) (account_id a) (Some "Chat 1") "gui"
            else ret tt
        | None => ret tt
        end
    end
  else
    renderTabs ;;
    modify renderActiveTab ;;
    forM_ (seq 0 (length (tabs st)))
      (fun i =>
         let* st' := gets (fun st' => st') in
         match tabs st' !! i with
         | Some tab =>
             if truthy (conversationId tab) && (length (messages tab) =? 0)
             then loadConversationHistory br i
             else ret tt
         | None => ret tt
         end) ;;
    modify renderActiveTab.

(** *** The new-tab dialogue *)

Definition showAccountSelectModal (st : State) : State :=
  let st1 := set_selectedAccountForNewTab None st in
  if accountSelectModal (page st1) then set_modalVisible true st1 else st1.

Definition hideAccountSelectModal (st : State) : State :=
  let st1 := if accountSelectModal (page st) then set_modalVisible false st else st in
  set_selectedAccountForNewTab None st1.

(** Click on [#new-tab-btn]. *)
Definition onNewTabClick (st : State) : State :=
  if canCreateNewTab st
  then showAccountSelectModal (set_selectedTabType "gui" st)
  else st.

(** Click on an [.account-option] of the dialogue. *)
Definition onAccountOptionClick (account : string) (st : State) : State :=
  if nonempty account then set_selectedAccountForNewTab (Some account) st else st.

(** Click on a [.tab-type-btn] of the dialogue. *)
Definition onTabTypeClick (type : string) (st : State) : State :=
  set_selectedTabType type st.

(** Click on [#add-account-for-tab] with an account selected (with
    none selected the handler starts the login flow, which ends in a
    reload of the page). *)
Definition onAddAccountForTabClick (uuid : string) : M unit :=
  let* st := gets (fun st => st) in
  match selectedAccountForNewTab st with
  | Some account =>
      if nonempty account
      then createTab uuid account None (selectedTabType st) ;;
           modify hideAccountSelectModal
      else ret tt
  | None => ret tt
  end.

End Renderer.

(** * Notions used to state the properties *)

(** Tabs up to their terminal, which rendering may create. *)
Definition forget_terminal (t : ChatTab) : ChatTab := set_terminal None t.

(** A tab whose markup [renderTabs] can build. *)
Definition renderable (t : ChatTab) : bool :=
  match accountId t, js_or (tab_name t) (JStr EmptyString) with
  | JStr _, JStr _ => true
  | _, _ => false
  end.

(** The statements [createTab], [switchTab] and [closeTab] end with:
    [renderTabs (); renderActiveTab (); saveTabs ()]. *)
Definition rerender : M unit :=
  renderTabs ;; modify renderActiveTab ;; modify saveTabs.

(** The clicks that reach the tab registry. *)
Inductive ui_event : Type :=
| NewTabClick
| AccountOptionClick (account : string)
| TabTypeClick (type : string)
| CancelNewTabClick
| AddAccountForTabClick (uuid : string)
| TabClick (tabId : string)
| TabCloseClick (tabId : string).

(** The listener [setupEventListeners] and [renderTabs] attach for each
    of them. *)
Definition handle (e : ui_event) : M unit :=
  match e with
  | NewTabClick => modify onNewTabClick
  | AccountOptionClick a => modify (onAccountOptionClick a)
  | TabTypeClick t => modify (onTabTypeClick t)
  | CancelNewTabClick => modify hideAccountSelectModal
  | AddAccountForTabClick u => onAddAccountForTabClick u
  | TabClick tabId => switchTab tabId
  | TabCloseClick tabId => closeTab tabId
  end.

(** The controls of the new-tab dialogue can be clicked only while the
    dialogue is shown. *)
Definition clickable (e : ui_event) (st : State) : bool :=
  match e with
  | AccountOptionClick _ | TabTypeClick _ | CancelNewTabClick
  | AddAccountForTabClick _ => modalVisible st
  | NewTabClick | TabClick _ | TabCloseClick _ => true
  end.

(** A handler that throws ends there; what it did to the state stays. *)
Fixpoint run_ui (es : list ui_event) (st : State) : option State :=
  match es with
  | [] => Some st
  | e :: rest =>
      if clickable e st then run_ui rest (snd (handle e st)) else None
  end.

(** What the capacity gate maintains: at most [MAX_TABS] tabs, all of
    which can be drawn, and room for one more whenever the dialogue is
    open. *)
Definition gate_inv (st : State) : Prop :=
  length (tabs st) <= MAX_TABS /\
  forallb renderable (tabs st) = true /\
  (modalVisible st = true ->
   length (tabs st) < MAX_TABS /\ accountSelectModal (page st) = true).

Definition is_some {A} (o : option A) : bool :=
  match o with Some _ => true | None => false end.

(** The tab at position [i] is the one stream events of [conv] reach,
    and its placeholder is node [el]. *)
Definition streaming_at (st : State) (conv : string) (i el : nat) : Prop :=
  findIndex (fun t => strict_eq (conversationId t) (JStr conv)) (tabs st) = Some i /\
  (streamingElement <$> tabs st !! i) = Some (Some el) /\
  el < length (nodes st).

(** The stream events of one conversation, delivered in order. *)
Definition deliver (marked : string -> string) (conv : string)
    (texts : list string) (st : State) : State :=
  fold_left (fun s text => onMessageStream marked conv text s) texts st.

(** [null] or [undefined]. *)
Definition nullish (v : jsval) : bool :=
  match v with JUndefined | JNull => true | _ => false end.

(** The entries of a snapshot that come before its first [null]. *)
Fixpoint beforeNull (entries : list jsval) : list jsval :=
  match entries with
  | [] => []
  | x :: rest => if nullish x then [] else x :: beforeNull rest
  end.

Definition is_string (v : jsval) : bool :=
  match v with JStr _ => true | _ => false end.

Definition string_or_null (v : jsval) : bool :=
  match v with JStr _ | JNull => true | _ => false end.

(** A tab whose durable fields have the types [ChatTab] declares. *)
Definition well_typed (t : ChatTab) : bool :=
  is_string (tab_id t) && is_string (tab_name t) && is_string (accountId t)
  && string_or_null (conversationId t) && string_or_null (parentMessageUuid t)
  && is_string (model t)
  && (strict_eq (tabType t) (JStr "gui") || strict_eq (tabType t) (JStr "cli")).

(** The tab with its transient fields reset. *)
Definition restored (t : ChatTab) : ChatTab :=
  {| tab_id := tab_id t; tab_name := tab_name t; accountId := accountId t;
     conversationId := conversationId t;
     parentMessageUuid := parentMessageUuid t; model := model t;
     messages := []; isLoading := false; streamingElement := None;
     pendingAttachments := []; tabType := tabType t; terminal := None |}.

(** The state of the renderer when it starts. *)
Definition fresh (storage : Storage) (pg : Page) : State :=
  {| tabs := []; activeTabId := JNull; selectedAccountForNewTab := None;
     selectedTabType := "gui"; nodes := []; localStorage := storage;
     page := pg; modalVisible := false |}.

(** An answer of [loadConversation] that carries no history: a
    rejection, or no data. *)
Definition no_history (r : response jsval) : bool :=
  match r with
  | Reject _ => true
  | Resolve data => negb (truthy data)
  end.

Section HistoryDefs.
Variable marked : string -> string.
Variable Date_parse : string -> option Z.

(** The creation time of a history entry. *)
Definition timeOf (m : jsval) : option Z :=
  getTime Date_parse (prop m "created_at").


(** The entries created at [t]. *)
Definition createdAt (t : Z) (m : jsval) : bool :=
  match timeOf m with
  | Some x => (x =? t)%Z
  | None => false
  end.








End HistoryDefs.



(** ** Concrete registries, bridges and histories *)

Definition demo_page : Page :=
  {| inputValue := Some "hello"; terminalContainer := true;
     messagesContainer := true; chatContainer := true; tabsContainer := true;
     accountSelectModal := true |}.

Definition demo_tab (id name : string) (conv parent : jsval) : ChatTab :=
  {| tab_id := JStr id; tab_name := JStr name; accountId := JStr "acct-1";
     conversationId := conv; parentMessageUuid := parent;
     model := JStr "claude-opus-4-5-20251101";
     messages := []; isLoading := false; streamingElement := None;
     pendingAttachments := []; tabType := JStr "gui"; terminal := None |}.

Definition demo_state (ts : list ChatTab) (active : jsval) : State :=
  {| tabs := ts; activeTabId := active; selectedAccountForNewTab := None;
     selectedTabType := "gui"; nodes := [];
     localStorage := {| chatTabs := None; activeTabKey := None |};
     page := demo_page; modalVisible := false |}.

Definition one_tab : State :=
  demo_state [demo_tab "u1" "Chat 1" JNull JNull] (JStr "u1").

Definition two_tabs : State :=
  demo_state [demo_tab "u1" "Chat 1" JNull JNull;
              demo_tab "u2" "Chat 2" JNull JNull] (JStr "u2").

Definition three_tabs : State :=
  demo_state [demo_tab "u1" "Chat 1" JNull JNull;
              demo_tab "u2" "Chat 2" JNull JNull;
              demo_tab "u3" "Chat 3" JNull JNull] (JStr "u3").

(** A tab with a conversation, saved while it was active. *)
Definition chatting : State :=
  demo_state [demo_tab "u1" "Chat 1" (JStr "c1") (JStr "p1");
              demo_tab "u2" "Chat 2" JNull JNull] (JStr "u1").

(** The same registry with no active tab recorded. *)
Definition no_active : State :=
  demo_state [demo_tab "u1" "Chat 1" JNull JNull] JNull.

Definition demo_attachment : UploadedAttachment :=
  {| attachment_id := "a1";
     payload := {| document_id := "d1"; file_name := "notes.txt";
                   file_size := 12; file_type := "text/plain";
                   file_url := None; extracted_content := Some "hello world" |} |}.

(** A tab with one pending attachment. *)
Definition with_attachment : State :=
  demo_state [set_pendingAttachments [demo_attachment]
                (demo_tab "u1" "Chat 1" (JStr "c1") (JStr "p1"))] (JStr "u1").

(** A tab in the middle of a reply: node 0 is the user's message, node 1
    the placeholder. *)
Definition streaming : State :=
  set_nodes [{| role := user; innerHTML := "hello" |};
             {| role := assistant; innerHTML := EmptyString |}]
    (demo_state [set_isLoading true
                   (set_streamingElement (Some 1)
                      (set_messages [0; 1]
                         (demo_tab "u1" "Chat 1" (JStr "c1") (JStr "p1"))))]
                (JStr "u1")).

Definition demo_account : AccountInfo :=
  {| account_id := "acct-1"; orgId := "org-1"; sessionKey := "sk";
     email := None; account_name := None; avatarUrl := None;
     addedAt := 0; lastUsed := 0 |}.

(** A bridge that cannot reach the service. *)
Definition offline : claude.Bridge :=
  {| claude.createConversation := fun _ => Reject "offline";
     claude.loadConversation := fun _ => Reject "offline";
     claude.sendMessage := Reject "offline";
     claude.getActiveAccount := Resolve (true, Some demo_account);
     claude.randomUUID := "u9" |}.

(** A bridge that creates conversations but fails to send. *)
Definition failing_send : claude.Bridge :=
  {| claude.createConversation := fun _ => Resolve ("c1", "p1");
     claude.loadConversation := fun _ => Reject "offline";
     claude.sendMessage := Reject "network down";
     claude.getActiveAccount := Resolve (true, Some demo_account);
     claude.randomUUID := "u9" |}.

Definition history_entry (uuid : string) (txt : jsval) (sender created : string) : jsval :=
  JObj [("uuid", JStr uuid); ("text", txt); ("sender", JStr sender);
        ("created_at", JStr created)].

Definition with_history (entries : list jsval) : claude.Bridge :=
  {| claude.createConversation := fun _ => Resolve ("c1", "p1");
     claude.loadConversation :=
       fun _ => Resolve (JObj [("uuid", JStr "c1"); ("name", JStr EmptyString);
                               ("chat_messages", JArr entries)]);
     claude.sendMessage := Resolve tt;
     claude.getActiveAccount := Resolve (true, Some demo_account);
     claude.randomUUID := "u9" |}.

(** Three entries out of order; the second in time has no text. *)
Definition shuffled_history : list jsval :=
  [history_entry "m3" (JStr "third") "human" "2024-01-01T00:00:03Z";
   history_entry "m1" (JStr "first") "assistant" "2024-01-01T00:00:01Z";
   JObj [("uuid", JStr "m2"); ("sender", JStr "human");
         ("created_at", JStr "2024-01-01T00:00:02Z")]].


(** Stand-ins for [marked.parse] and [Date.parse]. *)
Definition demo_marked (s : string) : string := "<p>" +:+ s +:+ "</p>".

Definition demo_Date_parse (s : string) : option Z :=
  if String.eqb s "2024-01-01T00:00:01Z" then Some 1704067201000%Z
  else if String.eqb s "2024-01-01T00:00:02Z" then Some 1704067202000%Z
  else if String.eqb s "2024-01-01T00:00:03Z" then Some 1704067203000%Z
  else None.

(** Opening the dialogue, confirming, and trying again at capacity. *)
Definition demo_clicks : list ui_event :=
  [NewTabClick; AccountOptionClick "acct-1"; AddAccountForTabClick "u3";
   NewTabClick; TabCloseClick "u1"; NewTabClick].

(** A tab whose conversation has a history to load. *)
Definition returning : State :=
  demo_state [demo_tab "u1" "Chat 1" (JStr "c1") (JStr "p1")] (JStr "u1").

Definition snapshot_state (v : StoredText) : State :=
  fresh {| chatTabs := Some v; activeTabKey := Some "u1" |} demo_page.

(** * The rest of the renderer *)

(** ** Handlers of the input area *)

Definition set_model (v : jsval) (t : ChatTab) : ChatTab :=
  {| tab_id := tab_id t; tab_name := tab_name t; accountId := accountId t;
     conversationId := conversationId t;
     parentMessageUuid := parentMessageUuid t; model := v;
     messages := messages t; isLoading := isLoading t;
     streamingElement := streamingElement t;
     pendingAttachments := pendingAttachments t; tabType := tabType t;
     terminal := terminal t |}.

Definition set_tabType (v : jsval) (t : ChatTab) : ChatTab :=
  {| tab_id := tab_id t; tab_name := tab_name t; accountId := accountId t;
     conversationId := conversationId t;
     parentMessageUuid := parentMessageUuid t; model := model t;
     messages := messages t; isLoading := isLoading t;
     streamingElement := streamingElement t;
     pendingAttachments := pendingAttachments t; tabType := v;
     terminal := terminal t |}.

(** The [change] listener of [#model-selector]; [value] is the option
    selected. *)
Definition onModelChange (value : string) (st : State) : State :=
  match getActiveTab st with
  | Some i => saveTabs (update_tab i (set_model (JStr value)) st)
  | None => st
  end.

(** The [click] listener of a [.mode-toggle-btn]; [mode] is its
    [data-mode] attribute. *)
Definition onModeToggleClick (mode : string) (st : State) : State :=
  match getActiveTab st with
  | None => st
  | Some i =>
      match tabs st !! i with
      | None => st
      | Some tab =>
          if strict_eq (tabType tab) (JStr mode) then st
          else saveTabs (renderActiveTab (update_tab i (set_tabType (JStr mode)) st))
      end
  end.

(** The [click] listener of [#input-badge]; [answer] is what [prompt]
    returned ([None] when the dialogue was cancelled). *)
Definition onInputBadgeClick (answer : option string) : M unit :=
  let* st := gets (fun st => st) in
  match getActiveTab st with
  | None => ret tt
  | Some i =>
      match tabs st !! i with
      | None => ret tt
      | Some tab =>
          match answer with
          | Some newName =>
              if nonempty newName && nonempty (trim newName)
              then updateTabName (tab_id tab) (JStr (trim newName))
              else ret tt
          | None => ret tt
          end
      end
  end.

(** ** Attachments *)

(** A file picked by the user, and what is sent of it to the bridge. *)
Module upload.
Record File : Type := {
  name : string;
  size : Z;
  type : string;
  data : string
}.
End upload.

Definition uploadPayload (file : upload.File) : upload.File :=
  {| upload.name := upload.name file;
     upload.size := upload.size file;
     upload.type := if nonempty (upload.type file) then upload.type file
                    else "application/octet-stream";
     upload.data := upload.data file |}.

(** [handleFileSelection fileList], run with no other handler in between
    its awaits.  [uploadAttachments] is the answer of the bridge and
    [randomUUID k] the identifier drawn for the [k]-th result; a
    rejected read of a file ends in the same [catch] as a rejected
    upload. *)
Definition handleFileSelection
    (uploadAttachments : list upload.File -> response (list AttachmentPayload))
    (randomUUID : nat -> string)
    (fileList : option (list upload.File)) (st : State) : State :=
  match getActiveTab st, fileList with
  | Some i, Some (file :: others) =>
      match uploadAttachments (map uploadPayload (file :: others)) with
      | Resolve results =>
          let normalized :=
            imap (fun k res => {| attachment_id := randomUUID k; payload := res |})
                 results in
          update_tab i
            (fun t => set_pendingAttachments (pendingAttachments t ++ normalized) t)
            st
      | Reject _ => st
      end
  | _, _ => st
  end.

(** The [click] listener that [renderAttachmentList] puts on the remove
    button of an attachment; the tab (at position [i]) is the one that
    was active when the list was drawn, [id] the [data-id] of the
    button. *)
Definition onAttachmentRemoveClick (i : nat) (id : string) (st : State) : State :=
  if nonempty id
  then update_tab i
         (fun t => set_pendingAttachments
                     (filter (fun a => attachment_id a <> id) (pendingAttachments t)) t)
         st
  else st.

(** ** The terminal of a CLI tab *)

Definition DEL : string := String (ascii_of_nat 127) EmptyString.
Definition ETX : string := String (ascii_of_nat 3) EmptyString.
Definition BS : string := String (ascii_of_nat 8) EmptyString.

(** [text.slice(0, -1)] *)
Definition dropLast (s : string) : string :=
  string_of_list_ascii (removelast (list_ascii_of_string s)).

(** The callback [initializeTerminal] gives to [terminal.onInput], as a
    function of the chunk received and of [inputBuffer]: the new
    buffer, what the callback itself writes to the terminal, and the
    message it hands to [handleCLIMessage], if any. *)
Definition onTerminalInput (chunk : string) (inputBuffer : string)
    : string * list TermOp * option string :=
  if String.eqb chunk cr then
    if nonempty (trim inputBuffer)
    then (EmptyString, [Writeln EmptyString; Write prompt], Some (trim inputBuffer))
    else (inputBuffer, [Writeln EmptyString; Write prompt], None)
  else if String.eqb chunk DEL then
    if nonempty inputBuffer
    then (dropLast inputBuffer, [Write (BS +:+ " " +:+ BS)], None)
    else (inputBuffer, [], None)
  else if String.eqb chunk ETX then
    (EmptyString, [Writeln "^C"; Write prompt], None)
  else (inputBuffer +:+ chunk, [Write chunk], None).

(** The chunks of a session, one after the other: the buffer at the end
    and the messages submitted on the way. *)
Fixpoint typeAll (chunks : list string) (inputBuffer : string)
    : string * list string :=
  match chunks with
  | [] => (inputBuffer, [])
  | chunk :: rest =>
      let '(buffer, _, submitted) := onTerminalInput chunk inputBuffer in
      let (final, later) := typeAll rest buffer in
      (final, match submitted with Some m => m :: later | None => later end)
  end.

Section TerminalMessage.
Variable marked : string -> string.

(** [handleCLIMessage tab message], for the tab at position [i], up to
    the call of [window.claude.sendMessage] in the [sendMessage] it
    runs: the position of the sending tab and the arguments of that
    call, or [None] when no call is made.  For a tab that has a
    conversation nothing is awaited on the way. *)
Definition handleCLIMessage_begin (br : claude.Bridge) (i : nat) (message : string)
    (st : State) : option (nat * Outgoing) * State :=
  match tabs st !! i with
  | None => (None, st)
  | Some tab =>
      match terminal tab with
      | None => (None, st)
      | Some _ =>
          let st1 :=
            update_tab i
              (terminal_do [Writeln (esc +:+ "[33mYou:" +:+ esc +:+ "[0m " +:+ message)])
              st in
          let st2 := snd (addMessage marked user message false st1) in
          match inputValue (page st2) with
          | None => (None, st2)
          | Some _ => sendMessage_begin marked br (set_inputValue (Some message) st2)
          end
      end
  end.

(** [handleCLIMessage tab message], for the tab at position [i], run
    with no other handler in between its awaits. *)
Definition handleCLIMessage (br : claude.Bridge) (i : nat) (message : string)
    (st : State) : option Outgoing * State :=
  match tabs st !! i with
  | None => (None, st)
  | Some tab =>
      match terminal tab with
      | None => (None, st)
      | Some _ =>
          let st1 :=
            update_tab i
              (terminal_do [Writeln (esc +:+ "[33mYou:" +:+ esc +:+ "[0m " +:+ message)])
              st in
          let st2 := snd (addMessage marked user message false st1) in
          match inputValue (page st2) with
          | None => (None, st2)
          | Some _ =>
              let (sent, st3) :=
                sendMessage marked br (set_inputValue (Some message) st2) in
              (sent, set_inputValue (Some EmptyString) st3)
          end
      end
  end.

End TerminalMessage.

(** ** Notions used to state the further properties *)

(** The durable image of a registry: under [chatTabs] the list of its
    tabs, each reduced to its seven durable fields, as JSON gives it
    back; under [activeTab] the active id as text (the empty text for
    an id that is falsy). *)
Definition snapshot (st : State) : Storage :=
  {| chatTabs :=
       Some (Json (jsonify
                     (JArr (map (fun t =>
                                   JObj [("id", tab_id t); ("name", tab_name t);
                                         ("accountId", accountId t);
                                         ("conversationId", conversationId t);
                                         ("parentMessageUuid", parentMessageUuid t);
                                         ("model", model t);
                                         ("tabType", tabType t)])
                                (tabs st)))));
     activeTabKey := Some (ToString (js_or (activeTabId st) (JStr EmptyString))) |}.

(** The storage holds the durable image of the registry as it is now:
    nothing of the tabs' durable fields, and no change of the active
    tab, is missing from it. *)
Definition synced (st : State) : Prop := localStorage st = snapshot st.

(** A registry that holds a tab, whose ids are strings and whose active
    id is the id of one of its tabs. *)
Definition registry_ok (st : State) : Prop :=
  tabs st <> [] /\
  is_Some (getActiveTab st) /\
  forallb (fun t => is_string (tab_id t)) (tabs st) = true.

(** A computation that leaves the choice of the active tab alone,
    from whatever state it is run and whether or not it throws. *)
Definition keeps_active {A} (m : M A) : Prop :=
  forall st, activeTabId (snd (m st)) = activeTabId st.

(** The sending tab once it has a conversation: as it is when it has
    one already, with the identifiers the bridge answers otherwise;
    [None] when the bridge fails to create one. *)
Definition withConversation (br : claude.Bridge) (t : ChatTab) : option ChatTab :=
  if truthy (conversationId t) then Some t
  else match claude.createConversation br (model t) with
       | Resolve (c, p) =>
           Some (set_parentMessageUuid (JStr p) (set_conversationId (JStr c) t))
       | Reject _ => None
       end.

(** The sending tab at the moment the bridge is called; [n] is the
    number of message nodes before the call. *)
Definition sending (n : nat) (t : ChatTab) : ChatTab :=
  set_isLoading true
    (set_streamingElement (Some (S n))
       (set_messages (messages t ++ [n; S n])
          (set_pendingAttachments [] t))).

(** No tab before position [i] holds the conversation [conv]. *)
Definition first_with_conversation (conv : string) (i : nat) (st : State) : Prop :=
  forall j t, j < i -> tabs st !! j = Some t ->
              strict_eq (conversationId t) (JStr conv) = false.

(** What the completion handler writes to the terminal of the tab. *)
Definition completion_notice (fullText : string) : list TermOp :=
  [Writeln (cr +:+ esc +:+ "[K" +:+ esc +:+ "[32mClaude:" +:+ esc
            +:+ "[0m " +:+ fullText);
   Writeln EmptyString;
   Write prompt].

(** The tab of a conversation once its reply is complete. *)
Definition completed (fullText messageUuid : string) (t : ChatTab) : ChatTab :=
  terminal_do (completion_notice fullText)
    (set_streamingElement None
       (set_isLoading false (set_parentMessageUuid (JStr messageUuid) t))).

(** A chunk the terminal callback takes for text: anything but a lone
    carriage return, delete or end-of-text character. *)
Definition regular (chunk : string) : bool :=
  negb (String.eqb chunk cr) && negb (String.eqb chunk DEL)
  && negb (String.eqb chunk ETX).

(** The text a sequence of chunks makes. *)
Definition typed (chunks : list string) : string :=
  fold_right append EmptyString chunks.

(** A file as the picker hands it over, with no type known. *)
Definition demo_file : upload.File :=
  {| upload.name := "notes.txt"; upload.size := 12;
     upload.type := EmptyString; upload.data := "hello world" |}.

(** A CLI tab with its terminal open. *)
Definition cli_tab : State :=
  demo_state [set_terminal (Some welcome)
                (set_tabType (JStr "cli") (demo_tab "u1" "CLI 1" JNull JNull))]
             (JStr "u1").

(** ** Markdown with citations *)

(** An argument of [slice] as a position in a text of length [len]. *)
Definition position (len : nat) (k : Z) : nat :=
  if (k <? 0)%Z then Z.to_nat (Z.max (Z.of_nat len + k) 0)
  else Nat.min (Z.to_nat k) len.

(** [text.slice (from, to)], and [text.slice (from)] for [to = None]. *)
Definition slice (from : Z) (to : option Z) (text : string) : string :=
  let len := String.length text in
  let a := position len from in
  let b := match to with Some k => position len k | None => len end in
  substring a (b - a) text.

Module markdown.

(** [Citation]; an index that is missing is [None], one that is there
    is an integer. *)
Record Citation : Type := {
  url : option string;
  title : option string;
  start_index : option Z;
  end_index : option Z
}.

(** [cit.start_index || 0] *)
Definition key (cit : Citation) : Z := default 0%Z (start_index cit).

(** The comparator handed to [sort]; a citation travels with its
    position in [citations], which is what [citations.indexOf (cit)]
    gives back for an array of distinct objects. *)
Definition compare (a b : nat * Citation) : Z := (key (snd b) - key (snd a))%Z.

(** [Array.prototype.sort] is stable; with a comparator that is a
    consistent order, as this one is, a stable insertion sort gives
    the result of the language. *)
Fixpoint insert (x : nat * Citation) (l : list (nat * Citation))
    : list (nat * Citation) :=
  match l with
  | [] => [x]
  | y :: rest => if (0 <? compare x y)%Z then y :: insert x rest else x :: l
  end.

Fixpoint sort (l : list (nat * Citation)) : list (nat * Citation) :=
  match l with
  | [] => []
  | x :: rest => insert x (sort rest)
  end.

(** [(s || '').replace], every double quote becoming [&quot;]. *)
Definition escapeQuotes (s : option string) : string :=
  replaceAll dquote "&quot;" (default EmptyString s).

(** The markup put in place of the cited text. *)
Definition citationLink (citNumber : nat) (cit : Citation) (cited : string) : string :=
  "<a class=" +:+ quote +:+ "citation-link" +:+ quote
  +:+ " href=" +:+ quote +:+ escapeQuotes (url cit) +:+ quote
  +:+ " target=" +:+ quote +:+ "_blank" +:+ quote
  +:+ " title=" +:+ quote +:+ escapeQuotes (title cit) +:+ quote +:+ ">"
  +:+ cited
  +:+ "</a><sup class=" +:+ quote +:+ "citation-num" +:+ quote +:+ ">["
  +:+ numeral citNumber +:+ "]</sup>".

(** The body of the loop over the sorted citations. *)
Definition cite (text : string) (entry : nat * Citation) : string :=
  let (k, cit) := entry in
  match start_index cit, end_index cit with
  | Some s, Some e =>
      slice 0 (Some s) text
      +:+ citationLink (k + 1) cit (slice s (Some e) text)
      +:+ slice e None text
  | _, _ => text
  end.

(** [parseMarkdown t citations] *)
Definition parseMarkdown (marked : string -> string) (t : string)
    (citations : option (list Citation)) : string :=
  if nonempty t then
    marked match citations with
           | Some (c :: cs) => fold_left cite (sort (imap pair (c :: cs))) t
           | _ => t
           end
  else EmptyString.

(** *** Notions used to state its properties *)

(** A citation that lacks an index. *)
Definition unplaced (cit : Citation) : bool :=
  negb (is_some (start_index cit) && is_some (end_index cit)).

(** A citation of a non-empty part of a text of length [len]. *)
Definition placed (len : nat) (cit : Citation) : Prop :=
  exists s e, start_index cit = Some s /\ end_index cit = Some e /\
              (0 <= s < e)%Z /\ (e <= Z.of_nat len)%Z.

(** Two citations of parts that do not overlap. *)
Definition apart (a b : Citation) : Prop :=
  (default 0 (end_index a) <= default 0 (start_index b))%Z \/
  (default 0 (end_index b) <= default 0 (start_index a))%Z.

(** An entry with both indices, in order and within [bound]. *)
Definition within (bound : nat) (x : nat * Citation) : Prop :=
  exists s e, start_index (snd x) = Some s /\ end_index (snd x) = Some e /\
              (0 <= s <= e)%Z /\ Z.to_nat e <= bound.

(** The first ends where the second begins, or before. *)
Definition before (a b : nat * Citation) : Prop :=
  (default 0 (end_index (snd a)) <= default 0 (start_index (snd b)))%Z.

(** The text from [pos] to [stop] in which each of the citations,
    listed from left to right, wraps the part of the text it
    designates. *)
Fixpoint annotate (pos : nat) (l : list (nat * Citation)) (stop : nat)
    (t : string) : string :=
  match l with
  | [] => substring pos (stop - pos) t
  | (k, cit) :: rest =>
      let s := Z.to_nat (default 0%Z (start_index cit)) in
      let e := Z.to_nat (default 0%Z (end_index cit)) in
      substring pos (s - pos) t
      +:+ citationLink (k + 1) cit (substring s (e - s) t)
      +:+ annotate e rest stop t
  end.

End markdown.

(** Two citations, given out of order. *)
Definition demo_citations : list markdown.Citation :=
  [{| markdown.url := Some "https://b.example"; markdown.title := None;
      markdown.start_index := Some 6%Z; markdown.end_index := Some 11%Z |};
   {| markdown.url := Some "https://a.example"; markdown.title := Some "A";
      markdown.start_index := Some 0%Z; markdown.end_index := Some 5%Z |}].

(** * The configuration file of the command-line client *)

Module claudeTypes.

Record ClaudeCookie : Type := {
  name : string;
  value : string;
  domain : string;
  path : string;
  expires : Z
}.

Record ClaudeSession : Type := {
  sessionKey : string;
  orgId : string;
  deviceId : string;
  anonymousId : string;
  cookies : list ClaudeCookie;
  lastUsed : Z
}.

Record ClaudeAccount : Type := {
  accountId : string;
  accountName : string;
  email : option string;
  session : ClaudeSession;
  createdAt : Z
}.

End claudeTypes.

Module googleTypes.

Record GoogleCookie : Type := {
  name : string;
  value : string;
  domain : string;
  path : string;
  expires : Z
}.

Record GoogleSession : Type := {
  accessToken : option string;
  refreshToken : option string;
  cookies : list GoogleCookie;
  lastUsed : Z
}.

Record GoogleAccount : Type := {
  accountId : string;
  accountName : string;
  email : option string;
  session : GoogleSession;
  createdAt : Z
}.

End googleTypes.

Module ConfigStorage.
Import claudeTypes.

(** [StoredConfig]; a property that is missing is [None]. *)
Record StoredConfig : Type := {
  model : option string;
  provider : option string;
  baseUrl : option string;
  mode : option string;
  claudeAccounts : option (list ClaudeAccount);
  activeClaudeAccountId : option string;
  googleAccounts : option (list googleTypes.GoogleAccount);
  activeGoogleAccountId : option string
}.

(** [Partial<StoredConfig>] as an object literal: a property is left
    out ([None]), or given, possibly as [undefined] ([Some None]). *)
Record Partial : Type := {
  set_model : option (option string);
  set_provider : option (option string);
  set_baseUrl : option (option string);
  set_mode : option (option string);
  set_claudeAccounts : option (option (list ClaudeAccount));
  set_activeClaudeAccountId : option (option string);
  set_googleAccounts : option (option (list googleTypes.GoogleAccount));
  set_activeGoogleAccountId : option (option string)
}.

(** What [JSON.parse] makes of the text of the file: an exception, or
    a value, taken to be a [StoredConfig] as the source declares it. *)
Inductive FileContent : Type :=
| Unparsable
| Holds (config : StoredConfig).

(** The directory [~/.zencli] and the file [config.json] in it. *)
Inductive Files : Type :=
| NoDir
| Dir (file : option FileContent).

(** The disk: what is there, and whether creating, writing and
    removing succeed. *)
Record Disk : Type := {
  files : Files;
  writable : bool
}.

(** What an [async] method ends with. *)
Inductive result (A : Type) : Type :=
| Fulfilled (a : A)
| Rejected (message : string).
Arguments Fulfilled {A} a.
Arguments Rejected {A} message.

(** [ensureConfigDir]: [false] stands for the exception of [mkdir]. *)
Definition ensureConfigDir (d : Disk) : bool * Disk :=
  match files d with
  | Dir _ => (true, d)
  | NoDir =>
      if writable d then (true, {| files := Dir None; writable := writable d |})
      else (false, d)
  end.

(** The object [{}]. *)
Definition emptyConfig : StoredConfig :=
  {| model := None; provider := None; baseUrl := None; mode := None;
     claudeAccounts := None; activeClaudeAccountId := None;
     googleAccounts := None; activeGoogleAccountId := None |}.

Definition loadConfig (d : Disk) : StoredConfig * Disk :=
  let (ok, d1) := ensureConfigDir d in
  if ok then
    match files d1 with
    | Dir (Some (Holds config)) => (config, d1)
    | _ => (emptyConfig, d1)
    end
  else (emptyConfig, d1).

(** [saveConfig]: [JSON.stringify] leaves out the properties that are
    [undefined], which is what [None] stands for. *)
Definition saveConfig (config : StoredConfig) (d : Disk) : Disk :=
  let (ok, d1) := ensureConfigDir d in
  if ok && writable d1
  then {| files := Dir (Some (Holds config)); writable := writable d1 |}
  else d1.

(** The spread of a partial config over a config. *)
Definition merge (current : StoredConfig) (partialConfig : Partial) : StoredConfig :=
  {| model := default (model current) (set_model partialConfig);
     provider := default (provider current) (set_provider partialConfig);
     baseUrl := default (baseUrl current) (set_baseUrl partialConfig);
     mode := default (mode current) (set_mode partialConfig);
     claudeAccounts :=
       default (claudeAccounts current) (set_claudeAccounts partialConfig);
     activeClaudeAccountId :=
       default (activeClaudeAccountId current)
               (set_activeClaudeAccountId partialConfig);
     googleAccounts :=
       default (googleAccounts current) (set_googleAccounts partialConfig);
     activeGoogleAccountId :=
       default (activeGoogleAccountId current)
               (set_activeGoogleAccountId partialConfig) |}.

Definition updateConfig (partialConfig : Partial) (d : Disk) : Disk :=
  let (currentConfig, d1) := loadConfig d in
  saveConfig (merge currentConfig partialConfig) d1.

Definition clearConfig (d : Disk) : Disk :=
  match files d with
  | Dir (Some _) =>
      if writable d then {| files := Dir None; writable := writable d |} else d
  | _ => d
  end.

(** The object literal with no property. *)
Definition nothing : Partial :=
  {| set_model := None; set_provider := None; set_baseUrl := None;
     set_mode := None; set_claudeAccounts := None;
     set_activeClaudeAccountId := None; set_googleAccounts := None;
     set_activeGoogleAccountId := None |}.

Definition with_claudeAccounts (accounts : list ClaudeAccount) (p : Partial) : Partial :=
  {| set_model := set_model p; set_provider := set_provider p;
     set_baseUrl := set_baseUrl p; set_mode := set_mode p;
     set_claudeAccounts := Some (Some accounts);
     set_activeClaudeAccountId := set_activeClaudeAccountId p;
     set_googleAccounts := set_googleAccounts p;
     set_activeGoogleAccountId := set_activeGoogleAccountId p |}.

Definition with_activeClaudeAccountId (v : option string) (p : Partial) : Partial :=
  {| set_model := set_model p; set_provider := set_provider p;
     set_baseUrl := set_baseUrl p; set_mode := set_mode p;
     set_claudeAccounts := set_claudeAccounts p;
     set_activeClaudeAccountId := Some v;
     set_googleAccounts := set_googleAccounts p;
     set_activeGoogleAccountId := set_activeGoogleAccountId p |}.

(** [accounts.find ((acc) => acc.accountId === accountId)] *)
Definition findAccount (id : string) (accounts : list ClaudeAccount)
    : option ClaudeAccount :=
  List.find (fun acc => String.eqb (accountId acc) id) accounts.

Definition saveClaudeAccount (account : ClaudeAccount) (d : Disk) : Disk :=
  let (config, d1) := loadConfig d in
  let accounts := default [] (claudeAccounts config) in
  let accounts' :=
    match findIndex (fun acc => String.eqb (accountId acc) (accountId account))
                    accounts with
    | Some existingIndex => <[existingIndex := account]> accounts
    | None => accounts ++ [account]
    end in
  updateConfig (with_claudeAccounts accounts' nothing) d1.

Definition getClaudeAccount (id : string) (d : Disk) : option ClaudeAccount * Disk :=
  let (config, d1) := loadConfig d in
  (findAccount id (default [] (claudeAccounts config)), d1).

Definition listClaudeAccounts (d : Disk) : list ClaudeAccount * Disk :=
  let (config, d1) := loadConfig d in
  (default [] (claudeAccounts config), d1).

Definition removeClaudeAccount (id : string) (d : Disk) : Disk :=
  let (config, d1) := loadConfig d in
  let accounts := default [] (claudeAccounts config) in
  let filteredAccounts :=
    List.filter (fun acc => negb (String.eqb (accountId acc) id)) accounts in
  match activeClaudeAccountId config with
  | Some active =>
      if String.eqb active id
      then updateConfig
             (with_activeClaudeAccountId None
                (with_claudeAccounts filteredAccounts nothing)) d1
      else updateConfig (with_claudeAccounts filteredAccounts nothing) d1
  | None => updateConfig (with_claudeAccounts filteredAccounts nothing) d1
  end.

Definition notFound (id : string) : string := "Account " +:+ id +:+ " not found".

Definition setActiveClaudeAccount (id : string) (d : Disk) : result unit * Disk :=
  let (account, d1) := getClaudeAccount id d in
  match account with
  | None => (Rejected (notFound id), d1)
  | Some _ =>
      (Fulfilled tt, updateConfig (with_activeClaudeAccountId (Some id) nothing) d1)
  end.

Definition getActiveClaudeAccount (d : Disk) : option ClaudeAccount * Disk :=
  let (config, d1) := loadConfig d in
  match activeClaudeAccountId config with
  | Some id => if nonempty id then getClaudeAccount id d1 else (None, d1)
  | None => (None, d1)
  end.

Definition touch (now : Z) (account : ClaudeAccount) : ClaudeAccount :=
  {| accountId := accountId account; accountName := accountName account;
     email := email account;
     session := {| sessionKey := sessionKey (session account);
                   orgId := orgId (session account);
                   deviceId := deviceId (session account);
                   anonymousId := anonymousId (session account);
                   cookies := cookies (session account);
                   lastUsed := now |};
     createdAt := createdAt account |}.

(** [updateAccountLastUsed]; [now] is what [Date.now ()] answers. *)
Definition updateAccountLastUsed (now : Z) (id : string) (d : Disk)
    : result unit * Disk :=
  let (account, d1) := getClaudeAccount id d in
  match account with
  | None => (Rejected (notFound id), d1)
  | Some acc => (Fulfilled tt, saveClaudeAccount (touch now acc) d1)
  end.

(** *** Notions used to state the properties *)

(** The calls that change the Claude accounts. *)
Inductive call : Type :=
| Save (account : ClaudeAccount)
| Remove (id : string)
| SetActive (id : string)
| Touch (now : Z) (id : string)
| Update (partialConfig : Partial)
| Clear.

Definition perform (c : call) (d : Disk) : Disk :=
  match c with
  | Save account => saveClaudeAccount account d
  | Remove id => removeClaudeAccount id d
  | SetActive id => snd (setActiveClaudeAccount id d)
  | Touch now id => snd (updateAccountLastUsed now id d)
  | Update partialConfig => updateConfig partialConfig d
  | Clear => clearConfig d
  end.

Definition ids (config : StoredConfig) : list string :=
  map accountId (default [] (claudeAccounts config)).

(** No two accounts share an id, and the active id, when there is
    one, is the id of an account. *)
Definition consistent (config : StoredConfig) : Prop :=
  List.NoDup (ids config) /\
  forall id, activeClaudeAccountId config = Some id -> In id (ids config).

(** The config the file holds, if it holds one. *)
Definition stored (d : Disk) : option StoredConfig :=
  match files d with
  | Dir (Some (Holds config)) => Some config
  | _ => None
  end.

(** A partial config that leaves the Claude accounts alone. *)
Definition keeps_accounts (p : Partial) : Prop :=
  set_claudeAccounts p = None /\ set_activeClaudeAccountId p = None.

(** The calls of a run: an update is one that leaves the Claude
    accounts alone, as those of the settings commands do. *)
Definition admissible (c : call) : Prop :=
  match c with
  | Update partialConfig => keeps_accounts partialConfig
  | _ => True
  end.

Definition run (calls : list call) (d : Disk) : Disk :=
  fold_left (fun disk c => perform c disk) calls d.

(** The file holds no config, or one that is consistent. *)
Definition sound (d : Disk) : Prop :=
  match stored d with
  | Some config => consistent config
  | None => True
  end.

End ConfigStorage.

Definition demo_session : claudeTypes.ClaudeSession :=
  {| claudeTypes.sessionKey := "sk"; claudeTypes.orgId := "org-1";
     claudeTypes.deviceId := "dev"; claudeTypes.anonymousId := "anon";
     claudeTypes.cookies := []; claudeTypes.lastUsed := 0 |}.

Definition demo_claude (id : string) : claudeTypes.ClaudeAccount :=
  {| claudeTypes.accountId := id; claudeTypes.accountName := "Account";
     claudeTypes.email := None; claudeTypes.session := demo_session;
     claudeTypes.createdAt := 0 |}.

(** A home directory without [.zencli], and one that cannot be
    written to. *)
Definition new_disk : ConfigStorage.Disk :=
  {| ConfigStorage.files := ConfigStorage.NoDir; ConfigStorage.writable := true |}.

Definition readonly_disk : ConfigStorage.Disk :=
  {| ConfigStorage.files := ConfigStorage.NoDir; ConfigStorage.writable := false |}.

(** A file that does not parse. *)
Definition corrupt_disk : ConfigStorage.Disk :=
  {| ConfigStorage.files := ConfigStorage.Dir (Some ConfigStorage.Unparsable);
     ConfigStorage.writable := true |}.

(** * The settings of the command-line client *)

Module CLIUI.

Record CLIConfig : Type := {
  model : string;
  provider : string;
  baseUrl : option string;
  requestsUsed : Z;
  contextUsed : string;
  currentFolder : string;
  mode : string;
  task : string;
  websocketConnected : option bool
}.

(** [Partial<CLIConfig>] as an object literal: a property is left out
    ([None]) or given; one that is optional may be given as
    [undefined]. *)
Record Partial : Type := {
  new_model : option string;
  new_provider : option string;
  new_baseUrl : option (option string);
  new_requestsUsed : option Z;
  new_contextUsed : option string;
  new_currentFolder : option string;
  new_mode : option string;
  new_task : option string;
  new_websocketConnected : option (option bool)
}.

(** The object literal with no property. *)
Definition nothing : Partial :=
  {| new_model := None; new_provider := None; new_baseUrl := None;
     new_requestsUsed := None; new_contextUsed := None;
     new_currentFolder := None; new_mode := None; new_task := None;
     new_websocketConnected := None |}.

(** The spread [{ ...this.config, ...newConfig }]. *)
Definition spread (config : CLIConfig) (newConfig : Partial) : CLIConfig :=
  {| model := default (model config) (new_model newConfig);
     provider := default (provider config) (new_provider newConfig);
     baseUrl := default (baseUrl config) (new_baseUrl newConfig);
     requestsUsed := default (requestsUsed config) (new_requestsUsed newConfig);
     contextUsed := default (contextUsed config) (new_contextUsed newConfig);
     currentFolder := default (currentFolder config) (new_currentFolder newConfig);
     mode := default (mode config) (new_mode newConfig);
     task := default (task config) (new_task newConfig);
     websocketConnected :=
       default (websocketConnected config) (new_websocketConnected newConfig) |}.

(** What [updateConfig] hands to the storage. *)
Definition important (config : CLIConfig) : ConfigStorage.Partial :=
  {| ConfigStorage.set_model := Some (Some (model config));
     ConfigStorage.set_provider := Some (Some (provider config));
     ConfigStorage.set_baseUrl := Some (baseUrl config);
     ConfigStorage.set_mode := Some (Some (mode config));
     ConfigStorage.set_claudeAccounts := None;
     ConfigStorage.set_activeClaudeAccountId := None;
     ConfigStorage.set_googleAccounts := None;
     ConfigStorage.set_activeGoogleAccountId := None |}.

(** [updateConfig] up to its first [await]: the config of the
    instance is assigned at once; the disk is not touched yet. *)
Definition assign (newConfig : Partial)
    (ui : CLIConfig * ConfigStorage.Disk) : CLIConfig * ConfigStorage.Disk :=
  (spread (fst ui) newConfig, snd ui).

(** The rest of [updateConfig], after [await import (...)]: the four
    settings of the instance, read when this part runs, are handed to
    the storage. *)
Definition store (ui : CLIConfig * ConfigStorage.Disk)
    : CLIConfig * ConfigStorage.Disk :=
  (fst ui, ConfigStorage.updateConfig (important (fst ui)) (snd ui)).

(** [await ui.updateConfig (newConfig)]: the config of the instance and
    the disk, before and after, nothing else running in between. *)
Definition updateConfig (newConfig : Partial)
    (ui : CLIConfig * ConfigStorage.Disk) : CLIConfig * ConfigStorage.Disk :=
  store (assign newConfig ui).

(** The folder as [renderStats] shows it. *)
Definition folderPath (config : CLIConfig) : string :=
  if 50 <? String.length (currentFolder config)
  then "..." +:+ slice (-47) None (currentFolder config)
  else currentFolder config.

End CLIUI.

(** ** The commands; what they print is left out. *)
Module commands.

Definition with_model (v : string) (p : CLIUI.Partial) : CLIUI.Partial :=
  {| CLIUI.new_model := Some v; CLIUI.new_provider := CLIUI.new_provider p;
     CLIUI.new_baseUrl := CLIUI.new_baseUrl p;
     CLIUI.new_requestsUsed := CLIUI.new_requestsUsed p;
     CLIUI.new_contextUsed := CLIUI.new_contextUsed p;
     CLIUI.new_currentFolder := CLIUI.new_currentFolder p;
     CLIUI.new_mode := CLIUI.new_mode p; CLIUI.new_task := CLIUI.new_task p;
     CLIUI.new_websocketConnected := CLIUI.new_websocketConnected p |}.

Definition with_provider (v : string) (p : CLIUI.Partial) : CLIUI.Partial :=
  {| CLIUI.new_model := CLIUI.new_model p; CLIUI.new_provider := Some v;
     CLIUI.new_baseUrl := CLIUI.new_baseUrl p;
     CLIUI.new_requestsUsed := CLIUI.new_requestsUsed p;
     CLIUI.new_contextUsed := CLIUI.new_contextUsed p;
     CLIUI.new_currentFolder := CLIUI.new_currentFolder p;
     CLIUI.new_mode := CLIUI.new_mode p; CLIUI.new_task := CLIUI.new_task p;
     CLIUI.new_websocketConnected := CLIUI.new_websocketConnected p |}.

Definition with_mode (v : string) (p : CLIUI.Partial) : CLIUI.Partial :=
  {| CLIUI.new_model := CLIUI.new_model p; CLIUI.new_provider := CLIUI.new_provider p;
     CLIUI.new_baseUrl := CLIUI.new_baseUrl p;
     CLIUI.new_requestsUsed := CLIUI.new_requestsUsed p;
     CLIUI.new_contextUsed := CLIUI.new_contextUsed p;
     CLIUI.new_currentFolder := CLIUI.new_currentFolder p;
     CLIUI.new_mode := Some v; CLIUI.new_task := CLIUI.new_task p;
     CLIUI.new_websocketConnected := CLIUI.new_websocketConnected p |}.

Definition with_task (v : string) (p : CLIUI.Partial) : CLIUI.Partial :=
  {| CLIUI.new_model := CLIUI.new_model p; CLIUI.new_provider := CLIUI.new_provider p;
     CLIUI.new_baseUrl := CLIUI.new_baseUrl p;
     CLIUI.new_requestsUsed := CLIUI.new_requestsUsed p;
     CLIUI.new_contextUsed := CLIUI.new_contextUsed p;
     CLIUI.new_currentFolder := CLIUI.new_currentFolder p;
     CLIUI.new_mode := CLIUI.new_mode p; CLIUI.new_task := Some v;
     CLIUI.new_websocketConnected := CLIUI.new_websocketConnected p |}.

Definition with_baseUrl (v : option string) (p : CLIUI.Partial) : CLIUI.Partial :=
  {| CLIUI.new_model := CLIUI.new_model p; CLIUI.new_provider := CLIUI.new_provider p;
     CLIUI.new_baseUrl := Some v;
     CLIUI.new_requestsUsed := CLIUI.new_requestsUsed p;
     CLIUI.new_contextUsed := CLIUI.new_contextUsed p;
     CLIUI.new_currentFolder := CLIUI.new_currentFolder p;
     CLIUI.new_mode := CLIUI.new_mode p; CLIUI.new_task := CLIUI.new_task p;
     CLIUI.new_websocketConnected := CLIUI.new_websocketConnected p |}.

(** The action of [model <model-name>]. *)
Definition model (modelName : string) (ui : CLIUI.CLIConfig * ConfigStorage.Disk)
    : CLIUI.CLIConfig * ConfigStorage.Disk :=
  CLIUI.updateConfig (with_model modelName CLIUI.nothing) ui.

Definition modes : list string := ["interactive"; "auto"; "debug"].

(** The action of [mode <mode-type>]. *)
Definition mode (modeType : string) (ui : CLIUI.CLIConfig * ConfigStorage.Disk)
    : CLIUI.CLIConfig * ConfigStorage.Disk :=
  if existsb (String.eqb modeType) modes
  then CLIUI.updateConfig (with_mode modeType CLIUI.nothing) ui
  else ui.

(** The action of [task <task-description>]. *)
Definition task (taskDescription : string) (ui : CLIUI.CLIConfig * ConfigStorage.Disk)
    : CLIUI.CLIConfig * ConfigStorage.Disk :=
  CLIUI.updateConfig (with_task taskDescription CLIUI.nothing) ui.

(** [changeModel]; [answer] is the model picked from the list and
    [customModel] what is typed when the pick is [custom]. *)
Definition changeModel (answer customModel : string)
    (ui : CLIUI.CLIConfig * ConfigStorage.Disk)
    : CLIUI.CLIConfig * ConfigStorage.Disk :=
  if String.eqb answer "custom"
  then CLIUI.updateConfig (with_model customModel CLIUI.nothing) ui
  else CLIUI.updateConfig (with_model answer CLIUI.nothing) ui.

(** [changeProvider]; [answer] is the provider picked from the list.
    The call of [ui.updateConfig] is not awaited: when the function
    goes on to report the change, the config of the client has been
    assigned and the write to the file is left to be done
    ([CLIUI.store], in the state the client and the disk are in when it
    runs). *)
Definition changeProvider (answer : string)
    (ui : CLIUI.CLIConfig * ConfigStorage.Disk)
    : CLIUI.CLIConfig * ConfigStorage.Disk :=
  CLIUI.assign (with_provider answer CLIUI.nothing) ui.

(** [setBaseUrl]; [answer] is what was typed. *)
Definition setBaseUrl (answer : string) (ui : CLIUI.CLIConfig * ConfigStorage.Disk)
    : CLIUI.CLIConfig * ConfigStorage.Disk :=
  let baseUrl := trim answer in
  CLIUI.updateConfig
    (with_baseUrl (if nonempty baseUrl then Some baseUrl else None) CLIUI.nothing) ui.

(** *** Notions used to state the properties *)

Inductive command : Type :=
| Model (modelName : string)
| Mode (modeType : string)
| Task (taskDescription : string)
| ChangeModel (answer customModel : string)
| ChangeProvider (answer : string)
| SetBaseUrl (answer : string).

(** What a command has done when it reports its outcome, no write of
    an earlier command being in flight. *)
Definition execute (c : command) (ui : CLIUI.CLIConfig * ConfigStorage.Disk)
    : CLIUI.CLIConfig * ConfigStorage.Disk :=
  match c with
  | Model modelName => model modelName ui
  | Mode modeType => mode modeType ui
  | Task taskDescription => task taskDescription ui
  | ChangeModel answer customModel => changeModel answer customModel ui
  | ChangeProvider answer => changeProvider answer ui
  | SetBaseUrl answer => setBaseUrl answer ui
  end.

(** The commands that wait for their write to the file. *)
Definition awaited (c : command) : bool :=
  match c with
  | ChangeProvider _ => false
  | _ => true
  end.

(** The settings in the file are those of the running client. *)
Definition in_step (ui : CLIUI.CLIConfig * ConfigStorage.Disk) : Prop :=
  exists config,
    ConfigStorage.stored (snd ui) = Some config /\
    ConfigStorage.model config = Some (CLIUI.model (fst ui)) /\
    ConfigStorage.provider config = Some (CLIUI.provider (fst ui)) /\
    ConfigStorage.baseUrl config = CLIUI.baseUrl (fst ui) /\
    ConfigStorage.mode config = Some (CLIUI.mode (fst ui)).

(** The accounts the file holds. *)
Definition accounts (d : ConfigStorage.Disk)
    : option (list claudeTypes.ClaudeAccount) * option string
      * option (list googleTypes.GoogleAccount) * option string :=
  let config := default ConfigStorage.emptyConfig (ConfigStorage.stored d) in
  (ConfigStorage.claudeAccounts config, ConfigStorage.activeClaudeAccountId config,
   ConfigStorage.googleAccounts config, ConfigStorage.activeGoogleAccountId config).

End commands.

Definition demo_cli : CLIUI.CLIConfig :=
  {| CLIUI.model := "gpt-4"; CLIUI.provider := "LiteLLM";
     CLIUI.baseUrl := Some "http://localhost:4000"; CLIUI.requestsUsed := 0;
     CLIUI.contextUsed := "0%";
     CLIUI.currentFolder := "/home/user/projects/open-claude/packages/renderer/src";
     CLIUI.mode := "interactive"; CLIUI.task := EmptyString;
     CLIUI.websocketConnected := None |}.

(** * The earlier renderer *)

(** The renderer as it was before tabs had a type: a tab had a display
    mode, which [saveTabs] wrote under the key [displayMode]. *)
Module legacy.

Record ChatTab : Type := {
  tab_id : jsval;
  tab_name : jsval;
  accountId : jsval;
  conversationId : jsval;
  parentMessageUuid : jsval;
  model : jsval;
  messages : list nat;
  isLoading : bool;
  streamingElement : option nat;
  pendingAttachments : list UploadedAttachment;
  displayMode : jsval;
  terminal : option CLITerminal
}.

Definition tabData (t : ChatTab) : jsval :=
  JObj [("id", tab_id t); ("name", tab_name t); ("accountId", accountId t);
        ("conversationId", conversationId t);
        ("parentMessageUuid", parentMessageUuid t);
        ("model", model t); ("displayMode", displayMode t)].

(** [saveTabs], as a function of the registry. *)
Definition saveTabs (tabs : list ChatTab) (activeTabId : jsval) : Storage :=
  {| chatTabs := Some (Json (jsonify (JArr (map tabData tabs))));
     activeTabKey := Some (ToString (js_or activeTabId (JStr EmptyString))) |}.

(** *** Notions used to state the properties *)

(** A tab whose durable fields have the types the earlier [ChatTab]
    declares. *)
Definition well_typed (t : ChatTab) : bool :=
  is_string (tab_id t) && is_string (tab_name t) && is_string (accountId t)
  && string_or_null (conversationId t) && string_or_null (parentMessageUuid t)
  && is_string (model t)
  && (strict_eq (displayMode t) (JStr "gui") || strict_eq (displayMode t) (JStr "cli")).

End legacy.



(** * Properties *)

(** ** Basic facts *)

Lemma strict_eq_JStr v s : strict_eq v (JStr s) = true -> v = JStr s.
Proof.
  destruct v; simpl; try discriminate.
  intros H. apply String.eqb_eq in H. now subst.
Qed.

Lemma findIndex_Some {A} (p : A -> bool) l i :
  findIndex p l = Some i ->
  exists x, l !! i = Some x /\ p x = true /\
            forall j y, j < i -> l !! j = Some y -> p y = false.
Proof.
  revert i. induction l as [|a l IH]; intros i; simpl; [discriminate|].
  destruct (p a) eqn:Hp.
  - intros [= <-]. exists a. repeat split; auto. intros j y Hj. lia.
  - destruct (findIndex p l) as [k|]; simpl; [|discriminate].
    intros [= <-]. destruct (IH k eq_refl) as (x & Hx & Hpx & Hmin).
    exists x. repeat split; auto.
    intros [|j] y Hj Hy; simpl in Hy.
    + now inversion Hy; subst.
    + apply (Hmin j); [lia|exact Hy].
Qed.

Lemma findIndex_ext {A} (p q : A -> bool) (f : A -> A) l :
  (forall x, q (f x) = p x) -> findIndex q (map f l) = findIndex p l.
Proof.
  intros H. induction l as [|a l IH]; simpl; [reflexivity|].
  rewrite H, IH. reflexivity.
Qed.

Lemma findIndex_alter {A} (p : A -> bool) (f : A -> A) i l :
  (forall x, p (f x) = p x) -> findIndex p (alter f i l) = findIndex p l.
Proof.
  intros H. revert i. induction l as [|a l IH]; intros [|i]; cbn; auto.
  - now rewrite H.
  - now rewrite IH.
Qed.

Lemma forget_alter_terminal c i l :
  map forget_terminal (alter (set_terminal c) i l) = map forget_terminal l.
Proof.
  revert i. induction l as [|a l IH]; intros [|i]; cbn; auto.
  now rewrite IH.
Qed.

Lemma initializeTerminal_forget i st :
  map forget_terminal (tabs (initializeTerminal i st)) = map forget_terminal (tabs st).
Proof.
  unfold initializeTerminal. destruct (terminalContainer (page st)); [|reflexivity].
  apply forget_alter_terminal.
Qed.

Lemma initializeTerminal_rest i st :
  activeTabId (initializeTerminal i st) = activeTabId st /\
  modalVisible (initializeTerminal i st) = modalVisible st /\
  page (initializeTerminal i st) = page st /\
  nodes (initializeTerminal i st) = nodes st /\
  selectedAccountForNewTab (initializeTerminal i st) = selectedAccountForNewTab st.
Proof.
  unfold initializeTerminal. destruct (terminalContainer (page st)); auto.
Qed.

Lemma renderActiveTab_forget st :
  map forget_terminal (tabs (renderActiveTab st)) = map forget_terminal (tabs st).
Proof.
  unfold renderActiveTab.
  destruct (negb _); [reflexivity|].
  destruct (getActiveTab st) as [i|]; [|reflexivity].
  destruct (tabs st !! i) as [tab|]; [|reflexivity].
  destruct (strict_eq _ _); [|reflexivity].
  destruct (terminal tab); [reflexivity|].
  apply initializeTerminal_forget.
Qed.

Lemma renderActiveTab_rest st :
  activeTabId (renderActiveTab st) = activeTabId st /\
  modalVisible (renderActiveTab st) = modalVisible st /\
  page (renderActiveTab st) = page st /\
  nodes (renderActiveTab st) = nodes st /\
  selectedAccountForNewTab (renderActiveTab st) = selectedAccountForNewTab st.
Proof.
  unfold renderActiveTab.
  destruct (negb _); [auto|].
  destruct (getActiveTab st) as [i|]; [|auto].
  destruct (tabs st !! i) as [tab|]; [|auto].
  destruct (strict_eq _ _); [|auto].
  destruct (terminal tab); [auto|].
  apply initializeTerminal_rest.
Qed.

Lemma renderTabs_state st : snd (renderTabs st) = st.
Proof.
  unfold renderTabs. destruct (tabsContainer (page st)); [|reflexivity].
  generalize (tabs st). intros l.
  induction l as [|a l IH]; simpl; [reflexivity|].
  unfold bind, lift, ret in *.
  destruct (getAccountColor (accountId a)); simpl; auto.
  destruct (escapeHtml (tab_name a)); simpl; auto.
Qed.

Lemma renderTabs_ok st :
  forallb renderable (tabs st) = true -> renderTabs st = (Normal tt, st).
Proof.
  unfold renderTabs. destruct (tabsContainer (page st)); [|reflexivity].
  generalize (tabs st). intros l.
  induction l as [|a l IH]; simpl; [reflexivity|].
  intros H. apply andb_prop in H as [Ha Hl].
  unfold bind, lift, ret in *. unfold renderable in Ha.
  unfold escapeHtml.
  destruct (accountId a); try discriminate. simpl.
  destruct (js_or (tab_name a) (JStr EmptyString)); try discriminate.
  auto.
Qed.

Lemma saveTabs_rest st :
  tabs (saveTabs st) = tabs st /\ activeTabId (saveTabs st) = activeTabId st /\
  modalVisible (saveTabs st) = modalVisible st /\ page (saveTabs st) = page st /\
  nodes (saveTabs st) = nodes st /\
  selectedAccountForNewTab (saveTabs st) = selectedAccountForNewTab st.
Proof. unfold saveTabs. simpl. auto 10. Qed.

Lemma rerender_state st :
  let st' := snd (rerender st) in
  map forget_terminal (tabs st') = map forget_terminal (tabs st) /\
  activeTabId st' = activeTabId st /\
  modalVisible st' = modalVisible st /\
  page st' = page st /\
  nodes st' = nodes st /\
  selectedAccountForNewTab st' = selectedAccountForNewTab st.
Proof.
  unfold rerender, bind, modify.
  pose proof (renderTabs_state st) as Hs.
  destruct (renderTabs st) as [[[]|e] s]; simpl in *; subst s; auto 10.
  destruct (renderActiveTab_rest st) as (? & ? & ? & ? & ?).
  pose proof (renderActiveTab_forget st). auto 10.
Qed.

Lemma closeTab_neighbour_exists {A} (l : list A) i :
  2 <= length l -> i < length l ->
  delete i l !! Nat.max 0 (i - 1) = l !! (if i =? 0 then 1 else i - 1) /\
  is_Some (l !! (if i =? 0 then 1 else i - 1)).
Proof.
  intros Hl Hi. destruct i as [|i]; simpl.
  - split.
    + destruct l; reflexivity.
    + apply lookup_lt_is_Some. lia.
  - rewrite Nat.sub_0_r. split.
    + apply list_lookup_delete_lt. lia.
    + apply lookup_lt_is_Some. lia.
Qed.

Lemma closeTab_state (tabId : string) (st : State) i :
  2 <= length (tabs st) ->
  findIndex (fun t => strict_eq (tab_id t) (JStr tabId)) (tabs st) = Some i ->
  exists st1 t,
    snd (closeTab tabId st) = snd (rerender st1) /\
    tabs st1 = delete i (tabs st) /\
    tabs st !! (if i =? 0 then 1 else i - 1) = Some t /\
    activeTabId st1 =
      (if strict_eq (activeTabId st) (JStr tabId) then tab_id t
       else activeTabId st) /\
    modalVisible st1 = modalVisible st /\
    page st1 = page st.
Proof.
  intros Hlen Hfind.
  destruct (findIndex_Some _ _ _ Hfind) as (x & Hx & _ & _).
  apply lookup_lt_Some in Hx.
  destruct (closeTab_neighbour_exists (tabs st) i Hlen Hx) as [Hnb [t Ht]].
  change (Nat.max 0 (i - 1)) with (i - 1) in Hnb.
  unfold closeTab, bind, gets. simpl.
  destruct (length (tabs st) =? 1) eqn:E; [apply Nat.eqb_eq in E; lia|].
  rewrite Hfind. unfold modify at 1. simpl.
  destruct (strict_eq (activeTabId st) (JStr tabId)).
  - rewrite Hnb, Ht. unfold modify at 1. simpl.
    eexists _, t. split; [reflexivity|]. simpl. auto.
  - unfold ret. eexists _, t. split; [reflexivity|]. simpl. auto.
Qed.

(** C4.  [closeTab] on a registry of exactly one tab returns at once and
    changes nothing.  On a registry of two or more tabs it removes the
    (first) tab with the given id; when that tab was the active one, the
    active tab becomes the tab just before it, or, when it was the first
    of the list, the tab that is now first; otherwise the active tab
    stays. *)
Theorem closeTab_correct (tabId : string) (st : State) :
  (length (tabs st) = 1 -> closeTab tabId st = (Normal tt, st)) /\
  (forall i,
     2 <= length (tabs st) ->
     findIndex (fun t => strict_eq (tab_id t) (JStr tabId)) (tabs st) = Some i ->
     let st' := snd (closeTab tabId st) in
     map forget_terminal (tabs st') = map forget_terminal (delete i (tabs st)) /\
     length (tabs st') = length (tabs st) - 1 /\
     (strict_eq (activeTabId st) (JStr tabId) = true ->
      exists t, tabs st !! (if i =? 0 then 1 else i - 1) = Some t /\
                activeTabId st' = tab_id t) /\
     (strict_eq (activeTabId st) (JStr tabId) = false ->
      activeTabId st' = activeTabId st)).
Proof.
  split.
  - intros H. unfold closeTab, bind, gets. rewrite H. reflexivity.
  - intros i Hlen Hfind. cbv zeta.
    destruct (closeTab_state tabId st i Hlen Hfind)
      as (st1 & t & -> & Htabs & Ht & Hact & _).
    destruct (rerender_state st1) as (Hf & Ha & _).
    rewrite Htabs in Hf.
    destruct (findIndex_Some _ _ _ Hfind) as (x & Hx & _ & _).
    repeat split.
    + exact Hf.
    + apply (f_equal (@length _)) in Hf. rewrite !length_map in Hf.
      rewrite Hf, length_delete; [lia|]. now exists x.
    + intros Heq. exists t. split; [exact Ht|]. rewrite Ha, Hact, Heq. reflexivity.
    + intros Hne. rewrite Ha, Hact, Hne. reflexivity.
Qed.

(** ** The capacity gate *)

Lemma renderable_forget l :
  forallb renderable (map forget_terminal l) = forallb renderable l.
Proof. induction l as [|a l IH]; simpl; [reflexivity|]. now rewrite IH. Qed.

Lemma forget_same_renderable l l' :
  map forget_terminal l' = map forget_terminal l ->
  forallb renderable l' = forallb renderable l.
Proof. intros H. rewrite <- (renderable_forget l'), H. apply renderable_forget. Qed.

Lemma forget_same_length l l' :
  map forget_terminal l' = map forget_terminal l -> length l' = length l.
Proof. intros H. apply (f_equal (@length _)) in H. now rewrite !length_map in H. Qed.

Lemma createTab_ok uuid account name type st :
  forallb renderable (tabs st) = true ->
  exists st1 tab,
    createTab uuid account name type st = (Normal tt, saveTabs (renderActiveTab st1)) /\
    map forget_terminal (tabs st1) = map forget_terminal (tabs st ++ [tab]) /\
    renderable tab = true /\
    tab_id tab = JStr uuid /\
    activeTabId st1 = JStr uuid /\
    modalVisible st1 = modalVisible st /\
    page st1 = page st.
Proof.
  intros Hr. unfold createTab, bind, gets, modify. simpl.
  set (tab := {| tab_id := JStr uuid; tab_name := _ |}).
  set (st0 := set_activeTabId (JStr uuid) (set_tabs (tabs st ++ [tab]) st)).
  set (st1 := if String.eqb type "cli" then initializeTerminal (length (tabs st)) st0 else st0).
  assert (Hf : map forget_terminal (tabs st1) = map forget_terminal (tabs st ++ [tab])).
  { subst st1. destruct (String.eqb type "cli"); [|reflexivity].
    now rewrite initializeTerminal_forget. }
  assert (Htab : renderable tab = true).
  { unfold renderable, tab. simpl. unfold js_or.
    destruct name as [[|c s]|]; simpl;
      destruct (String.eqb type "cli"); reflexivity. }
  assert (Hrest : activeTabId st1 = JStr uuid /\ modalVisible st1 = modalVisible st /\
                  page st1 = page st).
  { subst st1. destruct (String.eqb type "cli"); [|simpl; auto].
    destruct (initializeTerminal_rest (length (tabs st)) st0) as (-> & -> & -> & _).
    simpl. auto. }
  exists st1, tab. split; [|tauto].
  rewrite renderTabs_ok; [reflexivity|].
  rewrite (forget_same_renderable _ _ Hf), forallb_app, Hr. simpl. now rewrite Htab.
Qed.

Lemma switchTab_state tabId st :
  snd (switchTab tabId st) = st \/
  snd (switchTab tabId st) = snd (rerender (set_activeTabId (JStr tabId) st)).
Proof.
  unfold switchTab, bind, gets. simpl.
  destruct (strict_eq _ _); [now left|].
  destruct (findIndex _ _); [|now left].
  right. reflexivity.
Qed.

Ltac inv_easy :=
  unfold gate_inv; simpl; intuition (try lia; try discriminate; auto).

Lemma gate_inv_step e st :
  gate_inv st -> clickable e st = true -> gate_inv (snd (handle e st)).
Proof.
  intros (Hlen & Hr & Hm) Hc. destruct e; simpl in *.
  - (* new tab *)
    unfold onNewTabClick, canCreateNewTab.
    destruct (length (tabs st) <? MAX_TABS) eqn:E; [|inv_easy].
    apply Nat.ltb_lt in E. unfold showAccountSelectModal. simpl.
    destruct (accountSelectModal (page st)) eqn:Em; inv_easy.
  - unfold onAccountOptionClick. destruct (nonempty account); inv_easy.
  - inv_easy.
  - unfold hideAccountSelectModal.
    destruct (Hm Hc) as [_ ->]. inv_easy.
  - (* confirm *)
    destruct (Hm Hc) as [Hlt Hmodal].
    unfold onAddAccountForTabClick, bind, gets. simpl.
    destruct (selectedAccountForNewTab st) as [account|]; [|inv_easy].
    destruct (nonempty account); [|inv_easy].
    destruct (createTab_ok uuid account None (selectedTabType st) st Hr)
      as (st1 & tab & -> & Hf & Htab & _ & _ & Hv & Hp).
    unfold modify, hideAccountSelectModal. simpl.
    destruct (saveTabs_rest (renderActiveTab st1)) as (Ht & _ & _ & Hp' & _).
    destruct (renderActiveTab_rest st1) as (_ & _ & Hp'' & _).
    pose proof (renderActiveTab_forget st1) as Hf'.
    rewrite Hp'', Hp, Hmodal. unfold gate_inv. simpl.
    rewrite Hf in Hf'.
    repeat split.
    + rewrite (forget_same_length _ _ Hf'), length_app. simpl. lia.
    + rewrite (forget_same_renderable _ _ Hf'), forallb_app, Hr. simpl. now rewrite Htab.
    + discriminate.
    + discriminate.
  - (* switch *)
    destruct (switchTab_state tabId st) as [-> | ->]; [inv_easy|].
    set (st1 := set_activeTabId (JStr tabId) st).
    destruct (rerender_state st1) as (Hf & _ & Hv & Hp & _).
    change (tabs st1) with (tabs st) in Hf.
    unfold gate_inv. rewrite Hv, Hp.
    rewrite (forget_same_length _ _ Hf), (forget_same_renderable _ _ Hf).
    simpl. auto.
  - (* close *)
    destruct (length (tabs st) =? 1) eqn:E1.
    { unfold closeTab, bind, gets. rewrite E1. inv_easy. }
    destruct (findIndex (fun t => strict_eq (tab_id t) (JStr tabId)) (tabs st))
      as [i|] eqn:Hfind.
    2:{ unfold closeTab, bind, gets. rewrite E1, Hfind. inv_easy. }
    destruct (findIndex_Some _ _ _ Hfind) as (x & Hx & _ & _).
    apply Nat.eqb_neq in E1.
    assert (Hlen2 : 2 <= length (tabs st)).
    { apply lookup_lt_Some in Hx. lia. }
    destruct (closeTab_state tabId st i Hlen2 Hfind)
      as (st1 & t & -> & Htabs & _ & _ & Hv & Hp).
    destruct (rerender_state st1) as (Hf & _ & Hv' & Hp' & _).
    rewrite Htabs in Hf.
    assert (Hd : length (delete i (tabs st)) = length (tabs st) - 1).
    { rewrite length_delete; [lia|]. now exists x. }
    unfold gate_inv. rewrite Hv', Hp', Hv, Hp.
    rewrite (forget_same_length _ _ Hf), (forget_same_renderable _ _ Hf), Hd.
    repeat split.
    + lia.
    + rewrite forallb_forall in Hr. apply forallb_forall. intros y Hy.
      apply Hr. apply list_elem_of_In. apply list_elem_of_In in Hy.
      eapply list_elem_of_delete_inv; eauto.
    + destruct (Hm H). lia.
    + now destruct (Hm H).
Qed.

Lemma gate_inv_run es : forall st st',
  gate_inv st -> run_ui es st = Some st' -> gate_inv st'.
Proof.
  induction es as [|e es IH]; intros st st' Hinv; simpl.
  - now intros [= <-].
  - destruct (clickable e st) eqn:Hc; [|discriminate].
    apply IH. now apply gate_inv_step.
Qed.

(** C1 (as amended).  The capacity check is not in [createTab] but in
    the click handler of the new-tab button: with [MAX_TABS] tabs open
    that handler changes nothing, the dialogue from which [createTab] is
    called never opens, and along every sequence of clicks that starts
    with at most [MAX_TABS] tabs (all of which [renderTabs] can draw)
    and the dialogue closed, the number of tabs never exceeds
    [MAX_TABS]. *)
Theorem create_gated_by_new_tab_button :
  (forall st, length (tabs st) = MAX_TABS -> onNewTabClick st = st) /\
  (forall es st st',
     length (tabs st) <= MAX_TABS ->
     forallb renderable (tabs st) = true ->
     modalVisible st = false ->
     run_ui es st = Some st' ->
     length (tabs st') <= MAX_TABS).
Proof.
  split.
  - intros st H. unfold onNewTabClick, canCreateNewTab. rewrite H. reflexivity.
  - intros es st st' Hlen Hr Hm Hrun.
    apply (gate_inv_run es st st'); [|exact Hrun].
    repeat split; auto; rewrite Hm in *; discriminate.
Qed.

(** ** The stream handler *)

Lemma terminal_do_fields ops t :
  conversationId (terminal_do ops t) = conversationId t /\
  streamingElement (terminal_do ops t) = streamingElement t /\
  tab_id (terminal_do ops t) = tab_id t /\
  pendingAttachments (terminal_do ops t) = pendingAttachments t.
Proof. unfold terminal_do. destruct (terminal t); auto. Qed.

Lemma update_tab_lookup i f st :
  tabs (update_tab i f st) !! i = f <$> tabs st !! i.
Proof. unfold update_tab. simpl. apply list_lookup_alter_eq. Qed.

Section Stream.
Variable marked : string -> string.

Lemma onMessageStream_step st conv i el text :
  streaming_at st conv i el ->
  let st' := onMessageStream marked conv text st in
  streaming_at st' conv i el /\
  (innerHTML <$> nodes st' !! el) = Some (parseMarkdown marked text) /\
  (forall j, j <> el -> nodes st' !! j = nodes st !! j).
Proof.
  intros (Hfind & Hel & Hlt). cbv zeta.
  unfold onMessageStream. rewrite Hfind.
  destruct (tabs st !! i) as [tab|] eqn:Htab; [|discriminate].
  simpl in Hel. injection Hel as Hel. rewrite Hel.
  assert (Hnode : (innerHTML <$>
                     alter (fun e => {| role := role e;
                                        innerHTML := parseMarkdown marked text |})
                       el (nodes st) !! el) = Some (parseMarkdown marked text)).
  { rewrite list_lookup_alter_eq.
    destruct (lookup_lt_is_Some_2 _ _ Hlt) as [e ->]. reflexivity. }
  assert (Hother : forall j, j <> el ->
             alter (fun e => {| role := role e;
                                innerHTML := parseMarkdown marked text |})
               el (nodes st) !! j = nodes st !! j).
  { intros j Hj. apply list_lookup_alter_ne. congruence. }
  destruct (strict_eq (tab_id tab) (activeTabId st)).
  - unfold streaming_at. simpl. repeat split; auto.
    + rewrite findIndex_alter; [exact Hfind|].
      intros x. now rewrite (proj1 (terminal_do_fields _ x)).
    + rewrite list_lookup_alter_eq, Htab. simpl.
      now rewrite (proj1 (proj2 (terminal_do_fields _ tab))), Hel.
    + now rewrite length_alter.
  - unfold streaming_at. simpl. repeat split; auto.
    + now rewrite Htab; simpl; rewrite Hel.
    + now rewrite length_alter.
Qed.

Lemma deliver_streaming conv i el texts : forall st,
  streaming_at st conv i el -> streaming_at (deliver marked conv texts st) conv i el.
Proof.
  induction texts as [|t texts IH]; intros st H; simpl; [exact H|].
  apply IH. now apply onMessageStream_step.
Qed.

Lemma deliver_app conv l1 l2 st :
  deliver marked conv (l1 ++ l2) st = deliver marked conv l2 (deliver marked conv l1 st).
Proof. unfold deliver. apply fold_left_app. Qed.

(** C6.  While a tab has a send in flight, every stream event of its
    conversation sets the markup of the placeholder to the rendering
    of the text the event carries, whatever was there before and
    leaving every other node alone; after any sequence of events the
    placeholder shows the rendering of the text received last, so
    after [H], [He], [Hel] it shows the rendering of [Hel]. *)
Theorem stream_replaces_last_write_wins st conv i el :
  streaming_at st conv i el ->
  (forall text,
     (innerHTML <$> nodes (onMessageStream marked conv text st) !! el)
     = Some (parseMarkdown marked text) /\
     forall j, j <> el ->
       nodes (onMessageStream marked conv text st) !! j = nodes st !! j) /\
  (forall texts last,
     (innerHTML <$> nodes (deliver marked conv (texts ++ [last]) st) !! el)
     = Some (parseMarkdown marked last)) /\
  (innerHTML <$> nodes (deliver marked conv ["H"; "He"; "Hel"] st) !! el)
  = Some (marked "Hel").
Proof.
  intros H.
  assert (Hlast : forall texts last,
             (innerHTML <$> nodes (deliver marked conv (texts ++ [last]) st) !! el)
             = Some (parseMarkdown marked last)).
  { intros texts last. rewrite deliver_app. simpl.
    apply (onMessageStream_step (deliver marked conv texts st) conv i el last).
    now apply deliver_streaming. }
  repeat split.
  - now apply (onMessageStream_step st conv i el text).
  - now apply (onMessageStream_step st conv i el text).
  - exact Hlast.
  - exact (Hlast ["H"; "He"] "Hel").
Qed.

(** C10.  A stream event whose conversation belongs to no tab, or only
    to tabs without a streaming element, changes nothing at all. *)
Theorem stream_event_without_receiver_dropped st conv text :
  forallb (fun t => negb (strict_eq (conversationId t) (JStr conv))
                    || negb (is_some (streamingElement t))) (tabs st) = true ->
  onMessageStream marked conv text st = st.
Proof.
  intros H. unfold onMessageStream.
  destruct (findIndex _ _) as [i|] eqn:Hfind; [|reflexivity].
  destruct (findIndex_Some _ _ _ Hfind) as (x & Hx & Hp & _).
  rewrite Hx.
  rewrite forallb_forall in H.
  specialize (H x). rewrite Hp in H. simpl in H.
  destruct (streamingElement x); [|reflexivity].
  simpl in H. discriminate H.
  apply list_elem_of_In. eapply list_elem_of_lookup_2. exact Hx.
Qed.

(** ** Sending *)

(** C8.  When the active tab has no conversation yet and the bridge
    fails to create one, [sendMessage] returns without sending
    anything and leaves the whole state as it was: no message node,
    no placeholder, [isLoading] still false, [conversationId] and
    [parentMessageUuid] still null, the input text still there. *)
Theorem send_aborted_when_conversation_fails br st i tab reason :
  getActiveTab st = Some i ->
  tabs st !! i = Some tab ->
  conversationId tab = JNull ->
  claude.createConversation br (model tab) = Reject reason ->
  sendMessage marked br st = (None, st).
Proof.
  intros Hact Htab Hconv Hrej.
  unfold sendMessage, sendMessage_begin. rewrite Hact.
  destruct (inputValue (page st)) as [value|]; [|reflexivity].
  rewrite Htab. destruct (negb (nonempty (trim value))); [reflexivity|].
  rewrite Hconv. simpl. rewrite Hrej. reflexivity.
Qed.

End Stream.

Lemma getActiveTab_update_tab i f st :
  (forall t, tab_id (f t) = tab_id t) ->
  getActiveTab (update_tab i f st) = getActiveTab st.
Proof.
  intros H. unfold getActiveTab, update_tab. simpl.
  apply findIndex_alter. intros x. now rewrite H.
Qed.

Section Send.
Variable marked : string -> string.

(** [addMessage] seen from the tab that is active. *)
Lemma addMessage_active r content raw st i :
  getActiveTab st = Some i ->
  let st' := snd (addMessage marked r content raw st) in
  fst (addMessage marked r content raw st) = length (nodes st) /\
  getActiveTab st' = Some i /\
  tabs st' = alter (fun t => set_messages (messages t ++ [length (nodes st)]) t) i (tabs st) /\
  page st' = page st /\
  activeTabId st' = activeTabId st /\
  length (nodes st') = S (length (nodes st)).
Proof.
  intros Hact. cbv zeta. unfold addMessage.
  change (getActiveTab (set_nodes _ st)) with (getActiveTab st).
  rewrite Hact. simpl. repeat split; auto.
  - rewrite getActiveTab_update_tab; [|reflexivity]. exact Hact.
  - rewrite length_app. simpl. lia.
Qed.

Lemma sendMessage_begin_sends br st i tab value :
  getActiveTab st = Some i ->
  tabs st !! i = Some tab ->
  inputValue (page st) = Some value ->
  nonempty (trim value) = true ->
  (truthy (conversationId tab) = true \/
   exists c p, claude.createConversation br (model tab) = Resolve (c, p)) ->
  exists out st1 tab1 el,
    sendMessage_begin marked br st = (Some (i, out), st1) /\
    out_attachments out = map payload (pendingAttachments tab) /\
    out_message out = trim value /\
    tabs st1 !! i = Some tab1 /\
    pendingAttachments tab1 = [] /\
    isLoading tab1 = true /\
    streamingElement tab1 = Some el /\
    el < length (nodes st1) /\
    (innerHTML <$> nodes st1 !! el) = Some EmptyString.
Proof.
  intros Hact Htab Hin Hmsg Hconv.
  unfold sendMessage_begin. rewrite Hact, Hin, Htab, Hmsg. simpl.
  set (created := if truthy (conversationId tab) then Some st else _).
  assert (Hc : exists st0 tab0,
             created = Some st0 /\ getActiveTab st0 = Some i /\
             tabs st0 !! i = Some tab0 /\
             pendingAttachments tab0 = pendingAttachments tab).
  { subst created. destruct (truthy (conversationId tab)).
    - exists st, tab. auto.
    - destruct Hconv as [? | (c & p & ->)]; [discriminate|].
      eexists _, _. split; [reflexivity|]. split.
      + rewrite getActiveTab_update_tab; [exact Hact|reflexivity].
      + rewrite update_tab_lookup, Htab. simpl. split; reflexivity. }
  destruct Hc as (st0 & tab0 & -> & Hact0 & Htab0 & Hpend0).
  destruct (addMessage_active user (trim value) false st0 i Hact0)
    as (_ & Hact2 & Htabs2 & _ & _ & _).
  set (st2 := snd (addMessage marked user (trim value) false st0)) in *.
  assert (Htab2 : tabs st2 !! i =
                  Some (set_messages (messages tab0 ++ [length (nodes st0)]) tab0)).
  { rewrite Htabs2, list_lookup_alter_eq, Htab0. reflexivity. }
  rewrite Htab2.
  set (st4 := update_tab i (set_pendingAttachments []) (set_inputValue (Some EmptyString) st2)).
  assert (Hact4 : getActiveTab st4 = Some i).
  { subst st4. rewrite getActiveTab_update_tab; [exact Hact2|reflexivity]. }
  assert (Htab4 : tabs st4 !! i =
                  Some (set_pendingAttachments []
                          (set_messages (messages tab0 ++ [length (nodes st0)]) tab0))).
  { subst st4. rewrite update_tab_lookup. simpl. rewrite Htab2. reflexivity. }
  destruct (addMessage_active assistant EmptyString true st4 i Hact4)
    as (Hel & _ & Htabs5 & _ & _ & Hlen5).
  assert (Hnode : (innerHTML <$> nodes (snd (addMessage marked assistant EmptyString true st4))
                     !! length (nodes st4)) = Some EmptyString).
  { unfold addMessage. change (getActiveTab (set_nodes ?n st4)) with (getActiveTab st4).
    rewrite Hact4. simpl.
    rewrite lookup_app_r by lia. rewrite Nat.sub_diag. reflexivity. }
  destruct (addMessage marked assistant EmptyString true st4) as [el st5] eqn:E5.
  cbn [fst snd] in Hel, Htabs5, Hlen5, Hnode. subst el.
  rewrite list_lookup_alter_eq, Htabs5, list_lookup_alter_eq, Htab4. simpl.
  eexists _, _, _, _. split; [reflexivity|]. simpl.
  rewrite list_lookup_alter_eq, Htabs5, list_lookup_alter_eq, Htab4.
  change (nodes st4) with (nodes st2) in *.
  cbn.
  repeat split; auto.
  - now rewrite Hpend0.
  - unfold update_tab. cbn. lia.
Qed.

Lemma sendMessage_rejected_state i e st tab el :
  tabs st !! i = Some tab ->
  streamingElement tab = Some el ->
  el < length (nodes st) ->
  let st' := sendMessage_rejected i e st in
  tabs st' !! i = Some (set_isLoading false tab) /\
  (innerHTML <$> nodes st' !! el) = Some (errorMarker e).
Proof.
  intros Htab Hel Hlt. cbv zeta. unfold sendMessage_rejected.
  rewrite Htab, Hel. split.
  - rewrite update_tab_lookup. simpl. rewrite Htab. reflexivity.
  - simpl. rewrite list_lookup_alter_eq.
    destruct (lookup_lt_is_Some_2 _ _ Hlt) as [x ->]. reflexivity.
Qed.

(** C9.  When [sendMessage] goes through to the bridge, the message it
    hands over carries the payload of exactly the attachments that
    were pending on the tab, in their order, and the tab's pending
    list is empty from the moment the call is issued on, whether the
    bridge then accepts or rejects the message. *)
Theorem attachments_flushed_on_send br st i tab value :
  getActiveTab st = Some i ->
  tabs st !! i = Some tab ->
  inputValue (page st) = Some value ->
  nonempty (trim value) = true ->
  (truthy (conversationId tab) = true \/
   exists c p, claude.createConversation br (model tab) = Resolve (c, p)) ->
  exists out st1 st',
    sendMessage_begin marked br st = (Some (i, out), st1) /\
    sendMessage marked br st = (Some out, st') /\
    out_attachments out = map payload (pendingAttachments tab) /\
    (pendingAttachments <$> tabs st1 !! i) = Some [] /\
    (pendingAttachments <$> tabs st' !! i) = Some [].
Proof.
  intros Hact Htab Hin Hmsg Hconv.
  destruct (sendMessage_begin_sends br st i tab value Hact Htab Hin Hmsg Hconv)
    as (out & st1 & tab1 & el & Hb & Hout & _ & Ht1 & Hp1 & _ & Hs1 & Hlt & _).
  unfold sendMessage. rewrite Hb.
  destruct (claude.sendMessage br) as [[]|e].
  - exists out, st1, st1. repeat split; auto; now rewrite Ht1; simpl; rewrite Hp1.
  - exists out, st1, (sendMessage_rejected i e st1).
    destruct (sendMessage_rejected_state i e st1 tab1 el Ht1 Hs1 Hlt) as [-> _].
    repeat split; auto; [rewrite Ht1|]; simpl; now rewrite Hp1.
Qed.

(** C2.  What the error path of [sendMessage] leaves behind: the
    placeholder shows the error marker and [isLoading] is false, but
    [streamingElement] still points at the placeholder; unlike the
    completion handler, the [catch] block does not reset it. *)
Theorem send_error_keeps_streamingElement br st i tab value e :
  getActiveTab st = Some i ->
  tabs st !! i = Some tab ->
  inputValue (page st) = Some value ->
  nonempty (trim value) = true ->
  (truthy (conversationId tab) = true \/
   exists c p, claude.createConversation br (model tab) = Resolve (c, p)) ->
  claude.sendMessage br = Reject e ->
  exists tab' el,
    tabs (snd (sendMessage marked br st)) !! i = Some tab' /\
    isLoading tab' = false /\
    streamingElement tab' = Some el /\
    (innerHTML <$> nodes (snd (sendMessage marked br st)) !! el)
    = Some (errorMarker e).
Proof.
  intros Hact Htab Hin Hmsg Hconv Hrej.
  destruct (sendMessage_begin_sends br st i tab value Hact Htab Hin Hmsg Hconv)
    as (out & st1 & tab1 & el & Hb & _ & _ & Ht1 & _ & _ & Hs1 & Hlt & _).
  unfold sendMessage. rewrite Hb, Hrej. cbn [snd].
  destruct (sendMessage_rejected_state i e st1 tab1 el Ht1 Hs1 Hlt) as [H1 H2].
  exists (set_isLoading false tab1), el. simpl. auto.
Qed.

(** The completion handler, for comparison, resets both. *)
Lemma onMessageComplete_resets conv fullText uuid st i :
  findIndex (fun t => strict_eq (conversationId t) (JStr conv)) (tabs st) = Some i ->
  exists tab',
    tabs (onMessageComplete conv fullText uuid st) !! i = Some tab' /\
    isLoading tab' = false /\
    streamingElement tab' = None /\
    parentMessageUuid tab' = JStr uuid.
Proof.
  intros Hfind. unfold onMessageComplete. rewrite Hfind.
  destruct (findIndex_Some _ _ _ Hfind) as (x & Hx & _).
  destruct (saveTabs_rest
    (update_tab i
       (terminal_do
          [Writeln (cr +:+ esc +:+ "[K" +:+ esc +:+ "[32mClaude:" +:+ esc
                    +:+ "[0m " +:+ fullText); Writeln EmptyString; Write prompt])
       (update_tab i
          (fun t => set_streamingElement None
                      (set_isLoading false (set_parentMessageUuid (JStr uuid) t)))
          st))) as (-> & _).
  rewrite !update_tab_lookup, Hx. simpl.
  eexists. split; [reflexivity|].
  unfold terminal_do. simpl. destruct (terminal x); simpl; auto.
Qed.

End Send.

(** ** Restoring *)

Lemma beforeNull_all entries :
  forallb (fun x => negb (nullish x)) entries = true -> beforeNull entries = entries.
Proof.
  induction entries as [|x r IH]; simpl; [reflexivity|].
  intros H. apply andb_prop in H as [Hx Hr].
  destruct (nullish x); [discriminate|]. now rewrite (IH Hr).
Qed.

Lemma set_tabs_same st : set_tabs (tabs st) st = st.
Proof. now destruct st. Qed.

Lemma get_total v k : nullish v = false -> get v k = Normal (prop v k).
Proof. unfold prop. destruct v; simpl; try discriminate; reflexivity. Qed.

Lemma get_nullish v k : nullish v = true -> exists e, get v k = Throw e.
Proof. destruct v; simpl; try discriminate; eauto. Qed.

Lemma restore_entries entries : forall st,
  exists o,
    forM_ entries restoreEntry st
    = (o, set_tabs (tabs st ++ map tabOfData (beforeNull entries)) st) /\
    (o = Normal tt <-> forallb (fun x => negb (nullish x)) entries = true).
Proof.
  induction entries as [|x rest IH]; intros st; simpl.
  - exists (Normal tt). rewrite app_nil_r, set_tabs_same. split; [reflexivity|tauto].
  - unfold bind at 1. unfold restoreEntry at 1. unfold bind at 1, lift.
    destruct (nullish x) eqn:Hx.
    + destruct (get_nullish x "tabType" Hx) as [e ->]. simpl.
      exists (Throw e). rewrite app_nil_r, set_tabs_same. split; [reflexivity|].
      split; discriminate.
    + rewrite (get_total x "tabType" Hx). unfold modify. simpl.
      destruct (IH (set_tabs (tabs st ++ [tabOfData x]) st)) as (o & -> & Ho).
      exists o. split; [|exact Ho].
      simpl. rewrite <- app_assoc. reflexivity.
Qed.

Lemma chooseActiveTab_tabs saved st :
  fst (chooseActiveTab saved st) = Normal tt /\
  tabs (snd (chooseActiveTab saved st)) = tabs st /\
  nodes (snd (chooseActiveTab saved st)) = nodes st /\
  page (snd (chooseActiveTab saved st)) = page st /\
  localStorage (snd (chooseActiveTab saved st)) = localStorage st.
Proof.
  unfold chooseActiveTab, bind, gets. simpl.
  match goal with |- context [if ?b then _ else _] => destruct b end; simpl; auto.
  destruct (tabs st) eqn:E; simpl; rewrite ?E; auto 10.
Qed.

Lemma restoreTabs_load_array st entries :
  chatTabs (localStorage st) = Some (Json (JArr entries)) ->
  exists st',
    restoreTabs_load st = (Normal tt, st') /\
    tabs st' = tabs st ++ map tabOfData (beforeNull entries) /\
    nodes st' = nodes st /\ page st' = page st /\
    localStorage st' = localStorage st /\
    (forallb (fun x => negb (nullish x)) entries = true ->
     st' = snd (chooseActiveTab (activeTabKey (localStorage st))
                  (set_tabs (tabs st ++ map tabOfData entries) st))).
Proof.
  intros Hs. unfold restoreTabs_load, bind, gets, try_catch, lift. simpl. rewrite Hs.
  simpl.
  destruct (restore_entries entries st) as (o & -> & Ho).
  destruct o as [[]|e].
  - destruct (chooseActiveTab_tabs (activeTabKey (localStorage st))
                (set_tabs (tabs st ++ map tabOfData (beforeNull entries)) st))
      as (Hf & Ht & Hn & Hp & Hl).
    destruct (chooseActiveTab _ _) as [o s] eqn:E. simpl in *. subst o.
    exists s. repeat split; auto.
    intros Hall. rewrite <- (beforeNull_all entries Hall). now rewrite E.
  - exists (set_tabs (tabs st ++ map tabOfData (beforeNull entries)) st).
    repeat split; auto.
    intros Hall. apply Ho in Hall. discriminate.
Qed.

Lemma restoreTabs_load_normal st : fst (restoreTabs_load st) = Normal tt.
Proof.
  unfold restoreTabs_load, bind, gets, try_catch. simpl.
  destruct (chatTabs (localStorage st)) as [[| |parsed]|]; simpl; auto.
  match goal with |- context [let (_, _) := ?m in _] => destruct m as [[[]|e] s] end;
    reflexivity.
Qed.

Lemma restoreTabs_load_malformed st :
  chatTabs (localStorage st) = Some Malformed -> restoreTabs_load st = (Normal tt, st).
Proof.
  intros H. unfold restoreTabs_load, bind, gets, try_catch. simpl. now rewrite H.
Qed.

(** [createTab] on an empty registry. *)
Lemma createTab_first uuid account st :
  tabs st = [] ->
  exists st',
    createTab uuid account (Some "Chat 1") "gui" st = (Normal tt, st') /\
    tabs st' =
      [{| tab_id := JStr uuid; tab_name := JStr "Chat 1"; accountId := JStr account;
          conversationId := JNull; parentMessageUuid := JNull;
          model := JStr "claude-opus-4-5-20251101";
          messages := []; isLoading := false; streamingElement := None;
          pendingAttachments := []; tabType := JStr "gui"; terminal := None |}] /\
    activeTabId st' = JStr uuid.
Proof.
  intros Ht. unfold createTab, bind, gets, modify. simpl. rewrite Ht. simpl.
  unfold renderTabs. simpl.
  assert (Hr : forall s, tabs s =
      [{| tab_id := JStr uuid; tab_name := JStr "Chat 1"; accountId := JStr account;
          conversationId := JNull; parentMessageUuid := JNull;
          model := JStr "claude-opus-4-5-20251101";
          messages := []; isLoading := false; streamingElement := None;
          pendingAttachments := []; tabType := JStr "gui"; terminal := None |}] ->
      activeTabId s = JStr uuid -> renderActiveTab s = s).
  { intros s Hs Ha. unfold renderActiveTab, getActiveTab. rewrite Hs, Ha. simpl.
    rewrite String.eqb_refl. simpl. destruct (negb _); reflexivity. }
  destruct (tabsContainer (page st)); simpl;
    (rewrite Hr; [|reflexivity|reflexivity]); eexists; split; reflexivity || (simpl; auto).
Qed.

Section Restore.
Variable marked : string -> string.
Variable Date_parse : string -> option Z.

(** C3 (as amended).  [restoreTabs] validates nothing entry by entry:
    the deserialisation is one [try] block.  Of a snapshot that parses
    to an array, exactly the entries before the first [null] become
    tabs, each with whatever fields it has (a missing field is
    [undefined]); the exception a [null] entry raises is absorbed, as
    is the one of a text that does not parse.  When no tab results
    and the bridge reports an active account, one default tab named
    [Chat 1] is created for that account and made active. *)
Theorem restore_keeps_entries_before_first_null :
  (forall st entries,
     chatTabs (localStorage st) = Some (Json (JArr entries)) ->
     exists st',
       restoreTabs_load st = (Normal tt, st') /\
       tabs st' = tabs st ++ map tabOfData (beforeNull entries)) /\
  (forall st,
     chatTabs (localStorage st) = Some Malformed ->
     restoreTabs_load st = (Normal tt, st)) /\
  (forall br st a,
     tabs (snd (restoreTabs_load st)) = [] ->
     claude.getActiveAccount br = Resolve (true, Some a) ->
     exists st' tab,
       restoreTabs marked Date_parse br st = (Normal tt, st') /\
       tabs st' = [tab] /\
       activeTabId st' = tab_id tab /\
       tab_id tab = JStr (claude.randomUUID br) /\
       accountId tab = JStr (account_id a) /\
       tab_name tab = JStr "Chat 1" /\
       conversationId tab = JNull /\
       messages tab = []).
Proof.
  split; [|split].
  - intros st entries Hs.
    destruct (restoreTabs_load_array st entries Hs) as (st' & H1 & H2 & _).
    eauto.
  - exact restoreTabs_load_malformed.
  - intros br st a Hempty Hacc.
    unfold restoreTabs. unfold bind at 1.
    pose proof (restoreTabs_load_normal st) as Hn.
    destruct (restoreTabs_load st) as [o st1]. simpl in Hn, Hempty. subst o.
    unfold bind at 1, gets at 1. rewrite Hempty. simpl. rewrite Hacc.
    destruct (createTab_first (claude.randomUUID br) (account_id a) st1 Hempty)
      as (st' & -> & Ht & Ha).
    eexists st', _. split; [reflexivity|]. split; [exact Ht|].
    simpl. auto 10.
Qed.

End Restore.

(** ** Saving and restoring *)

Lemma well_typed_jsonify t :
  well_typed t = true -> jsonify (tabData t) = tabData t.
Proof.
  unfold well_typed, tabData. intros H.
  repeat (apply andb_prop in H as [H ?]).
  destruct (tab_id t); try discriminate.
  destruct (tab_name t); try discriminate.
  destruct (accountId t); try discriminate.
  destruct (model t); try discriminate.
  destruct (tabType t); try discriminate.
  destruct (conversationId t); try discriminate;
    destruct (parentMessageUuid t); try discriminate; reflexivity.
Qed.

Lemma jsonify_array l :
  jsonify (JArr l)
  = JArr (map (fun x => match x with JUndefined => JNull | _ => jsonify x end) l).
Proof. reflexivity. Qed.

Lemma well_typed_snapshot l :
  forallb well_typed l = true ->
  jsonify (JArr (map tabData l)) = JArr (map tabData l).
Proof.
  intros H. rewrite jsonify_array. f_equal.
  rewrite map_map. apply map_ext_in. intros t Ht.
  rewrite forallb_forall in H.
  change (jsonify (tabData t) = tabData t).
  apply well_typed_jsonify, H, Ht.
Qed.

Lemma well_typed_tabOfData t :
  well_typed t = true -> tabOfData (tabData t) = restored t.
Proof.
  unfold well_typed. intros H. repeat (apply andb_prop in H as [H ?]).
  unfold tabOfData, restored, tabData, prop. simpl.
  destruct (tabType t); try discriminate. simpl in *.
  destruct (nonempty s) eqn:E; [reflexivity|].
  destruct s; [discriminate|discriminate].
Qed.

Lemma well_typed_renderable t : well_typed t = true -> renderable t = true.
Proof.
  unfold well_typed, renderable. intros H. repeat (apply andb_prop in H as [H ?]).
  destruct (accountId t); try discriminate.
  destruct (tab_name t); try discriminate.
  unfold js_or. simpl. now destruct (nonempty s0).
Qed.

Lemma findIndex_existsb {A} (p : A -> bool) l :
  existsb p l = true -> is_Some (findIndex p l).
Proof.
  induction l as [|a l IH]; simpl; [discriminate|].
  destruct (p a); [eauto|]. simpl. intros H. destruct (IH H) as [i ->]. eauto.
Qed.

Lemma forM_unchanged {A} (l : list A) (body : A -> M unit) st :
  (forall x, In x l -> body x st = (Normal tt, st)) ->
  forM_ l body st = (Normal tt, st).
Proof.
  induction l as [|a l IH]; simpl; intros H; [reflexivity|].
  unfold bind. rewrite (H a) by auto. apply IH. auto.
Qed.

Lemma forget_restored_fields t t' :
  forget_terminal t' = forget_terminal (restored t) ->
  tabData t' = tabData t /\ messages t' = [] /\ isLoading t' = false /\
  streamingElement t' = None /\ conversationId t' = conversationId t.
Proof.
  destruct t, t'. unfold forget_terminal, restored, set_terminal, tabData. simpl.
  intros [= -> -> -> -> -> -> -> -> -> -> ->]. auto.
Qed.

Lemma forget_restored_Forall2 l : forall l',
  map forget_terminal l' = map forget_terminal (map restored l) ->
  Forall2 (fun t t' => tabData t' = tabData t /\ messages t' = [] /\
                       isLoading t' = false /\ streamingElement t' = None) l l'.
Proof.
  induction l as [|t l IH]; intros [|t' l']; cbn [map]; try discriminate.
  - constructor.
  - intros H.
    assert (Ht : forget_terminal t' = forget_terminal (restored t)) by congruence.
    assert (Hl : map forget_terminal l' = map forget_terminal (map restored l))
      by congruence.
    constructor; [|now apply IH].
    destruct (forget_restored_fields t t' Ht) as (? & ? & ? & ? & _). auto.
Qed.

Section Roundtrip.
Variable marked : string -> string.
Variable Date_parse : string -> option Z.

Lemma loadConversationHistory_no_history br i st tab :
  tabs st !! i = Some tab ->
  negb (truthy (conversationId tab))
  || no_history (claude.loadConversation br (conversationId tab)) = true ->
  loadConversationHistory marked Date_parse br i st = (Normal tt, st).
Proof.
  intros Htab H. unfold loadConversationHistory, bind, gets. simpl. rewrite Htab.
  destruct (negb (truthy (conversationId tab))); simpl in *; [reflexivity|].
  destruct (0 <? length (messages tab)); [reflexivity|].
  unfold try_catch.
  destruct (claude.loadConversation br (conversationId tab)) as [data|r]; simpl in *.
  - rewrite H. reflexivity.
  - reflexivity.
Qed.

(** C5 (as amended).  For a registry that is not empty, whose tabs
    have durable fields of the declared types and whose active id is
    the non-empty id of one of them, [saveTabs] followed by
    [restoreTabs] in a freshly started renderer gives back the same
    tabs in the same order with every durable field equal, the same
    active id, and [messages], [streamingElement] and [isLoading]
    reset, provided the bridge has no history to offer for the
    conversations of these tabs. *)
Theorem save_restore_roundtrip br st pg a :
  tabs st <> [] ->
  forallb well_typed (tabs st) = true ->
  activeTabId st = JStr a ->
  nonempty a = true ->
  existsb (fun t => strict_eq (tab_id t) (JStr a)) (tabs st) = true ->
  forallb (fun t => negb (truthy (conversationId t))
                    || no_history (claude.loadConversation br (conversationId t)))
          (tabs st) = true ->
  exists st',
    restoreTabs marked Date_parse br (fresh (localStorage (saveTabs st)) pg)
    = (Normal tt, st') /\
    activeTabId st' = activeTabId st /\
    Forall2 (fun t t' => tabData t' = tabData t /\ messages t' = [] /\
                         isLoading t' = false /\ streamingElement t' = None)
            (tabs st) (tabs st').
Proof.
  intros Hne Hwt Hact Ha Hex Hhist.
  set (st0 := fresh (localStorage (saveTabs st)) pg).
  assert (Hstore : chatTabs (localStorage st0) = Some (Json (JArr (map tabData (tabs st))))).
  { change (chatTabs (localStorage st0))
      with (Some (Json (jsonify (JArr (map tabData (tabs st)))))).
    now rewrite (well_typed_snapshot _ Hwt). }
  assert (Hkey : activeTabKey (localStorage st0) = Some a).
  { change (activeTabKey (localStorage st0))
      with (Some (ToString (js_or (activeTabId st) (JStr EmptyString)))).
    rewrite Hact. unfold js_or. simpl. now rewrite Ha. }
  assert (Hobj : forallb (fun x => negb (nullish x)) (map tabData (tabs st)) = true).
  { clear. induction (tabs st); simpl; auto. }
  destruct (restoreTabs_load_array st0 _ Hstore) as (st1 & Hload & _ & _ & _ & _ & Hst1).
  specialize (Hst1 Hobj). rewrite Hkey in Hst1.
  assert (Hmap : map tabOfData (map tabData (tabs st)) = map restored (tabs st)).
  { clear -Hwt. induction (tabs st) as [|t l IH]; simpl in *; [reflexivity|].
    apply andb_prop in Hwt as [Ht Hl]. now rewrite (well_typed_tabOfData t Ht), (IH Hl). }
  change (tabs st0 ++ ?l) with l in Hst1. rewrite Hmap in Hst1.
  assert (Hfound : is_Some (findIndex (fun t => strict_eq (tab_id t) (JStr a))
                              (map restored (tabs st)))).
  { rewrite (findIndex_ext (fun t => strict_eq (tab_id t) (JStr a))); [|reflexivity].
    now apply findIndex_existsb. }
  assert (Hst1' : st1 = set_activeTabId (JStr a) (set_tabs (map restored (tabs st)) st0)).
  { rewrite Hst1. unfold chooseActiveTab, bind, gets. simpl. rewrite Ha. simpl.
    rewrite bool_decide_eq_true_2 by exact Hfound. reflexivity. }
  clear Hst1.
  assert (Hren : forallb renderable (tabs st1) = true).
  { rewrite Hst1'. simpl. clear -Hwt.
    induction (tabs st) as [|t l IH]; simpl in *; [reflexivity|].
    apply andb_prop in Hwt as [Ht Hl]. rewrite (IH Hl), andb_true_r.
    apply well_typed_renderable in Ht. exact Ht. }
  set (st2 := renderActiveTab st1).
  pose proof (renderActiveTab_forget st1) as Hf2. fold st2 in Hf2.
  destruct (renderActiveTab_rest st1) as (Ha2 & _). fold st2 in Ha2.
  assert (Ht1 : tabs st1 = map restored (tabs st)) by now rewrite Hst1'.
  assert (Hlen : (length (tabs st1) =? 0) = false).
  { rewrite Ht1, length_map. apply Nat.eqb_neq. destruct (tabs st); [congruence|simpl; lia]. }
  assert (Hloop :
    forM_ (seq 0 (length (tabs st1)))
      (fun i =>
         let* st' := gets (fun st' => st') in
         match tabs st' !! i with
         | Some tab =>
             if truthy (conversationId tab) && (length (messages tab) =? 0)
             then loadConversationHistory marked Date_parse br i
             else ret tt
         | None => ret tt
         end) st2 = (Normal tt, st2)).
  { apply forM_unchanged. intros i _. unfold bind, gets. simpl.
    destruct (tabs st2 !! i) as [tab|] eqn:Ei; [|reflexivity].
    destruct (truthy (conversationId tab) && _); [|reflexivity].
    apply (loadConversationHistory_no_history br i st2 tab Ei).
    assert (Hi : map forget_terminal (tabs st2) !! i = Some (forget_terminal tab)).
    { now rewrite list_lookup_fmap, Ei. }
    rewrite Hf2, Ht1, !list_lookup_fmap in Hi.
    destruct (tabs st !! i) as [t|] eqn:Et; [|discriminate].
    assert (Hi' : forget_terminal tab = forget_terminal (restored t))
      by (cbn [fmap option_fmap option_map] in Hi; congruence).
    destruct (forget_restored_fields t tab Hi') as (_ & _ & _ & _ & ->).
    rewrite forallb_forall in Hhist. apply Hhist.
    apply list_elem_of_In. eapply list_elem_of_lookup_2. exact Et. }
  exists (renderActiveTab st2). split; [|split].
  - unfold restoreTabs. unfold bind at 1. rewrite Hload.
    unfold bind at 1, gets at 1. rewrite Hlen.
    unfold bind at 1. rewrite (renderTabs_ok st1 Hren).
    unfold bind at 1, modify at 1. fold st2.
    unfold bind at 1. rewrite Hloop. reflexivity.
  - destruct (renderActiveTab_rest st2) as (-> & _). rewrite Ha2, Hst1', Hact. reflexivity.
  - apply forget_restored_Forall2.
    now rewrite renderActiveTab_forget, Hf2, Ht1.
Qed.

End Roundtrip.

(** ** History *)

Section SortFacts.
Variable Date_parse : string -> option Z.







End SortFacts.



Lemma alter_alter {A} (f g : A -> A) i (l : list A) :
  alter f i (alter g i l) = alter (fun x => f (g x)) i l.
Proof.
  revert i. induction l as [|a l IH]; intros [|i]; cbn; auto. now rewrite IH.
Qed.



Section History.
Variable marked : string -> string.
Variable Date_parse : string -> option Z.









End History.



Section HistoryTheorem.
Variable marked : string -> string.
Variable Date_parse : string -> option Z.


End HistoryTheorem.

(** ** Checks on concrete inputs *)

(** C1, counterexample.  [createTab] called with [MAX_TABS] tabs open
    adds a fourth tab and makes it the active one. *)
Lemma createTab_ignores_capacity :
  length (tabs three_tabs) = MAX_TABS /\
  activeTabId three_tabs = JStr "u3" /\
  length (tabs (snd (createTab "u4" "acct-1" None "gui" three_tabs))) = 4 /\
  activeTabId (snd (createTab "u4" "acct-1" None "gui" three_tabs)) = JStr "u4".
Proof. vm_compute. repeat split; reflexivity. Qed.

Lemma create_gated_witness :
  onNewTabClick three_tabs = three_tabs /\
  exists st',
    run_ui demo_clicks two_tabs = Some st' /\
    length (tabs st') <= MAX_TABS.
Proof.
  split.
  - apply (proj1 create_gated_by_new_tab_button). reflexivity.
  - eexists. split; [vm_compute; reflexivity|].
    apply (proj2 create_gated_by_new_tab_button demo_clicks two_tabs);
      [vm_compute; lia | reflexivity | reflexivity | vm_compute; reflexivity].
Defined.

Lemma closeTab_witness :
  closeTab "u1" one_tab = (Normal tt, one_tab) /\
  length (tabs (snd (closeTab "u3" three_tabs))) = 2 /\
  activeTabId (snd (closeTab "u3" three_tabs)) = JStr "u2".
Proof.
  split; [|split].
  - apply (proj1 (closeTab_correct "u1" one_tab)). reflexivity.
  - apply (proj2 (closeTab_correct "u3" three_tabs) 2); [vm_compute; lia|reflexivity].
  - destruct (proj2 (closeTab_correct "u3" three_tabs) 2) as (_ & _ & H & _);
      [vm_compute; lia|reflexivity|].
    destruct (H eq_refl) as (t & Ht & ->). vm_compute in Ht. now inversion Ht.
Defined.

(** C2, the failing input.  The active tab has a conversation, the input
    holds [hello], and the bridge rejects the message: afterwards
    [isLoading] is false while [streamingElement] still holds the
    placeholder (node 1), which shows the error marker. *)
Lemma send_error_witness :
  exists tab' el,
    tabs (snd (sendMessage demo_marked failing_send returning)) !! 0 = Some tab' /\
    isLoading tab' = false /\
    streamingElement tab' = Some el /\
    (innerHTML <$> nodes (snd (sendMessage demo_marked failing_send returning)) !! el)
    = Some (errorMarker "network down").
Proof.
  apply (send_error_keeps_streamingElement demo_marked failing_send returning 0
           (demo_tab "u1" "Chat 1" (JStr "c1") (JStr "p1")) "hello" "network down");
    try reflexivity.
  left. reflexivity.
Defined.

(** C3, counterexample.  A [null] entry hides the well-formed entry that
    follows it (the registry ends up with a default tab only), and an
    entry without any data is restored, not dropped, as a tab of
    undefined fields, on which [renderTabs] then throws out of
    [restoreTabs]. *)
Lemma restore_counterexample :
  map tab_id
    (tabs (snd (restoreTabs demo_marked demo_Date_parse offline
                  (snapshot_state
                     (Json (JArr [JNull;
                                  tabData (demo_tab "u1" "Chat 1" JNull JNull)]))))))
  = [JStr "u9"] /\
  map tab_id
    (tabs (snd (restoreTabs demo_marked demo_Date_parse offline
                  (snapshot_state (Json (JArr [JObj []]))))))
  = [JUndefined] /\
  fst (restoreTabs demo_marked demo_Date_parse offline
         (snapshot_state (Json (JArr [JObj []]))))
  = Throw (TypeError "Cannot read properties of null or undefined").
Proof. vm_compute. repeat split; reflexivity. Qed.

Lemma restore_witness :
  (exists st',
     restoreTabs_load
       (snapshot_state
          (Json (JArr [tabData (demo_tab "u1" "Chat 1" JNull JNull); JNull;
                       tabData (demo_tab "u2" "Chat 2" JNull JNull)])))
     = (Normal tt, st') /\
     tabs st' = [demo_tab "u1" "Chat 1" JNull JNull]) /\
  restoreTabs_load (snapshot_state Malformed)
  = (Normal tt, snapshot_state Malformed) /\
  exists st' tab,
    restoreTabs demo_marked demo_Date_parse offline (snapshot_state Malformed)
    = (Normal tt, st') /\
    tabs st' = [tab] /\ accountId tab = JStr "acct-1" /\ tab_name tab = JStr "Chat 1".
Proof.
  split; [|split].
  - destruct (proj1 (restore_keeps_entries_before_first_null demo_marked demo_Date_parse)
                (snapshot_state
                   (Json (JArr [tabData (demo_tab "u1" "Chat 1" JNull JNull); JNull;
                                tabData (demo_tab "u2" "Chat 2" JNull JNull)])))
                _ eq_refl) as (st' & H1 & H2).
    exists st'. split; [exact H1|exact H2].
  - apply (proj1 (proj2 (restore_keeps_entries_before_first_null
                           demo_marked demo_Date_parse))). reflexivity.
  - destruct (proj2 (proj2 (restore_keeps_entries_before_first_null
                              demo_marked demo_Date_parse))
                offline (snapshot_state Malformed) demo_account eq_refl eq_refl)
      as (st' & tab & H1 & H2 & _ & _ & H3 & H4 & _).
    exists st', tab. auto.
Defined.

(** C5, counterexample.  A registry saved without an active id comes
    back with its first tab active; and a saved tab that has a
    conversation comes back, when the bridge delivers the history, with
    messages and with the [parentMessageUuid] of the history. *)
Lemma save_restore_counterexample :
  activeTabId no_active = JNull /\
  activeTabId (snd (restoreTabs demo_marked demo_Date_parse offline
                      (fresh (localStorage (saveTabs no_active)) demo_page)))
  = JStr "u1" /\
  (parentMessageUuid <$> tabs chatting !! 0) = Some (JStr "p1") /\
  ((fun t => (messages t, parentMessageUuid t)) <$>
     tabs (snd (restoreTabs demo_marked demo_Date_parse (with_history shuffled_history)
                  (fresh (localStorage (saveTabs chatting)) demo_page))) !! 0)
  = Some ([0; 1], JStr "m3").
Proof. vm_compute. repeat split; reflexivity. Qed.

Lemma save_restore_witness :
  exists st',
    restoreTabs demo_marked demo_Date_parse offline
      (fresh (localStorage (saveTabs chatting)) demo_page) = (Normal tt, st') /\
    activeTabId st' = JStr "u1" /\
    map tabData (tabs st') = map tabData (tabs chatting).
Proof.
  destruct (save_restore_roundtrip demo_marked demo_Date_parse offline chatting
              demo_page "u1") as (st' & H1 & H2 & H3);
    try reflexivity; [discriminate|].
  exists st'. split; [exact H1|]. split; [exact H2|].
  clear -H3. induction H3 as [|t t' l l' (Ht & _) _ IH]; simpl; [reflexivity|].
  now rewrite Ht, IH.
Defined.

Lemma stream_witness :
  (innerHTML <$> nodes (deliver demo_marked "c1" ["H"; "He"; "Hel"] streaming) !! 1)
  = Some "<p>Hel</p>".
Proof.
  apply (proj2 (proj2 (stream_replaces_last_write_wins demo_marked streaming "c1" 0 1
                         (conj eq_refl (conj eq_refl (Nat.lt_succ_diag_r 1)))))).
Defined.

Lemma stream_dropped_witness :
  onMessageStream demo_marked "c1" "late text" returning = returning /\
  onMessageStream demo_marked "c7" "stray text" streaming = streaming.
Proof.
  split; apply stream_event_without_receiver_dropped; reflexivity.
Defined.

Lemma send_aborted_witness :
  sendMessage demo_marked offline one_tab = (None, one_tab).
Proof.
  apply (send_aborted_when_conversation_fails demo_marked offline one_tab 0
           (demo_tab "u1" "Chat 1" JNull JNull) "offline"); reflexivity.
Defined.

Lemma attachments_witness :
  exists out st1 st',
    sendMessage_begin demo_marked failing_send with_attachment = (Some (0, out), st1) /\
    sendMessage demo_marked failing_send with_attachment = (Some out, st') /\
    out_attachments out = [payload demo_attachment] /\
    (pendingAttachments <$> tabs st1 !! 0) = Some [] /\
    (pendingAttachments <$> tabs st' !! 0) = Some [].
Proof.
  apply (attachments_flushed_on_send demo_marked failing_send with_attachment 0
           (set_pendingAttachments [demo_attachment]
              (demo_tab "u1" "Chat 1" (JStr "c1") (JStr "p1"))) "hello");
    try reflexivity.
  left. reflexivity.
Defined.



(** * Further properties *)

(** * More properties of the renderer *)

(** ** Strings *)

Lemma append_cons a s1 s2 : String a s1 +:+ s2 = String a (s1 +:+ s2).
Proof. reflexivity. Qed.

Lemma append_nil s : EmptyString +:+ s = s.
Proof. reflexivity. Qed.

Lemma chars_append s1 s2 :
  list_ascii_of_string (s1 +:+ s2)
  = list_ascii_of_string s1 ++ list_ascii_of_string s2.
Proof.
  induction s1 as [|a s1 IH]; [reflexivity|].
  rewrite append_cons. simpl. now rewrite IH.
Qed.

Lemma append_assoc s1 s2 s3 : (s1 +:+ s2) +:+ s3 = s1 +:+ (s2 +:+ s3).
Proof.
  induction s1 as [|a s1 IH]; [reflexivity|].
  rewrite !append_cons. now rewrite IH.
Qed.

Lemma append_empty_r s : s +:+ EmptyString = s.
Proof.
  induction s as [|a s IH]; [reflexivity|]. rewrite append_cons. now rewrite IH.
Qed.

Lemma length_append s1 s2 :
  String.length (s1 +:+ s2) = String.length s1 + String.length s2.
Proof.
  induction s1 as [|a s1 IH]; [reflexivity|].
  rewrite append_cons. simpl. now rewrite IH.
Qed.

Lemma replaceAll_append c r s1 s2 :
  replaceAll c r (s1 +:+ s2) = replaceAll c r s1 +:+ replaceAll c r s2.
Proof.
  induction s1 as [|a s1 IH]; [reflexivity|].
  rewrite append_cons. simpl.
  destruct (Ascii.eqb a c); rewrite IH.
  - now rewrite append_assoc.
  - now rewrite append_cons.
Qed.

Lemma escapeHtml_append s1 s2 :
  escapeHtml_string (s1 +:+ s2) = escapeHtml_string s1 +:+ escapeHtml_string s2.
Proof. unfold escapeHtml_string. now rewrite !replaceAll_append. Qed.

(** What [escapeHtml] makes of one character. *)
Lemma escapeHtml_char (a : ascii) :
  escapeHtml_string (String a EmptyString)
  = if Ascii.eqb a "&" then "&amp;"
    else if Ascii.eqb a "<" then "&lt;"
    else if Ascii.eqb a ">" then "&gt;"
    else if Ascii.eqb a dquote then "&quot;"
    else String a EmptyString.
Proof.
  unfold escapeHtml_string.
  destruct (Ascii.eqb_spec a "&") as [->|H1]; [reflexivity|].
  destruct (Ascii.eqb_spec a "<") as [->|H2]; [reflexivity|].
  destruct (Ascii.eqb_spec a ">") as [->|H3]; [reflexivity|].
  destruct (Ascii.eqb_spec a dquote) as [->|H4]; [reflexivity|].
  simpl. apply Ascii.eqb_neq in H1, H2, H3, H4.
  rewrite H1. simpl. rewrite H2. simpl. rewrite H3. simpl. rewrite H4. reflexivity.
Qed.

Lemma escapeHtml_cons a s :
  escapeHtml_string (String a s)
  = escapeHtml_string (String a EmptyString) +:+ escapeHtml_string s.
Proof. apply (escapeHtml_append (String a EmptyString) s). Qed.

(** X1.  Whatever the text, the markup [escapeHtml] returns holds no
    [<], no [>] and no double quote; and a text that holds none of [&],
    [<], [>] and the double quote comes back unchanged. *)
Theorem escapeHtml_leaves_no_markup :
  (forall s c,
     In c (list_ascii_of_string (escapeHtml_string s)) ->
     c <> "<"%char /\ c <> ">"%char /\ c <> dquote) /\
  (forall s,
     (forall c, In c (list_ascii_of_string s) ->
                c <> "&"%char /\ c <> "<"%char /\ c <> ">"%char /\ c <> dquote) ->
     escapeHtml_string s = s).
Proof.
  split.
  - induction s as [|a s IH]; intros c Hc; [destruct Hc|].
    rewrite escapeHtml_cons, chars_append in Hc.
    apply in_app_or in Hc as [Hc|Hc]; [|now apply IH].
    rewrite escapeHtml_char in Hc.
    destruct (Ascii.eqb_spec a "&") as [->|H1].
    { simpl in Hc. vm_compute. intuition (subst; discriminate). }
    destruct (Ascii.eqb_spec a "<") as [->|H2].
    { simpl in Hc. vm_compute. intuition (subst; discriminate). }
    destruct (Ascii.eqb_spec a ">") as [->|H3].
    { simpl in Hc. vm_compute. intuition (subst; discriminate). }
    destruct (Ascii.eqb_spec a dquote) as [->|H4].
    { simpl in Hc. vm_compute. intuition (subst; discriminate). }
    simpl in Hc. destruct Hc as [<-|[]]. auto.
  - induction s as [|a s IH]; intros H; [reflexivity|].
    rewrite escapeHtml_cons, escapeHtml_char.
    destruct (H a (or_introl eq_refl)) as (H1 & H2 & H3 & H4).
    apply Ascii.eqb_neq in H1, H2, H3, H4. rewrite H1, H2, H3, H4. simpl.
    rewrite IH; [reflexivity|]. intros c Hc. apply H. now right.
Qed.

Lemma escapeHtml_witness :
  escapeHtml_string "plain text" = "plain text".
Proof.
  apply (proj2 escapeHtml_leaves_no_markup).
  intros c Hc. vm_compute in Hc. vm_compute.
  intuition (subst; discriminate).
Defined.

(** ** Account colours *)

Lemma fold_add_shift (l : list ascii) (n : nat) :
  fold_left (fun acc c => acc + nat_of_ascii c) l n
  = n + fold_left (fun acc c => acc + nat_of_ascii c) l 0.
Proof.
  revert n. induction l as [|a l IH]; intros n; simpl; [lia|].
  rewrite (IH (n + nat_of_ascii a)), (IH (nat_of_ascii a)). lia.
Qed.

Lemma fold_add_perm (l l' : list ascii) :
  Permutation l l' ->
  fold_left (fun acc c => acc + nat_of_ascii c) l 0
  = fold_left (fun acc c => acc + nat_of_ascii c) l' 0.
Proof.
  induction 1 as [|a l l' _ IH|a b l|l l' l'' _ IH1 _ IH2]; simpl.
  - reflexivity.
  - rewrite (fold_add_shift l), (fold_add_shift l'). now rewrite IH.
  - rewrite (fold_add_shift l (_ + _)), (fold_add_shift l (nat_of_ascii a + _)). lia.
  - congruence.
Qed.

(** X2.  For an account id that is a string, [getAccountColor] always
    answers with one of its five colours; the answer depends on the
    characters of the id only, not on their order. *)
Theorem getAccountColor_total_on_strings :
  (forall s, exists colour,
     getAccountColor (JStr s) = Normal colour /\ In colour colors) /\
  (forall s s',
     Permutation (list_ascii_of_string s) (list_ascii_of_string s') ->
     getAccountColor (JStr s) = getAccountColor (JStr s')).
Proof.
  split.
  - intros s. unfold getAccountColor. eexists. split; [reflexivity|].
    apply nth_In. apply Nat.mod_upper_bound. discriminate.
  - intros s s' H. unfold getAccountColor. now rewrite (fold_add_perm _ _ H).
Qed.

Lemma getAccountColor_witness :
  getAccountColor (JStr "ab") = getAccountColor (JStr "ba").
Proof.
  apply (proj2 getAccountColor_total_on_strings). apply perm_swap.
Defined.

(** ** The registry and its snapshot *)

Lemma rerender_ok st :
  forallb renderable (tabs st) = true ->
  rerender st = (Normal tt, saveTabs (renderActiveTab st)).
Proof.
  intros H. unfold rerender, bind. now rewrite (renderTabs_ok st H).
Qed.

Lemma tabData_forget l l' :
  map forget_terminal l' = map forget_terminal l -> map tabData l' = map tabData l.
Proof.
  intros H.
  assert (E : forall k, map tabData k = map tabData (map forget_terminal k)).
  { intros k. rewrite map_map. reflexivity. }
  now rewrite (E l'), (E l), H.
Qed.

Lemma snapshot_eq st st' :
  map forget_terminal (tabs st') = map forget_terminal (tabs st) ->
  activeTabId st' = activeTabId st ->
  snapshot st' = snapshot st.
Proof.
  intros Ht Ha. unfold snapshot. fold tabData.
  now rewrite (tabData_forget _ _ Ht), Ha.
Qed.

Lemma synced_saveTabs st : synced (saveTabs st).
Proof. reflexivity. Qed.

Lemma prop_jsonify_skip k k' v ps :
  String.eqb k k' = false ->
  prop (jsonify (JObj ((k', v) :: ps))) k = prop (jsonify (JObj ps)) k.
Proof.
  intros H. unfold prop, get. destruct v; cbn; rewrite ?H; reflexivity.
Qed.

Lemma prop_jsonify_here k v ps :
  prop (jsonify (JObj ((k, JStr v) :: ps))) k = JStr v.
Proof. unfold prop, get. cbn. now rewrite String.eqb_refl. Qed.

Lemma snapshot_entries st :
  chatTabs (snapshot st)
  = Some (Json (JArr (map (fun t => jsonify (tabData t)) (tabs st)))).
Proof.
  unfold snapshot, saveTabs, set_localStorage. cbn [localStorage chatTabs].
  rewrite jsonify_array, map_map. reflexivity.
Qed.

Lemma saved_model t v :
  model t = JStr v -> prop (jsonify (tabData t)) "model" = JStr v.
Proof.
  intros H. unfold tabData. rewrite H.
  rewrite !prop_jsonify_skip by reflexivity.
  apply prop_jsonify_here.
Qed.

Lemma saved_conversation t v :
  conversationId t = JStr v -> prop (jsonify (tabData t)) "conversationId" = JStr v.
Proof.
  intros H. unfold tabData. rewrite H.
  rewrite !prop_jsonify_skip by reflexivity.
  apply prop_jsonify_here.
Qed.

Lemma saved_parent t v :
  parentMessageUuid t = JStr v ->
  prop (jsonify (tabData t)) "parentMessageUuid" = JStr v.
Proof.
  intros H. unfold tabData. rewrite H.
  rewrite !prop_jsonify_skip by reflexivity.
  apply prop_jsonify_here.
Qed.

Lemma saved_name t v :
  tab_name t = JStr v -> prop (jsonify (tabData t)) "name" = JStr v.
Proof.
  intros H. unfold tabData. rewrite H.
  rewrite !prop_jsonify_skip by reflexivity.
  apply prop_jsonify_here.
Qed.

Lemma saved_tabType t v :
  tabType t = JStr v -> prop (jsonify (tabData t)) "tabType" = JStr v.
Proof.
  intros H. unfold tabData. rewrite H.
  rewrite !prop_jsonify_skip by reflexivity.
  apply prop_jsonify_here.
Qed.

Lemma saved_field st i t k v :
  synced st ->
  tabs st !! i = Some t ->
  prop (jsonify (tabData t)) k = v ->
  exists entries,
    chatTabs (localStorage st) = Some (Json (JArr entries)) /\
    ((fun e => prop e k) <$> entries !! i) = Some v.
Proof.
  intros Hs Ht Hv. rewrite Hs, snapshot_entries. eexists. split; [reflexivity|].
  rewrite list_lookup_fmap, Ht. subst v. reflexivity.
Qed.

Lemma synced_frame st st' :
  synced st ->
  localStorage st' = localStorage st ->
  map forget_terminal (tabs st') = map forget_terminal (tabs st) ->
  activeTabId st' = activeTabId st ->
  synced st'.
Proof.
  unfold synced. intros H Hl Ht Ha. now rewrite Hl, H, (snapshot_eq _ _ Ht Ha).
Qed.

Lemma synced_rerender st :
  forallb renderable (tabs st) = true -> synced (snd (rerender st)).
Proof. intros H. rewrite (rerender_ok st H). apply synced_saveTabs. Qed.

Lemma synced_step e st :
  gate_inv st -> synced st -> clickable e st = true -> synced (snd (handle e st)).
Proof.
  intros (Hlen & Hr & Hm) Hs Hc. destruct e; simpl in *.
  - unfold onNewTabClick. destruct (canCreateNewTab st); [|exact Hs].
    unfold showAccountSelectModal. simpl.
    destruct (accountSelectModal (page st)); exact Hs.
  - unfold onAccountOptionClick. destruct (nonempty account); exact Hs.
  - exact Hs.
  - unfold hideAccountSelectModal.
    destruct (accountSelectModal (page st)); exact Hs.
  - unfold onAddAccountForTabClick, bind, gets. simpl.
    destruct (selectedAccountForNewTab st) as [account|]; [|exact Hs].
    destruct (nonempty account); [|exact Hs].
    destruct (createTab_ok uuid account None (selectedTabType st) st Hr)
      as (st1 & tab & -> & _).
    unfold modify, hideAccountSelectModal. simpl.
    destruct (accountSelectModal (page (renderActiveTab st1))); reflexivity.
  - destruct (switchTab_state tabId st) as [-> | ->]; [exact Hs|].
    now apply synced_rerender.
  - destruct (length (tabs st) =? 1) eqn:E1.
    { unfold closeTab, bind, gets. rewrite E1. exact Hs. }
    destruct (findIndex (fun t => strict_eq (tab_id t) (JStr tabId)) (tabs st))
      as [i|] eqn:Hfind.
    2:{ unfold closeTab, bind, gets. rewrite E1, Hfind. exact Hs. }
    destruct (findIndex_Some _ _ _ Hfind) as (x & Hx & _ & _).
    apply Nat.eqb_neq in E1.
    assert (Hlen2 : 2 <= length (tabs st)).
    { apply lookup_lt_Some in Hx. lia. }
    destruct (closeTab_state tabId st i Hlen2 Hfind)
      as (st1 & t & -> & Htabs & _).
    apply synced_rerender. rewrite Htabs.
    rewrite forallb_forall in Hr. apply forallb_forall. intros y Hy.
    apply Hr. apply list_elem_of_In. apply list_elem_of_In in Hy.
    eapply list_elem_of_delete_inv; eauto.
Qed.

(** X3.  Along every sequence of clicks on the tab bar and in the
    new-tab dialogue, starting from a registry that the capacity gate
    admits and whose snapshot is in storage, the storage holds the
    snapshot of the registry after each click: no tab is created,
    selected or closed without being saved. *)
Theorem storage_follows_registry es : forall st st',
  gate_inv st -> synced st -> run_ui es st = Some st' -> synced st'.
Proof.
  induction es as [|e es IH]; intros st st' Hinv Hs; simpl.
  - now intros [= <-].
  - destruct (clickable e st) eqn:Hc; [|discriminate].
    apply IH; [now apply gate_inv_step | now apply synced_step].
Qed.

Lemma storage_follows_witness :
  exists st', run_ui demo_clicks (saveTabs two_tabs) = Some st' /\ synced st'.
Proof.
  eexists. split; [vm_compute; reflexivity|].
  apply (storage_follows_registry demo_clicks (saveTabs two_tabs)).
  - unfold gate_inv. vm_compute. split; [lia|]. split; [reflexivity|discriminate].
  - reflexivity.
  - vm_compute. reflexivity.
Defined.

(** ** The active tab *)

Lemma strict_eq_sym a b : strict_eq a b = strict_eq b a.
Proof.
  destruct a, b; simpl; try reflexivity.
  - now destruct b, b0.
  - apply Z.eqb_sym.
  - apply String.eqb_sym.
Qed.

Lemma strict_eq_refl v : is_string v = true -> strict_eq v v = true.
Proof. destruct v; try discriminate. intros _. apply String.eqb_refl. Qed.

Lemma findIndex_elem {A} (p : A -> bool) l x :
  x ∈ l -> p x = true -> is_Some (findIndex p l).
Proof.
  intros Hx Hp. apply findIndex_existsb. apply existsb_exists.
  exists x. split; [now apply list_elem_of_In|exact Hp].
Qed.

Lemma forallb_forget (P : ChatTab -> bool) l l' :
  (forall x, P (forget_terminal x) = P x) ->
  map forget_terminal l' = map forget_terminal l ->
  forallb P l' = forallb P l.
Proof.
  intros HP H.
  assert (E : forall k, forallb P k = forallb P (map forget_terminal k)).
  { induction k as [|a k IH]; simpl; [reflexivity|]. now rewrite HP, IH. }
  now rewrite (E l'), (E l), H.
Qed.

Lemma findIndex_forget (p : ChatTab -> bool) l l' :
  (forall x, p (forget_terminal x) = p x) ->
  map forget_terminal l' = map forget_terminal l ->
  findIndex p l' = findIndex p l.
Proof.
  intros Hp H.
  rewrite <- (findIndex_ext p p forget_terminal l' Hp).
  rewrite <- (findIndex_ext p p forget_terminal l Hp).
  now rewrite H.
Qed.

Lemma registry_ok_frame st st' :
  registry_ok st ->
  map forget_terminal (tabs st') = map forget_terminal (tabs st) ->
  activeTabId st' = activeTabId st ->
  registry_ok st'.
Proof.
  intros (Hne & Hact & Hids) Ht Ha. repeat split.
  - intros E. apply Hne. apply (forget_same_length _ _) in Ht.
    rewrite E in Ht. destruct (tabs st); [reflexivity|discriminate].
  - unfold getActiveTab in *. rewrite Ha.
    rewrite (findIndex_forget _ (tabs st) (tabs st')); [exact Hact|reflexivity|exact Ht].
  - rewrite (forallb_forget _ (tabs st) (tabs st')); [exact Hids|reflexivity|exact Ht].
Qed.

Lemma registry_ok_rerender st : registry_ok st -> registry_ok (snd (rerender st)).
Proof.
  intros H. destruct (rerender_state st) as (Ht & Ha & _).
  now apply (registry_ok_frame st).
Qed.

Lemma createTab_state uuid account name type st :
  exists st1 tab,
    snd (createTab uuid account name type st) = snd (rerender st1) /\
    map forget_terminal (tabs st1) = map forget_terminal (tabs st ++ [tab]) /\
    tab_id tab = JStr uuid /\
    activeTabId st1 = JStr uuid.
Proof.
  unfold createTab, bind, gets, modify. simpl.
  set (tab := {| tab_id := JStr uuid; tab_name := _ |}).
  set (st0 := set_activeTabId (JStr uuid) (set_tabs (tabs st ++ [tab]) st)).
  set (st1 := if String.eqb type "cli" then initializeTerminal (length (tabs st)) st0 else st0).
  exists st1, tab. split; [reflexivity|]. subst st1.
  destruct (String.eqb type "cli"); [|now split].
  rewrite initializeTerminal_forget.
  destruct (initializeTerminal_rest (length (tabs st)) st0) as (-> & _).
  now split.
Qed.

Lemma registry_ok_step e st :
  registry_ok st -> registry_ok (snd (handle e st)).
Proof.
  intros Hok. pose proof Hok as (Hne & Hact & Hids). destruct e; simpl.
  - unfold onNewTabClick. destruct (canCreateNewTab st); [|exact Hok].
    unfold showAccountSelectModal. simpl.
    destruct (accountSelectModal (page st)); exact Hok.
  - unfold onAccountOptionClick. destruct (nonempty account); exact Hok.
  - exact Hok.
  - unfold hideAccountSelectModal.
    destruct (accountSelectModal (page st)); exact Hok.
  - unfold onAddAccountForTabClick, bind, gets. simpl.
    destruct (selectedAccountForNewTab st) as [account|]; [|exact Hok].
    destruct (nonempty account); [|exact Hok].
    destruct (createTab_state uuid account None (selectedTabType st) st)
      as (st1 & tab & Hsnd & Hf & Hid & Ha).
    assert (H1 : registry_ok (snd (createTab uuid account None (selectedTabType st) st))).
    { rewrite Hsnd. apply registry_ok_rerender. repeat split.
      - intros E. rewrite E in Hf. symmetry in Hf.
        apply (f_equal (@length _)) in Hf. rewrite length_map, length_app in Hf.
        simpl in Hf. lia.
      - unfold getActiveTab. rewrite Ha.
        rewrite (findIndex_forget _ (tabs st ++ [tab]) (tabs st1));
          [|reflexivity|exact Hf].
        apply (findIndex_elem _ _ tab).
        + apply elem_of_app. right. now left.
        + rewrite Hid. apply String.eqb_refl.
      - rewrite (forallb_forget _ (tabs st ++ [tab]) (tabs st1));
          [|reflexivity|exact Hf].
        rewrite forallb_app, Hids. simpl. now rewrite Hid. }
    destruct (createTab uuid account None (selectedTabType st) st) as [[[]|e] s];
      simpl in *; [|exact H1].
    unfold modify, hideAccountSelectModal. simpl.
    destruct (accountSelectModal (page s)); exact H1.
  - destruct (switchTab_state tabId st) as [-> | E]; [exact Hok|].
    unfold switchTab, bind, gets in *. simpl in *.
    destruct (strict_eq (activeTabId st) (JStr tabId)); [exact Hok|].
    destruct (findIndex (fun t => strict_eq (tab_id t) (JStr tabId)) (tabs st))
      as [i|] eqn:Hfind; [|exact Hok].
    change (registry_ok (snd (rerender (set_activeTabId (JStr tabId) st)))).
    apply registry_ok_rerender. repeat split; [exact Hne| |exact Hids].
    unfold getActiveTab. simpl. now rewrite Hfind.
  - destruct (length (tabs st) =? 1) eqn:E1.
    { unfold closeTab, bind, gets. rewrite E1. exact Hok. }
    destruct (findIndex (fun t => strict_eq (tab_id t) (JStr tabId)) (tabs st))
      as [i|] eqn:Hfind.
    2:{ unfold closeTab, bind, gets. rewrite E1, Hfind. exact Hok. }
    destruct (findIndex_Some _ _ _ Hfind) as (x & Hx & Hpx & _).
    apply Nat.eqb_neq in E1.
    assert (Hi : i < length (tabs st)) by now apply lookup_lt_Some in Hx.
    assert (Hlen2 : 2 <= length (tabs st)) by lia.
    destruct (closeTab_state tabId st i Hlen2 Hfind)
      as (st1 & t & -> & Htabs & Ht & Ha & _).
    apply registry_ok_rerender.
    assert (Hsub : forall y, y ∈ delete i (tabs st) -> y ∈ tabs st).
    { intros y Hy. eapply list_elem_of_delete_inv; eauto. }
    assert (Hstr : forall y, y ∈ tabs st -> is_string (tab_id y) = true).
    { intros y Hy. rewrite forallb_forall in Hids. apply Hids.
      now apply list_elem_of_In. }
    repeat split.
    + rewrite Htabs. intros E.
      apply (f_equal (@length _)) in E. rewrite length_delete in E; [|now exists x].
      simpl in E. lia.
    + unfold getActiveTab. rewrite Htabs, Ha.
      destruct (strict_eq (activeTabId st) (JStr tabId)) eqn:Eact.
      * apply (findIndex_elem _ _ t).
        -- destruct (closeTab_neighbour_exists (tabs st) i Hlen2 Hi) as [Hnb _].
           rewrite Ht in Hnb. now apply list_elem_of_lookup_2 in Hnb.
        -- apply strict_eq_refl. apply Hstr.
           now apply list_elem_of_lookup_2 in Ht.
      * destruct Hact as [k Hk]. unfold getActiveTab in Hk.
        destruct (findIndex_Some _ _ _ Hk) as (y & Hy & Hpy & _).
        assert (Hki : k <> i).
        { intros ->. rewrite Hx in Hy. injection Hy as <-.
          apply strict_eq_JStr in Hpx. rewrite Hpx in Hpy.
          rewrite strict_eq_sym in Hpy. congruence. }
        apply (findIndex_elem _ _ y); [|exact Hpy].
        destruct (Nat.lt_ge_cases k i) as [Hlt|Hge].
        -- apply (list_elem_of_lookup_2 _ k).
           now rewrite list_lookup_delete_lt.
        -- apply (list_elem_of_lookup_2 _ (k - 1)).
           rewrite list_lookup_delete_ge by lia.
           now replace (S (k - 1)) with k by lia.
    + rewrite Htabs. apply forallb_forall. intros y Hy.
      apply Hstr, Hsub. now apply list_elem_of_In.
Qed.

(** X4.  There is always an active tab.  Starting from a registry that
    holds at least one tab, whose ids are strings and whose active id
    names one of its tabs, no sequence of clicks on the tab bar and in
    the new-tab dialogue empties the registry or leaves the active id
    pointing at a tab that is gone; this holds even when a handler
    throws half way. *)
Theorem active_tab_always_exists es : forall st st',
  registry_ok st -> run_ui es st = Some st' -> registry_ok st'.
Proof.
  induction es as [|e es IH]; intros st st' Hok; simpl.
  - now intros [= <-].
  - destruct (clickable e st); [|discriminate].
    apply IH. now apply registry_ok_step.
Qed.

Lemma active_tab_witness :
  exists st', run_ui demo_clicks two_tabs = Some st' /\ registry_ok st'.
Proof.
  eexists. split; [vm_compute; reflexivity|].
  apply (active_tab_always_exists demo_clicks two_tabs).
  - unfold registry_ok. split; [discriminate|]. split; [|reflexivity].
    exists 1. reflexivity.
  - vm_compute. reflexivity.
Defined.

(** ** Selecting a tab *)

Lemma activeTabKey_string s st :
  activeTabId st = JStr s -> activeTabKey (snapshot st) = Some s.
Proof.
  intros H. unfold snapshot, saveTabs, set_localStorage. cbn [localStorage activeTabKey].
  rewrite H. unfold js_or. simpl. now destruct s.
Qed.

(** X5.  [switchTab] on the id of the tab that is active already, or on
    an id no tab has, changes nothing and writes nothing.  On the id of
    another tab (all tabs being drawable) it makes the first tab of that
    id the active one, keeps every tab and every message node, writes
    the snapshot with that id as the active one, and creates the
    terminal of a CLI tab that has none yet when the page has the
    containers for it. *)
Theorem switchTab_correct tabId st :
  (strict_eq (activeTabId st) (JStr tabId) = true \/
   findIndex (fun t => strict_eq (tab_id t) (JStr tabId)) (tabs st) = None ->
   switchTab tabId st = (Normal tt, st)) /\
  (forall i,
     strict_eq (activeTabId st) (JStr tabId) = false ->
     findIndex (fun t => strict_eq (tab_id t) (JStr tabId)) (tabs st) = Some i ->
     forallb renderable (tabs st) = true ->
     exists st',
       switchTab tabId st = (Normal tt, st') /\
       activeTabId st' = JStr tabId /\
       getActiveTab st' = Some i /\
       map forget_terminal (tabs st') = map forget_terminal (tabs st) /\
       nodes st' = nodes st /\
       synced st' /\
       activeTabKey (localStorage st') = Some tabId /\
       (forall tab,
          tabs st !! i = Some tab ->
          tabType tab = JStr "cli" ->
          terminal tab = None ->
          messagesContainer (page st) && chatContainer (page st)
            && terminalContainer (page st) = true ->
          tabs st' !! i = Some (set_terminal (Some welcome) tab))).
Proof.
  split.
  - intros H. unfold switchTab, bind, gets. simpl.
    destruct (strict_eq (activeTabId st) (JStr tabId)); [reflexivity|].
    destruct H as [H|H]; [discriminate|]. now rewrite H.
  - intros i Hact Hfind Hr.
    unfold switchTab, bind, gets. simpl. rewrite Hact, Hfind.
    set (st1 := set_activeTabId (JStr tabId) st).
    change (exists st', rerender st1 = (Normal tt, st') /\
              activeTabId st' = JStr tabId /\
              getActiveTab st' = Some i /\
              map forget_terminal (tabs st') = map forget_terminal (tabs st) /\
              nodes st' = nodes st /\
              synced st' /\
              activeTabKey (localStorage st') = Some tabId /\
              (forall tab,
                 tabs st !! i = Some tab ->
                 tabType tab = JStr "cli" ->
                 terminal tab = None ->
                 messagesContainer (page st) && chatContainer (page st)
                   && terminalContainer (page st) = true ->
                 tabs st' !! i = Some (set_terminal (Some welcome) tab))).
    rewrite (rerender_ok st1 Hr).
    exists (saveTabs (renderActiveTab st1)).
    destruct (renderActiveTab_rest st1) as (Ha & _ & _ & Hn & _).
    pose proof (renderActiveTab_forget st1) as Hf.
    assert (Hg : getActiveTab st1 = Some i) by exact Hfind.
    split; [reflexivity|]. split; [exact Ha|]. split.
    { change (getActiveTab (renderActiveTab st1) = Some i).
      unfold getActiveTab. rewrite Ha.
      rewrite (findIndex_forget _ (tabs st1) (tabs (renderActiveTab st1)));
        [exact Hg|reflexivity|exact Hf]. }
    split; [exact Hf|]. split; [exact Hn|]. split; [apply synced_saveTabs|].
    split.
    { change (activeTabKey (snapshot (renderActiveTab st1)) = Some tabId).
      now apply activeTabKey_string. }
    intros tab Htab Hcli Hterm Hpage.
    apply andb_prop in Hpage as [Hpage Htc]. 
    change (tabs (renderActiveTab st1) !! i = Some (set_terminal (Some welcome) tab)).
    unfold renderActiveTab. change (page st1) with (page st). rewrite Hpage, Hg.
    change (tabs st1) with (tabs st). rewrite Htab, Hcli, Hterm. simpl.
    unfold initializeTerminal. change (page st1) with (page st). rewrite Htc.
    rewrite update_tab_lookup. change (tabs st1) with (tabs st). now rewrite Htab.
Qed.

Lemma switchTab_witness :
  exists st',
    switchTab "u1" two_tabs = (Normal tt, st') /\
    activeTabId st' = JStr "u1" /\
    activeTabKey (localStorage st') = Some "u1".
Proof.
  destruct (proj2 (switchTab_correct "u1" two_tabs) 0 eq_refl eq_refl eq_refl)
    as (st' & H & Ha & _ & _ & _ & _ & Hk & _).
  exists st'. auto.
Defined.

(** ** The settings of the active tab *)

Lemma strict_eq_eq a b : strict_eq a b = true -> a = b.
Proof.
  destruct a, b; simpl; try discriminate; try reflexivity; intros H.
  - now destruct b, b0.
  - now apply Z.eqb_eq in H as ->.
  - now apply String.eqb_eq in H as ->.
Qed.

Lemma update_tab_other i j f st :
  i <> j -> tabs (update_tab i f st) !! j = tabs st !! j.
Proof. intros H. unfold update_tab. simpl. now apply list_lookup_alter_ne. Qed.

Lemma mode_toggle_effect mode st i tab :
  getActiveTab st = Some i ->
  tabs st !! i = Some tab ->
  (strict_eq (tabType tab) (JStr mode) = true -> onModeToggleClick mode st = st) /\
  (strict_eq (tabType tab) (JStr mode) = false ->
   let st' := onModeToggleClick mode st in
   tabs st' !! i
   = Some (set_terminal
             (match terminal tab with
              | Some term => Some term
              | None =>
                  if String.eqb mode "cli"
                     && (messagesContainer (page st) && chatContainer (page st)
                         && terminalContainer (page st))
                  then Some welcome else None
              end)
             (set_tabType (JStr mode) tab)) /\
   (forall j, j <> i -> tabs st' !! j = tabs st !! j) /\
   nodes st' = nodes st /\
   activeTabId st' = activeTabId st /\
   synced st').
Proof.
  intros Hact Htab. unfold onModeToggleClick. rewrite Hact, Htab. split.
  - now intros ->.
  - intros ->.
    set (st1 := update_tab i (set_tabType (JStr mode)) st).
    assert (Hg : getActiveTab st1 = Some i).
    { unfold st1. now rewrite getActiveTab_update_tab. }
    assert (H1 : tabs st1 !! i = Some (set_tabType (JStr mode) tab)).
    { unfold st1. now rewrite update_tab_lookup, Htab. }
    cbv zeta.
    destruct (saveTabs_rest (renderActiveTab st1)) as (-> & -> & _ & _ & -> & _).
    destruct (renderActiveTab_rest st1) as (-> & _ & _ & -> & _).
    split; [|split; [|split; [reflexivity|split; [reflexivity|apply synced_saveTabs]]]].
    + unfold renderActiveTab. change (page st1) with (page st).
      destruct (messagesContainer (page st) && chatContainer (page st)) eqn:Ep;
        cbn [negb].
      2:{ rewrite H1. rewrite andb_false_r. destruct tab as [? ? ? ? ? ? ? ? ? ? ? [?|]];
          reflexivity. }
      rewrite Hg, H1. cbn [tabType set_tabType terminal strict_eq].
      destruct (String.eqb mode "cli"); cbn [andb].
      2:{ rewrite H1. destruct tab as [? ? ? ? ? ? ? ? ? ? ? [?|]]; reflexivity. }
      destruct (terminal tab) eqn:Et.
      { rewrite H1. destruct tab; simpl in *; now subst. }
      unfold initializeTerminal. change (page st1) with (page st).
      destruct (terminalContainer (page st)).
      * rewrite update_tab_lookup, H1. reflexivity.
      * rewrite H1. destruct tab; simpl in *; now subst.
    + intros j Hj.
      transitivity (tabs st1 !! j); [|apply update_tab_other; congruence].
      unfold renderActiveTab.
      destruct (negb _); [reflexivity|]. rewrite Hg, H1.
      destruct (strict_eq _ _); [|reflexivity].
      destruct (terminal _); [reflexivity|].
      unfold initializeTerminal. destruct (terminalContainer _); [|reflexivity].
      apply update_tab_other. congruence.
Qed.

(** X6.  A click on a mode button, with a tab active: nothing at all
    happens when the tab is of that type already; otherwise the type
    of the active tab, and of no other, becomes the mode of the button,
    the change is saved at once (storage holds the durable image of
    the registry, in which the entry of that tab carries the new type),
    no message is touched, and a terminal is created only for a tab
    that becomes a CLI tab without having one (and only when the page
    has the containers): a terminal that exists is kept as it is,
    whichever way the tab is toggled. *)
Theorem mode_toggle_correct mode st i tab :
  getActiveTab st = Some i ->
  tabs st !! i = Some tab ->
  (strict_eq (tabType tab) (JStr mode) = true -> onModeToggleClick mode st = st) /\
  (strict_eq (tabType tab) (JStr mode) = false ->
   let st' := onModeToggleClick mode st in
   tabs st' !! i
   = Some (set_terminal
             (match terminal tab with
              | Some term => Some term
              | None =>
                  if String.eqb mode "cli"
                     && (messagesContainer (page st) && chatContainer (page st)
                         && terminalContainer (page st))
                  then Some welcome else None
              end)
             (set_tabType (JStr mode) tab)) /\
   (forall j, j <> i -> tabs st' !! j = tabs st !! j) /\
   nodes st' = nodes st /\
   activeTabId st' = activeTabId st /\
   synced st' /\
   exists entries,
     chatTabs (localStorage st') = Some (Json (JArr entries)) /\
     ((fun e => prop e "tabType") <$> entries !! i) = Some (JStr mode)).
Proof.
  intros Hact Htab.
  destruct (mode_toggle_effect mode st i tab Hact Htab) as [Hsame Hother].
  split; [exact Hsame|]. intros Hne. cbv zeta.
  destruct (Hother Hne) as (Ht & Ho & Hn & Ha & Hs).
  split; [exact Ht|]. split; [exact Ho|]. split; [exact Hn|].
  split; [exact Ha|]. split; [exact Hs|].
  apply (saved_field _ i _ "tabType" (JStr mode) Hs Ht).
  now apply saved_tabType.
Qed.

Lemma mode_toggle_witness :
  tabs (onModeToggleClick "cli" two_tabs) !! 1
  = Some (set_terminal (Some welcome)
            (set_tabType (JStr "cli") (demo_tab "u2" "Chat 2" JNull JNull))) /\
  onModeToggleClick "gui" two_tabs = two_tabs.
Proof.
  split.
  - apply (proj2 (mode_toggle_correct "cli" two_tabs 1 _ eq_refl eq_refl) eq_refl).
  - apply (proj1 (mode_toggle_correct "gui" two_tabs 1 _ eq_refl eq_refl) eq_refl).
Defined.

Lemma trim_nonempty s : nonempty (trim s) = true -> nonempty s = true.
Proof. destruct s; [discriminate|reflexivity]. Qed.

Lemma renderable_set_name s t :
  renderable t = true -> renderable (set_name (JStr s) t) = true.
Proof.
  unfold renderable. simpl. destruct (accountId t); try discriminate.
  intros _. unfold js_or. simpl. now destruct s.
Qed.

Lemma forallb_alter {A} (P : A -> bool) (f : A -> A) i l :
  (forall x, P x = true -> P (f x) = true) ->
  forallb P l = true -> forallb P (alter f i l) = true.
Proof.
  intros Hf. revert i. induction l as [|a l IH]; intros i H; [reflexivity|].
  simpl in H. apply andb_prop in H as [Ha Hl].
  destruct i; cbn.
  - now rewrite (Hf a Ha), Hl.
  - now rewrite Ha, (IH i Hl).
Qed.

Lemma updateTabName_ok tabId name st i :
  findIndex (fun t => strict_eq (tab_id t) tabId) (tabs st) = Some i ->
  forallb renderable (alter (set_name name) i (tabs st)) = true ->
  updateTabName tabId name st
  = (Normal tt, saveTabs (update_tab i (set_name name) st)).
Proof.
  intros Hfind Hr. unfold updateTabName, bind, gets. simpl. rewrite Hfind.
  unfold modify at 1. simpl.
  now rewrite (renderTabs_ok (update_tab i (set_name name) st) Hr).
Qed.

Lemma rename_effect st :
  onInputBadgeClick None st = (Normal tt, st) /\
  (forall answer,
     nonempty (trim answer) = false ->
     onInputBadgeClick (Some answer) st = (Normal tt, st)) /\
  (forall answer i,
     getActiveTab st = Some i ->
     nonempty (trim answer) = true ->
     forallb renderable (tabs st) = true ->
     exists st',
       onInputBadgeClick (Some answer) st = (Normal tt, st') /\
       tabs st' = alter (set_name (JStr (trim answer))) i (tabs st) /\
       activeTabId st' = activeTabId st /\
       nodes st' = nodes st /\
       synced st').
Proof.
  split; [|split].
  - unfold onInputBadgeClick, bind, gets. simpl.
    destruct (getActiveTab st); [|reflexivity].
    destruct (tabs st !! n); reflexivity.
  - intros answer H. unfold onInputBadgeClick, bind, gets. simpl.
    destruct (getActiveTab st); [|reflexivity].
    destruct (tabs st !! n); [|reflexivity].
    now rewrite H, andb_false_r.
  - intros answer i Hact Hne Hr.
    unfold onInputBadgeClick, bind, gets. simpl. rewrite Hact.
    destruct (findIndex_Some _ _ _ Hact) as (tab & Htab & Hid & _).
    rewrite Htab, Hne, (trim_nonempty _ Hne). simpl.
    assert (Hfind : findIndex (fun t => strict_eq (tab_id t) (tab_id tab)) (tabs st)
                    = Some i).
    { apply strict_eq_eq in Hid. rewrite Hid. exact Hact. }
    rewrite (updateTabName_ok _ _ _ i Hfind).
    + eexists. split; [reflexivity|].
      split; [reflexivity|]. split; [reflexivity|]. split; [reflexivity|].
      apply synced_saveTabs.
    + apply forallb_alter; [|exact Hr]. intros x. apply renderable_set_name.
Qed.

(** X7.  A click on the input badge renames the active tab, and does so
    only for an answer that is not blank: a cancelled dialogue or an
    answer of white space changes nothing.  Otherwise the name of the
    active tab, and nothing else in the registry, becomes the answer
    without the white space around it, and the change is saved at once:
    storage holds the durable image of the registry, in which the
    entry of that tab carries the new name. *)
Theorem rename_active_tab st :
  onInputBadgeClick None st = (Normal tt, st) /\
  (forall answer,
     nonempty (trim answer) = false ->
     onInputBadgeClick (Some answer) st = (Normal tt, st)) /\
  (forall answer i,
     getActiveTab st = Some i ->
     nonempty (trim answer) = true ->
     forallb renderable (tabs st) = true ->
     exists st',
       onInputBadgeClick (Some answer) st = (Normal tt, st') /\
       tabs st' = alter (set_name (JStr (trim answer))) i (tabs st) /\
       activeTabId st' = activeTabId st /\
       nodes st' = nodes st /\
       synced st' /\
       exists entries,
         chatTabs (localStorage st') = Some (Json (JArr entries)) /\
         ((fun e => prop e "name") <$> entries !! i) = Some (JStr (trim answer))).
Proof.
  destruct (rename_effect st) as (Hnone & Hblank & Hrename).
  split; [exact Hnone|]. split; [exact Hblank|].
  intros answer i Hact Hne Hr.
  destruct (Hrename answer i Hact Hne Hr) as (st' & Hrun & Ht & Ha & Hn & Hs).
  exists st'. split; [exact Hrun|]. split; [exact Ht|]. split; [exact Ha|].
  split; [exact Hn|]. split; [exact Hs|].
  destruct (findIndex_Some _ _ _ Hact) as (tab & Htab & _).
  apply (saved_field _ i (set_name (JStr (trim answer)) tab) "name" _ Hs).
  - now rewrite Ht, list_lookup_alter_eq, Htab.
  - now apply saved_name.
Qed.

Lemma rename_witness :
  exists st',
    onInputBadgeClick (Some "  Plans  ") two_tabs = (Normal tt, st') /\
    tabs st' = alter (set_name (JStr "Plans")) 1 (tabs two_tabs).
Proof.
  destruct (proj2 (proj2 (rename_active_tab two_tabs)) "  Plans  " 1
              eq_refl eq_refl eq_refl) as (st' & H & Ht & _).
  exists st'. split; [exact H|exact Ht].
Defined.


(** X8.  A change of the model selector, with a tab active, sets the
    model of that tab and of no other and rewrites the snapshot at
    once, in which the entry of that tab carries the new model; with no
    tab active it does nothing. *)
Theorem model_change_saved value st :
  (getActiveTab st = None -> onModelChange value st = st) /\
  (forall i,
     getActiveTab st = Some i ->
     let st' := onModelChange value st in
     tabs st' = alter (set_model (JStr value)) i (tabs st) /\
     synced st' /\
     exists entries,
       chatTabs (localStorage st') = Some (Json (JArr entries)) /\
       length entries = length (tabs st) /\
       ((fun e => prop e "model") <$> entries !! i) = Some (JStr value)).
Proof.
  split.
  - intros H. unfold onModelChange. now rewrite H.
  - intros i Hact. unfold onModelChange. rewrite Hact. cbv zeta.
    set (st1 := update_tab i (set_model (JStr value)) st).
    split; [reflexivity|]. split; [apply synced_saveTabs|].
    change (localStorage (saveTabs st1)) with (snapshot st1).
    rewrite snapshot_entries. eexists. split; [reflexivity|].
    rewrite length_map. split.
    + unfold st1, update_tab. simpl. apply length_alter.
    + rewrite list_lookup_fmap. unfold st1. rewrite update_tab_lookup.
      destruct (findIndex_Some _ _ _ Hact) as (tab & -> & _).
      change (Some (prop (jsonify (tabData (set_model (JStr value) tab))) "model")
              = Some (JStr value)).
      f_equal. now apply saved_model.
Qed.

Lemma model_change_witness :
  tabs (onModelChange "claude-sonnet" two_tabs)
  = alter (set_model (JStr "claude-sonnet")) 1 (tabs two_tabs).
Proof.
  apply (proj2 (model_change_saved "claude-sonnet" two_tabs) 1 eq_refl).
Defined.

(** ** Sending, streaming and completion *)

Lemma findIndex_first {A} (p : A -> bool) l i x :
  l !! i = Some x -> p x = true ->
  (forall j y, j < i -> l !! j = Some y -> p y = false) ->
  findIndex p l = Some i.
Proof.
  revert i. induction l as [|a l IH]; intros i Hx Hp Hlt; [discriminate|].
  destruct i as [|i]; simpl in *.
  - injection Hx as ->. now rewrite Hp.
  - rewrite (Hlt 0 a); [|lia|reflexivity].
    rewrite (IH i Hx Hp); [reflexivity|].
    intros j y Hj Hy. apply (Hlt (S j) y); [lia|exact Hy].
Qed.

Section SendEffect.
Variable marked : string -> string.

Lemma addMessage_full r content raw st i :
  getActiveTab st = Some i ->
  addMessage marked r content raw st
  = (length (nodes st),
     update_tab i (fun t => set_messages (messages t ++ [length (nodes st)]) t)
       (set_nodes
          (nodes st ++ [{| role := r;
                           innerHTML := match r with
                                        | user => escapeHtml_string content
                                        | assistant =>
                                            if raw then content
                                            else parseMarkdown marked content
                                        end |}]) st)).
Proof.
  intros Hact. unfold addMessage.
  change (getActiveTab (set_nodes ?n st)) with (getActiveTab st).
  now rewrite Hact.
Qed.

Lemma sendMessage_begin_effect br st i tab tab0 value :
  getActiveTab st = Some i ->
  tabs st !! i = Some tab ->
  inputValue (page st) = Some value ->
  nonempty (trim value) = true ->
  withConversation br tab = Some tab0 ->
  exists st1,
    sendMessage_begin marked br st
    = (Some (i, {| out_conversation := conversationId tab0;
                   out_message := trim value;
                   out_parent := js_or (parentMessageUuid tab0) (conversationId tab0);
                   out_attachments := map payload (pendingAttachments tab) |}), st1) /\
    nodes st1
    = nodes st ++ [{| role := user; innerHTML := escapeHtml_string (trim value) |};
                   {| role := assistant; innerHTML := EmptyString |}] /\
    tabs st1 !! i = Some (sending (length (nodes st)) tab0) /\
    (forall j, j <> i -> tabs st1 !! j = tabs st !! j) /\
    length (tabs st1) = length (tabs st) /\
    inputValue (page st1) = Some EmptyString /\
    localStorage st1 = localStorage st /\
    activeTabId st1 = activeTabId st.
Proof.
  intros Hact Htab Hin Hmsg Hconv.
  unfold sendMessage_begin. rewrite Hact, Hin, Htab, Hmsg. cbn [negb].
  set (created := if truthy (conversationId tab) then Some st else _).
  assert (Hc : exists st0,
             created = Some st0 /\ getActiveTab st0 = Some i /\
             tabs st0 !! i = Some tab0 /\
             (forall j, j <> i -> tabs st0 !! j = tabs st !! j) /\
             length (tabs st0) = length (tabs st) /\
             pendingAttachments tab0 = pendingAttachments tab /\
             nodes st0 = nodes st /\ localStorage st0 = localStorage st /\
             activeTabId st0 = activeTabId st).
  { subst created. unfold withConversation in Hconv.
    destruct (truthy (conversationId tab)).
    - injection Hconv as <-. exists st. auto 10.
    - destruct (claude.createConversation br (model tab)) as [[c p]|]; [|discriminate].
      injection Hconv as <-.
      eexists. split; [reflexivity|]. split.
      { rewrite getActiveTab_update_tab; [exact Hact|reflexivity]. }
      split. { now rewrite update_tab_lookup, Htab. }
      split. { intros j Hj. apply update_tab_other. congruence. }
      split. { unfold update_tab. simpl. apply length_alter. }
      auto. }
  destruct Hc as (st0 & -> & Hact0 & Htab0 & Hoth0 & Hlen0 & Hpend0 & Hn0 & Hl0 & Ha0).
  rewrite (addMessage_full user (trim value) false st0 i Hact0). cbn [snd].
  set (st2 := update_tab i _ (set_nodes _ st0)).
  assert (Hact2 : getActiveTab st2 = Some i).
  { subst st2. rewrite getActiveTab_update_tab; [exact Hact0|reflexivity]. }
  assert (Htab2 : tabs st2 !! i =
                  Some (set_messages (messages tab0 ++ [length (nodes st0)]) tab0)).
  { subst st2. rewrite update_tab_lookup. simpl. now rewrite Htab0. }
  set (st3 := set_inputValue (Some EmptyString) st2).
  change (tabs st3) with (tabs st2). rewrite Htab2.
  set (st4 := update_tab i (set_pendingAttachments []) st3).
  assert (Hact4 : getActiveTab st4 = Some i).
  { subst st4. rewrite getActiveTab_update_tab; [exact Hact2|reflexivity]. }
  rewrite (addMessage_full assistant EmptyString true st4 i Hact4).
  set (st5 := update_tab i _ (set_nodes _ st4)).
  set (st6 := update_tab i _ st5).
  assert (Hn4 : nodes st4 = nodes st ++ [{| role := user;
                                            innerHTML := escapeHtml_string (trim value) |}]).
  { subst st4 st3 st2. simpl. now rewrite Hn0. }
  assert (Htab6 : tabs st6 !! i = Some (sending (length (nodes st)) tab0)).
  { subst st6 st5 st4 st3. rewrite !update_tab_lookup.
    change (tabs (set_nodes ?n ?s)) with (tabs s).
    rewrite update_tab_lookup.
    change (tabs (set_inputValue ?v ?s)) with (tabs s).
    rewrite Htab2.
    change (nodes (update_tab ?j ?f ?s)) with (nodes s).
    change (nodes (set_inputValue ?v ?s)) with (nodes s).
    replace (nodes st2) with (nodes st ++ [{| role := user;
                                              innerHTML := escapeHtml_string (trim value) |}])
      by (subst st2; simpl; now rewrite Hn0).
    rewrite Hn0, length_app, Nat.add_1_r.
    unfold sending. destruct tab0. simpl. now rewrite <- app_assoc. }
  rewrite Htab6.
  exists st6. split.
  { unfold sending. cbn [conversationId parentMessageUuid set_isLoading
                         set_streamingElement set_messages set_pendingAttachments].
    change (pendingAttachments (set_messages ?l tab0))
      with (pendingAttachments tab0).
    now rewrite Hpend0. }
  split.
  { transitivity (nodes st4 ++ [{| role := assistant; innerHTML := EmptyString |}]);
      [reflexivity|].
    rewrite Hn4. now rewrite <- app_assoc. }
  split; [exact Htab6|].
  split.
  { intros j Hj. subst st6 st5 st4 st3 st2.
    rewrite !update_tab_other by congruence.
    change (tabs (set_nodes ?n ?s)) with (tabs s).
    rewrite update_tab_other by congruence.
    change (tabs (set_inputValue ?v ?s)) with (tabs s).
    rewrite update_tab_other by congruence.
    change (tabs (set_nodes ?n ?s)) with (tabs s). now apply Hoth0. }
  split.
  { subst st6 st5 st4 st3 st2. unfold update_tab. simpl.
    rewrite !length_alter. exact Hlen0. }
  split; [reflexivity|].
  split; [subst st6 st5 st4 st3 st2; simpl; exact Hl0|].
  subst st6 st5 st4 st3 st2; simpl; exact Ha0.
Qed.

End SendEffect.

Section SendTheorems.
Variable marked : string -> string.

(** X9.  What a send does, for an input that is not blank.  For a tab
    that has a conversation nothing is awaited before the bridge is
    called, and by then: the message handed over is the input without
    the white space around it, for the tab's conversation, with the
    tab's parent message or else its conversation as parent, and with
    the pending attachments; two nodes have been appended, the user's
    text (escaped) and an empty placeholder for the reply; the sending
    tab, and no other, records both nodes, points at the placeholder
    and is loading; the input is emptied; storage is not written.  When
    the bridge accepts the message the function does nothing more.  For
    a tab that has no conversation, for which the bridge creates one,
    the message handed over is the input without the white space around
    it, for the conversation created, with the parent the bridge named
    or else that conversation as parent. *)
Theorem send_effect br st i tab value :
  getActiveTab st = Some i ->
  tabs st !! i = Some tab ->
  inputValue (page st) = Some value ->
  nonempty (trim value) = true ->
  (truthy (conversationId tab) = true ->
   let out := {| out_conversation := conversationId tab;
                 out_message := trim value;
                 out_parent := js_or (parentMessageUuid tab) (conversationId tab);
                 out_attachments := map payload (pendingAttachments tab) |} in
   exists st1,
     sendMessage_begin marked br st = (Some (i, out), st1) /\
     nodes st1
     = nodes st ++ [{| role := user; innerHTML := escapeHtml_string (trim value) |};
                    {| role := assistant; innerHTML := EmptyString |}] /\
     tabs st1 !! i = Some (sending (length (nodes st)) tab) /\
     (forall j, j <> i -> tabs st1 !! j = tabs st !! j) /\
     inputValue (page st1) = Some EmptyString /\
     localStorage st1 = localStorage st /\
     activeTabId st1 = activeTabId st /\
     fst (sendMessage marked br st) = Some out /\
     (claude.sendMessage br = Resolve tt -> snd (sendMessage marked br st) = st1)) /\
  (forall c p,
     truthy (conversationId tab) = false ->
     claude.createConversation br (model tab) = Resolve (c, p) ->
     exists out,
       fst (sendMessage marked br st) = Some out /\
       out_conversation out = JStr c /\
       out_message out = trim value /\
       out_parent out = js_or (JStr p) (JStr c)).
Proof.
  intros Hact Htab Hin Hmsg. split.
  - intros Hconv. cbv zeta.
    assert (Hw : withConversation br tab = Some tab).
    { unfold withConversation. now rewrite Hconv. }
    destruct (sendMessage_begin_effect marked br st i tab tab value
                Hact Htab Hin Hmsg Hw)
      as (st1 & Hb & Hn & Ht & Ho & _ & Hi & Hl & Ha).
    exists st1. unfold sendMessage. rewrite Hb.
    split; [reflexivity|]. split; [exact Hn|]. split; [exact Ht|].
    split; [exact Ho|]. split; [exact Hi|]. split; [exact Hl|].
    split; [exact Ha|]. split.
    + now destruct (claude.sendMessage br).
    + now intros ->.
  - intros c p Hconv Hcreate.
    assert (Hw : withConversation br tab
                 = Some (set_parentMessageUuid (JStr p)
                           (set_conversationId (JStr c) tab))).
    { unfold withConversation. now rewrite Hconv, Hcreate. }
    destruct (sendMessage_begin_effect marked br st i tab _ value
                Hact Htab Hin Hmsg Hw)
      as (st1 & Hb & _).
    unfold sendMessage. rewrite Hb.
    eexists. split; [now destruct (claude.sendMessage br)|].
    split; [reflexivity|]. split; reflexivity.
Qed.

(** X10.  [sendMessage] does nothing at all, and does not consult the
    bridge, when no tab is active, when the page has no input element,
    or when the input holds white space only. *)
Theorem send_ignores_blank_input br st :
  getActiveTab st = None \/
  inputValue (page st) = None \/
  (exists value, inputValue (page st) = Some value /\ nonempty (trim value) = false) ->
  sendMessage marked br st = (None, st).
Proof.
  intros H. unfold sendMessage, sendMessage_begin.
  destruct (getActiveTab st) as [i|]; [|reflexivity].
  destruct (inputValue (page st)) as [value|]; [|reflexivity].
  destruct H as [H|[H|(v & Hv & Hblank)]]; try discriminate.
  injection Hv as <-. rewrite Hblank.
  destruct (tabs st !! i); reflexivity.
Qed.

End SendTheorems.

Lemma send_effect_witness :
  (exists st1,
     sendMessage_begin demo_marked (with_history []) returning
     = (Some (0, {| out_conversation := JStr "c1"; out_message := "hello";
                    out_parent := JStr "p1"; out_attachments := [] |}), st1) /\
     nodes st1 = [{| role := user; innerHTML := "hello" |};
                  {| role := assistant; innerHTML := EmptyString |}] /\
     (messages <$> tabs st1 !! 0) = Some [0; 1] /\
     localStorage st1 = localStorage returning) /\
  (exists out,
     fst (sendMessage demo_marked (with_history []) one_tab) = Some out /\
     out_conversation out = JStr "c1").
Proof.
  split.
  - destruct (proj1 (send_effect demo_marked (with_history []) returning 0
                       (demo_tab "u1" "Chat 1" (JStr "c1") (JStr "p1")) "hello"
                       eq_refl eq_refl eq_refl eq_refl) eq_refl)
      as (st1 & H & Hn & Ht & _ & _ & Hl & _).
    exists st1. split; [exact H|]. split; [exact Hn|].
    split; [now rewrite Ht|exact Hl].
  - destruct (proj2 (send_effect demo_marked (with_history []) one_tab 0
                       (demo_tab "u1" "Chat 1" JNull JNull) "hello"
                       eq_refl eq_refl eq_refl eq_refl) "c1" "p1" eq_refl eq_refl)
      as (out & H & Hc & _).
    exists out. split; [exact H|exact Hc].
Defined.

Lemma send_blank_witness :
  sendMessage demo_marked offline (set_inputValue (Some "   ") one_tab)
  = (None, set_inputValue (Some "   ") one_tab).
Proof.
  apply send_ignores_blank_input. right. right. exists "   ". split; reflexivity.
Defined.

(** ** Completion *)

Lemma onMessageComplete_found conv fullText uuid st i :
  findIndex (fun t => strict_eq (conversationId t) (JStr conv)) (tabs st) = Some i ->
  onMessageComplete conv fullText uuid st
  = saveTabs (update_tab i (completed fullText uuid) st).
Proof.
  intros H. unfold onMessageComplete. rewrite H. f_equal.
  unfold update_tab, completed, completion_notice.
  change (tabs (set_tabs ?l st)) with l. rewrite alter_alter. reflexivity.
Qed.

Lemma completed_fields fullText uuid t :
  conversationId (completed fullText uuid t) = conversationId t /\
  tab_id (completed fullText uuid t) = tab_id t /\
  streamingElement (completed fullText uuid t) = None /\
  isLoading (completed fullText uuid t) = false /\
  parentMessageUuid (completed fullText uuid t) = JStr uuid /\
  messages (completed fullText uuid t) = messages t /\
  pendingAttachments (completed fullText uuid t) = pendingAttachments t.
Proof.
  unfold completed, terminal_do. simpl. destruct (terminal t); simpl; auto 10.
Qed.

Section Completion.
Variable marked : string -> string.

Lemma onMessageComplete_effect conv fullText uuid st i tab :
  findIndex (fun t => strict_eq (conversationId t) (JStr conv)) (tabs st) = Some i ->
  tabs st !! i = Some tab ->
  let st' := onMessageComplete conv fullText uuid st in
  tabs st' !! i = Some (completed fullText uuid tab) /\
  (forall j, j <> i -> tabs st' !! j = tabs st !! j) /\
  nodes st' = nodes st /\
  activeTabId st' = activeTabId st /\
  synced st'.
Proof.
  intros Hfind Htab. cbv zeta.
  rewrite (onMessageComplete_found _ _ _ _ _ Hfind).
  split; [|split; [|split; [reflexivity|split; [reflexivity|apply synced_saveTabs]]]].
  - change (tabs (saveTabs ?s)) with (tabs s).
    now rewrite update_tab_lookup, Htab.
  - intros j Hj. change (tabs (saveTabs ?s)) with (tabs s).
    apply update_tab_other. congruence.
Qed.

(** X11.  The completion event of a conversation no tab holds changes
    nothing.  Otherwise the first tab of that conversation, and no
    other, stops loading, drops its placeholder and takes the uuid of
    the reply as parent for the next message; the event draws nothing
    (the reply is on the page through the stream events only); and the
    change is saved at once: storage holds the durable image of the
    registry, in which the entry of that tab carries the new parent.
    This is when a conversation created by a send reaches storage. *)
Theorem onMessageComplete_correct conv fullText uuid st :
  (findIndex (fun t => strict_eq (conversationId t) (JStr conv)) (tabs st) = None ->
   onMessageComplete conv fullText uuid st = st) /\
  (forall i tab,
     findIndex (fun t => strict_eq (conversationId t) (JStr conv)) (tabs st) = Some i ->
     tabs st !! i = Some tab ->
     let st' := onMessageComplete conv fullText uuid st in
     tabs st' !! i = Some (completed fullText uuid tab) /\
     (forall j, j <> i -> tabs st' !! j = tabs st !! j) /\
     nodes st' = nodes st /\
     activeTabId st' = activeTabId st /\
     synced st' /\
     exists entries,
       chatTabs (localStorage st') = Some (Json (JArr entries)) /\
       ((fun e => prop e "parentMessageUuid") <$> entries !! i) = Some (JStr uuid)).
Proof.
  split.
  - intros H. unfold onMessageComplete. now rewrite H.
  - intros i tab Hfind Htab. cbv zeta.
    destruct (onMessageComplete_effect conv fullText uuid st i tab Hfind Htab)
      as (Ht & Ho & Hn & Ha & Hs).
    split; [exact Ht|]. split; [exact Ho|]. split; [exact Hn|].
    split; [exact Ha|]. split; [exact Hs|].
    apply (saved_field _ i _ "parentMessageUuid" (JStr uuid) Hs Ht).
    apply saved_parent. unfold completed, terminal_do. simpl.
    now destruct (terminal tab).
Qed.

(** X12.  Once the completion event of a conversation has been
    handled, a stream event of that conversation that arrives late is
    dropped: it changes nothing. *)
Theorem stream_after_complete_dropped conv fullText uuid text st :
  onMessageStream marked conv text (onMessageComplete conv fullText uuid st)
  = onMessageComplete conv fullText uuid st.
Proof.
  destruct (findIndex (fun t => strict_eq (conversationId t) (JStr conv)) (tabs st))
    as [i|] eqn:Hfind.
  - rewrite (onMessageComplete_found _ _ _ _ _ Hfind).
    destruct (findIndex_Some _ _ _ Hfind) as (tab & Htab & _).
    unfold onMessageStream.
    change (tabs (saveTabs ?s)) with (tabs s).
    assert (E : findIndex (fun t => strict_eq (conversationId t) (JStr conv))
                  (tabs (update_tab i (completed fullText uuid) st)) = Some i).
    { unfold update_tab. simpl. rewrite findIndex_alter; [exact Hfind|].
      intros x. now destruct (completed_fields fullText uuid x) as (-> & _). }
    rewrite E, update_tab_lookup, Htab. simpl.
    now destruct (completed_fields fullText uuid tab) as (_ & _ & -> & _).
  - unfold onMessageComplete. rewrite Hfind.
    unfold onMessageStream. now rewrite Hfind.
Qed.

End Completion.

Lemma onMessageComplete_witness :
  tabs (onMessageComplete "c1" "Hello" "m9" streaming) !! 0
  = Some (completed "Hello" "m9"
            (set_isLoading true
               (set_streamingElement (Some 1)
                  (set_messages [0; 1]
                     (demo_tab "u1" "Chat 1" (JStr "c1") (JStr "p1")))))) /\
  nodes (onMessageComplete "c1" "Hello" "m9" streaming) = nodes streaming.
Proof.
  destruct (proj2 (onMessageComplete_correct "c1" "Hello" "m9" streaming) 0 _
              eq_refl eq_refl) as (H & _ & Hn & _).
  split; [exact H|exact Hn].
Defined.

(** ** A send followed by the events of its reply *)


Section Reply.
Variable marked : string -> string.

Lemma sent_tab_found br st i tab tab0 value c :
  getActiveTab st = Some i ->
  tabs st !! i = Some tab ->
  inputValue (page st) = Some value ->
  nonempty (trim value) = true ->
  withConversation br tab = Some tab0 ->
  conversationId tab0 = JStr c ->
  first_with_conversation c i st ->
  exists out st1,
    sendMessage_begin marked br st = (Some (i, out), st1) /\
    tabs st1 !! i = Some (sending (length (nodes st)) tab0) /\
    findIndex (fun t => strict_eq (conversationId t) (JStr c)) (tabs st1) = Some i /\
    nodes st1
    = nodes st ++ [{| role := user; innerHTML := escapeHtml_string (trim value) |};
                   {| role := assistant; innerHTML := EmptyString |}] /\
    (forall j, j <> i -> tabs st1 !! j = tabs st !! j).
Proof.
  intros Hact Htab Hin Hmsg Hconv Hc Hfirst.
  destruct (sendMessage_begin_effect marked br st i tab tab0 value
              Hact Htab Hin Hmsg Hconv)
    as (st1 & Hb & Hn & Ht & Ho & _).
  eexists _, st1. split; [exact Hb|]. split; [exact Ht|].
  split; [|split; [exact Hn|exact Ho]].
  apply (findIndex_first _ _ _ _ Ht).
  - change (strict_eq (conversationId tab0) (JStr c) = true).
    rewrite Hc. apply String.eqb_refl.
  - intros j y Hj Hy. rewrite Ho in Hy by lia. exact (Hfirst j y Hj Hy).
Qed.

(** X13.  A conversation reaches storage when its first reply is
    complete.  After a send that the bridge accepts and the completion
    event of the tab's conversation, the sending tab is no longer
    loading and has no placeholder, its parent for the next message is
    the uuid of the reply, the page holds the two nodes of the
    exchange, and the snapshot in storage is that of the registry: the
    entry of the tab carries the conversation, also when the send has
    just created it, and the new parent. *)
Theorem conversation_saved_at_completion br st i tab tab0 value c fullText uuid :
  getActiveTab st = Some i ->
  tabs st !! i = Some tab ->
  inputValue (page st) = Some value ->
  nonempty (trim value) = true ->
  withConversation br tab = Some tab0 ->
  claude.sendMessage br = Resolve tt ->
  conversationId tab0 = JStr c ->
  first_with_conversation c i st ->
  let st1 := snd (sendMessage marked br st) in
  let st2 := onMessageComplete c fullText uuid st1 in
  localStorage st1 = localStorage st /\
  tabs st2 !! i = Some (completed fullText uuid (sending (length (nodes st)) tab0)) /\
  nodes st2 = nodes st1 /\
  synced st2 /\
  exists entries,
    chatTabs (localStorage st2) = Some (Json (JArr entries)) /\
    ((fun e => prop e "conversationId") <$> entries !! i) = Some (JStr c) /\
    ((fun e => prop e "parentMessageUuid") <$> entries !! i) = Some (JStr uuid).
Proof.
  intros Hact Htab Hin Hmsg Hconv Hsend Hc Hfirst.
  destruct (sendMessage_begin_effect marked br st i tab tab0 value
              Hact Htab Hin Hmsg Hconv)
    as (st1' & Hb' & _ & _ & _ & _ & _ & Hl & _).
  destruct (sent_tab_found br st i tab tab0 value c
              Hact Htab Hin Hmsg Hconv Hc Hfirst)
    as (out & st1 & Hb & Ht & Hfind & Hn & _).
  rewrite Hb in Hb'. injection Hb' as _ <-.
  unfold sendMessage. rewrite Hb, Hsend. cbn [snd]. cbv zeta.
  destruct (onMessageComplete_effect c fullText uuid st1 i _ Hfind Ht)
    as (H2 & _ & Hn2 & _ & Hs2).
  split; [exact Hl|]. split; [exact H2|]. split; [exact Hn2|]. split; [exact Hs2|].
  rewrite Hs2, snapshot_entries. eexists. split; [reflexivity|].
  rewrite !list_lookup_fmap, H2.
  destruct (completed_fields fullText uuid (sending (length (nodes st)) tab0))
    as (Hcv & _ & _ & _ & Hp & _).
  split.
  - change (Some (prop (jsonify (tabData (completed fullText uuid
                                            (sending (length (nodes st)) tab0))))
                       "conversationId") = Some (JStr c)).
    f_equal. apply saved_conversation. now rewrite Hcv.
  - change (Some (prop (jsonify (tabData (completed fullText uuid
                                            (sending (length (nodes st)) tab0))))
                       "parentMessageUuid") = Some (JStr uuid)).
    f_equal. now apply saved_parent.
Qed.

(** X14.  After a send that the bridge rejects, the placeholder shows
    the error marker, but the tab still points at it: a stream event of
    the conversation that arrives afterwards replaces the error marker
    by the rendering of its text. *)
Theorem late_stream_overwrites_error br st i tab tab0 value c e :
  getActiveTab st = Some i ->
  tabs st !! i = Some tab ->
  inputValue (page st) = Some value ->
  nonempty (trim value) = true ->
  withConversation br tab = Some tab0 ->
  claude.sendMessage br = Reject e ->
  conversationId tab0 = JStr c ->
  first_with_conversation c i st ->
  let st' := snd (sendMessage marked br st) in
  let el := S (length (nodes st)) in
  (innerHTML <$> nodes st' !! el) = Some (errorMarker e) /\
  forall text,
    (innerHTML <$> nodes (onMessageStream marked c text st') !! el)
    = Some (parseMarkdown marked text).
Proof.
  intros Hact Htab Hin Hmsg Hconv Hsend Hc Hfirst.
  destruct (sent_tab_found br st i tab tab0 value c
              Hact Htab Hin Hmsg Hconv Hc Hfirst)
    as (out & st1 & Hb & Ht & Hfind & Hn & Ho).
  unfold sendMessage. rewrite Hb, Hsend. cbn [snd]. cbv zeta.
  assert (Hlt : S (length (nodes st)) < length (nodes st1)).
  { rewrite Hn, length_app. simpl. lia. }
  destruct (sendMessage_rejected_state i e st1 _ (S (length (nodes st))) Ht eq_refl Hlt)
    as [Ht' Hmark].
  split; [exact Hmark|].
  intros text.
  assert (Hs : streaming_at (sendMessage_rejected i e st1) c i (S (length (nodes st)))).
  { split; [|split].
    - apply (findIndex_first _ _ _ _ Ht').
      + change (strict_eq (conversationId tab0) (JStr c) = true).
        rewrite Hc. apply String.eqb_refl.
      + intros j y Hj Hy.
        assert (E : tabs (sendMessage_rejected i e st1) !! j = tabs st1 !! j).
        { unfold sendMessage_rejected. rewrite Ht.
          rewrite update_tab_other by lia. reflexivity. }
        rewrite E, Ho in Hy by lia. exact (Hfirst j y Hj Hy).
    - now rewrite Ht'.
    - unfold sendMessage_rejected. rewrite Ht. simpl.
      now rewrite length_alter. }
  apply (onMessageStream_step marked _ c i _ text Hs).
Qed.

End Reply.

Lemma conversation_saved_witness :
  exists entries,
    chatTabs (localStorage
                (onMessageComplete "c1" "Hi" "m1"
                   (snd (sendMessage demo_marked (with_history []) one_tab))))
    = Some (Json (JArr entries)) /\
    ((fun e => prop e "conversationId") <$> entries !! 0) = Some (JStr "c1") /\
    ((fun e => prop e "parentMessageUuid") <$> entries !! 0) = Some (JStr "m1").
Proof.
  apply (conversation_saved_at_completion demo_marked (with_history []) one_tab 0
           (demo_tab "u1" "Chat 1" JNull JNull)
           (demo_tab "u1" "Chat 1" (JStr "c1") (JStr "p1")) "hello" "c1" "Hi" "m1"
           eq_refl eq_refl eq_refl eq_refl eq_refl eq_refl eq_refl).
  intros j t Hj. lia.
Defined.

Lemma late_stream_witness :
  (innerHTML <$>
     nodes (onMessageStream demo_marked "c1" "late"
              (snd (sendMessage demo_marked failing_send returning))) !! 1)
  = Some "<p>late</p>".
Proof.
  apply (late_stream_overwrites_error demo_marked failing_send returning 0
           (demo_tab "u1" "Chat 1" (JStr "c1") (JStr "p1"))
           (demo_tab "u1" "Chat 1" (JStr "c1") (JStr "p1")) "hello" "c1" "network down"
           eq_refl eq_refl eq_refl eq_refl eq_refl eq_refl eq_refl).
  intros j t Hj. lia.
Defined.

(** ** Attachments *)

Lemma payload_imap (randomUUID : nat -> string) (results : list AttachmentPayload) :
  map payload
    (imap (fun k res => {| attachment_id := randomUUID k; payload := res |}) results)
  = results.
Proof.
  revert randomUUID. induction results as [|r results IH]; intros u; [reflexivity|].
  cbn. f_equal. apply (IH (fun k => u (S k))).
Qed.

Lemma handleFileSelection_resolved uploadAttachments randomUUID st files results i tab :
  getActiveTab st = Some i ->
  tabs st !! i = Some tab ->
  files <> [] ->
  uploadAttachments (map uploadPayload files) = Resolve results ->
  let st' := handleFileSelection uploadAttachments randomUUID (Some files) st in
  exists added,
    tabs st' !! i
    = Some (set_pendingAttachments (pendingAttachments tab ++ added) tab) /\
    map payload added = results /\
    (forall k a, added !! k = Some a -> attachment_id a = randomUUID k) /\
    (forall j, j <> i -> tabs st' !! j = tabs st !! j) /\
    getActiveTab st' = Some i /\
    nodes st' = nodes st /\ page st' = page st.
Proof.
  intros Hact Htab Hne Hup. cbv zeta.
  unfold handleFileSelection. rewrite Hact.
  destruct files as [|file others]; [contradiction|]. rewrite Hup.
  exists (imap (fun k res => {| attachment_id := randomUUID k; payload := res |})
               results).
  split; [now rewrite update_tab_lookup, Htab|].
  split; [apply payload_imap|].
  split.
  { intros k a Hk. rewrite list_lookup_imap in Hk.
    destruct (results !! k); [|discriminate]. simpl in Hk. now injection Hk as <-. }
  split; [intros j Hj; apply update_tab_other; congruence|].
  split; [|split; reflexivity].
  rewrite getActiveTab_update_tab; [exact Hact|reflexivity].
Qed.

(** X15.  Selecting files, with a tab active: when the bridge accepts
    the upload, the attachments it answers are appended, in its order
    and each with an identifier of its own, after those already pending
    on the tab, which stay as they are, and no other tab is touched;
    when the upload is rejected, or no file was selected, nothing
    changes. *)
Theorem upload_appends uploadAttachments randomUUID st :
  handleFileSelection uploadAttachments randomUUID None st = st /\
  handleFileSelection uploadAttachments randomUUID (Some []) st = st /\
  (forall files reason,
     uploadAttachments (map uploadPayload files) = Reject reason ->
     handleFileSelection uploadAttachments randomUUID (Some files) st = st) /\
  (forall files results i tab,
     getActiveTab st = Some i ->
     tabs st !! i = Some tab ->
     files <> [] ->
     uploadAttachments (map uploadPayload files) = Resolve results ->
     let st' := handleFileSelection uploadAttachments randomUUID (Some files) st in
     exists added,
       tabs st' !! i
       = Some (set_pendingAttachments (pendingAttachments tab ++ added) tab) /\
       map payload added = results /\
       (forall k a, added !! k = Some a -> attachment_id a = randomUUID k) /\
       (forall j, j <> i -> tabs st' !! j = tabs st !! j) /\
       getActiveTab st' = Some i /\
       nodes st' = nodes st /\ page st' = page st).
Proof.
  split; [|split; [|split]].
  - unfold handleFileSelection. destruct (getActiveTab st); reflexivity.
  - unfold handleFileSelection. destruct (getActiveTab st); reflexivity.
  - intros files reason H. unfold handleFileSelection.
    destruct (getActiveTab st); [|reflexivity].
    destruct files; [reflexivity|]. now rewrite H.
  - intros files results i tab. apply handleFileSelection_resolved.
Qed.

Lemma filter_delete_id (l : list UploadedAttachment) k a :
  NoDup (map attachment_id l) ->
  l !! k = Some a ->
  filter (fun x => attachment_id x <> attachment_id a) l = delete k l.
Proof.
  revert k. induction l as [|b l IH]; intros k Hnd Hk; [discriminate|].
  change (NoDup (attachment_id b :: (attachment_id <$> l))) in Hnd.
  apply list.NoDup_cons in Hnd as [Hb Hnd].
  destruct k as [|k]; simpl in Hk.
  - injection Hk as ->. rewrite filter_cons_False by (intros H; now apply H).
    cbn. clear IH Hnd. induction l as [|c l IH]; [reflexivity|].
    rewrite filter_cons_True.
    + f_equal. apply IH. intros H. apply Hb. cbn. now right.
    + intros E. apply Hb. cbn. rewrite <- E. now left.
  - rewrite filter_cons_True.
    + cbn. f_equal. now apply IH.
    + intros E. apply Hb. rewrite E.
      apply list_elem_of_fmap_2. now apply list_elem_of_lookup_2 in Hk.
Qed.

(** X16.  A click on the remove button of a pending attachment takes
    out of the tab's pending list every attachment with the button's
    identifier and nothing else, the others keeping their order; the
    identifiers being distinct, as [crypto.randomUUID] makes them, this
    removes exactly the attachment the button belongs to.  No other tab
    and no message is touched. *)
Theorem attachment_removed i id st tab :
  tabs st !! i = Some tab ->
  nonempty id = true ->
  let st' := onAttachmentRemoveClick i id st in
  exists rest,
    tabs st' !! i = Some (set_pendingAttachments rest tab) /\
    (forall a, a ∈ rest <-> attachment_id a <> id /\ a ∈ pendingAttachments tab) /\
    sublist rest (pendingAttachments tab) /\
    (forall k a,
       NoDup (map attachment_id (pendingAttachments tab)) ->
       pendingAttachments tab !! k = Some a ->
       attachment_id a = id ->
       rest = delete k (pendingAttachments tab)) /\
    (forall j, j <> i -> tabs st' !! j = tabs st !! j) /\
    nodes st' = nodes st.
Proof.
  intros Htab Hid. cbv zeta. unfold onAttachmentRemoveClick. rewrite Hid.
  exists (filter (fun a => attachment_id a <> id) (pendingAttachments tab)).
  split; [now rewrite update_tab_lookup, Htab|].
  split; [intros a; rewrite list_elem_of_filter; tauto|].
  split; [apply sublist_filter|].
  split; [|split; [intros j Hj; apply update_tab_other; congruence|reflexivity]].
  intros k a Hnd Hk <-. now apply filter_delete_id.
Qed.

Lemma upload_witness :
  exists added,
    tabs (handleFileSelection (fun _ => Resolve [payload demo_attachment])
            (fun _ => "a2")
            (Some [demo_file])
            with_attachment) !! 0
    = Some (set_pendingAttachments ([demo_attachment] ++ added)
              (set_pendingAttachments [demo_attachment]
                 (demo_tab "u1" "Chat 1" (JStr "c1") (JStr "p1")))) /\
    map payload added = [payload demo_attachment].
Proof.
  destruct (proj2 (proj2 (proj2
              (upload_appends (fun _ => Resolve [payload demo_attachment])
                 (fun _ => "a2") with_attachment)))
              [demo_file]
              [payload demo_attachment] 0 _ eq_refl eq_refl)
    as (added & H & Hp & _); [discriminate|reflexivity|].
  exists added. split; [exact H|exact Hp].
Defined.

Lemma attachment_removed_witness :
  exists rest,
    tabs (onAttachmentRemoveClick 0 "a1" with_attachment) !! 0
    = Some (set_pendingAttachments rest
              (set_pendingAttachments [demo_attachment]
                 (demo_tab "u1" "Chat 1" (JStr "c1") (JStr "p1")))) /\
    rest = [].
Proof.
  destruct (attachment_removed 0 "a1" with_attachment _ eq_refl eq_refl)
    as (rest & H & _ & _ & Hd & _).
  exists rest. split; [exact H|].
  apply (Hd 0 demo_attachment); [|reflexivity|reflexivity].
  apply list.NoDup_cons. split; [apply not_elem_of_nil|apply NoDup_nil_2].
Defined.

Section UploadThenSend.
Variable marked : string -> string.

(** X17.  Files selected before a send go out with it: after an upload
    that the bridge accepted, the message handed to the bridge carries
    the payloads that were pending before followed by those the upload
    answered, and the tab's pending list is empty afterwards. *)
Theorem upload_then_send uploadAttachments randomUUID br st i tab files results value :
  getActiveTab st = Some i ->
  tabs st !! i = Some tab ->
  files <> [] ->
  uploadAttachments (map uploadPayload files) = Resolve results ->
  inputValue (page st) = Some value ->
  nonempty (trim value) = true ->
  (truthy (conversationId tab) = true \/
   exists c p, claude.createConversation br (model tab) = Resolve (c, p)) ->
  let st1 := handleFileSelection uploadAttachments randomUUID (Some files) st in
  exists out,
    fst (sendMessage marked br st1) = Some out /\
    out_attachments out = map payload (pendingAttachments tab) ++ results /\
    (pendingAttachments <$> tabs (snd (sendMessage marked br st1)) !! i) = Some [].
Proof.
  intros Hact Htab Hne Hup Hin Hmsg Hconv. cbv zeta.
  destruct (handleFileSelection_resolved uploadAttachments randomUUID st
              files results i tab Hact Htab Hne Hup)
    as (added & Ht1 & Hp & _ & _ & Hact1 & _ & Hpage).
  set (st1 := handleFileSelection uploadAttachments randomUUID (Some files) st) in *.
  assert (Hin1 : inputValue (page st1) = Some value) by now rewrite Hpage.
  destruct (sendMessage_begin_sends marked br st1 i _ value Hact1 Ht1 Hin1 Hmsg Hconv)
    as (out & st2 & tab2 & el & Hb & Hout & _ & Ht2 & Hp2 & _ & Hs2 & Hlt & _).
  exists out. unfold sendMessage. rewrite Hb.
  assert (Ho : out_attachments out = map payload (pendingAttachments tab) ++ results).
  { rewrite Hout. cbn [pendingAttachments set_pendingAttachments].
    now rewrite map_app, Hp. }
  destruct (claude.sendMessage br) as [[]|e]; cbn [fst snd].
  - split; [reflexivity|]. split; [exact Ho|]. rewrite Ht2. simpl. now rewrite Hp2.
  - split; [reflexivity|]. split; [exact Ho|].
    destruct (sendMessage_rejected_state i e st2 tab2 el Ht2 Hs2 Hlt) as [-> _].
    simpl. now rewrite Hp2.
Qed.

End UploadThenSend.

Lemma upload_then_send_witness :
  exists out,
    fst (sendMessage demo_marked failing_send
           (handleFileSelection (fun _ => Resolve [payload demo_attachment])
              (fun _ => "a2") (Some [demo_file]) with_attachment)) = Some out /\
    out_attachments out = [payload demo_attachment; payload demo_attachment].
Proof.
  destruct (upload_then_send demo_marked (fun _ => Resolve [payload demo_attachment])
              (fun _ => "a2") failing_send with_attachment 0 _ [demo_file]
              [payload demo_attachment] "hello" eq_refl eq_refl)
    as (out & H & Ho & _);
    [discriminate|reflexivity|reflexivity|reflexivity|left; reflexivity|].
  exists out. split; [exact H|exact Ho].
Defined.

(** ** The terminal of a CLI tab *)

Lemma typeAll_app l1 : forall l2 buffer,
  typeAll (l1 ++ l2) buffer
  = (fst (typeAll l2 (fst (typeAll l1 buffer))),
     snd (typeAll l1 buffer) ++ snd (typeAll l2 (fst (typeAll l1 buffer)))).
Proof.
  induction l1 as [|chunk l1 IH]; intros l2 buffer.
  - simpl. now destruct (typeAll l2 buffer).
  - cbn [app typeAll].
    destruct (onTerminalInput chunk buffer) as [[b ops] sub].
    rewrite (IH l2 b).
    destruct (typeAll l1 b) as [f later]. cbn [fst snd].
    destruct (typeAll l2 f) as [f' later']. cbn [fst snd].
    now destruct sub.
Qed.

Lemma onTerminalInput_regular chunk buffer :
  regular chunk = true ->
  onTerminalInput chunk buffer = (buffer +:+ chunk, [Write chunk], None).
Proof.
  unfold regular, onTerminalInput. intros H.
  apply andb_prop in H as [H H3]. apply andb_prop in H as [H1 H2].
  apply negb_true_iff in H1, H2, H3. now rewrite H1, H2, H3.
Qed.

Lemma typeAll_regular chunks : forall buffer,
  forallb regular chunks = true ->
  typeAll chunks buffer = (buffer +:+ typed chunks, []).
Proof.
  induction chunks as [|chunk chunks IH]; intros buffer H.
  - simpl. now rewrite append_empty_r.
  - simpl in H. apply andb_prop in H as [Hc H].
    cbn [typeAll]. rewrite (onTerminalInput_regular _ _ Hc), (IH _ H).
    cbn [typed fold_right]. now rewrite append_assoc.
Qed.

Lemma dropLast_snoc s c : dropLast (s +:+ String c EmptyString) = s.
Proof.
  unfold dropLast. rewrite chars_append. simpl.
  rewrite removelast_last. apply string_of_list_ascii_of_string.
Qed.

(** X18.  Line editing in the terminal.  Chunks of text accumulate in
    the buffer in the order they are typed, and nothing is submitted
    while they do.  Enter submits the line without the white space
    around it and empties the buffer, unless the line is blank, in
    which case nothing is submitted and the buffer is kept.  Ctrl+C
    empties the buffer without submitting, and the delete key takes
    back a character just typed. *)
Theorem terminal_line_editing chunks buffer :
  forallb regular chunks = true ->
  let line := buffer +:+ typed chunks in
  typeAll chunks buffer = (line, []) /\
  typeAll (chunks ++ [cr]) buffer
  = (if nonempty (trim line) then (EmptyString, [trim line]) else (line, [])) /\
  typeAll (chunks ++ [ETX]) buffer = (EmptyString, []) /\
  (forall c, regular (String c EmptyString) = true ->
             typeAll (chunks ++ [String c EmptyString; DEL]) buffer = (line, [])).
Proof.
  intros H. cbv zeta. pose proof (typeAll_regular chunks buffer H) as E.
  split; [exact E|]. split; [|split].
  - rewrite typeAll_app, E. cbn [fst snd app typeAll].
    unfold onTerminalInput. rewrite String.eqb_refl.
    now destruct (nonempty (trim (buffer +:+ typed chunks))).
  - rewrite typeAll_app, E. reflexivity.
  - intros c Hc. rewrite typeAll_app, E. cbn [fst snd app typeAll].
    rewrite (onTerminalInput_regular _ _ Hc).
    unfold onTerminalInput.
    change (String.eqb DEL cr) with false.
    rewrite String.eqb_refl.
    destruct ((buffer +:+ typed chunks) +:+ String c EmptyString) eqn:Eb.
    + exfalso. apply (f_equal String.length) in Eb.
      rewrite !length_append in Eb. simpl in Eb. lia.
    + cbn [nonempty]. rewrite <- Eb, dropLast_snoc. reflexivity.
Qed.

Lemma terminal_witness :
  typeAll (["h"; "i"; " "] ++ [cr]) EmptyString = (EmptyString, ["hi"]) /\
  typeAll ([" "; " "] ++ [cr]) EmptyString = ("  ", []).
Proof.
  split.
  - apply (proj1 (proj2 (terminal_line_editing ["h"; "i"; " "] EmptyString eq_refl))).
  - apply (proj1 (proj2 (terminal_line_editing [" "; " "] EmptyString eq_refl))).
Defined.

Section TerminalMessageFacts.
Variable marked : string -> string.

Lemma withConversation_ext br t t0 (g : ChatTab -> ChatTab) :
  (forall x, conversationId (g x) = conversationId x) ->
  (forall x, model (g x) = model x) ->
  (forall x v c, g (set_parentMessageUuid v (set_conversationId c x))
                 = set_parentMessageUuid v (set_conversationId c (g x))) ->
  withConversation br t = Some t0 ->
  withConversation br (g t) = Some (g t0).
Proof.
  intros Hc Hm Hp. unfold withConversation. rewrite Hc, Hm.
  destruct (truthy (conversationId t)); [now intros [= <-]|].
  destruct (claude.createConversation br (model t)) as [[c p]|]; [|discriminate].
  intros [= <-]. now rewrite Hp.
Qed.

Lemma sendMessage_aborts br st i tab :
  getActiveTab st = Some i ->
  tabs st !! i = Some tab ->
  withConversation br tab = None ->
  sendMessage marked br st = (None, st).
Proof.
  intros Hact Htab Hconv. unfold sendMessage, sendMessage_begin.
  rewrite Hact, Htab. destruct (inputValue (page st)) as [value|]; [|reflexivity].
  destruct (negb (nonempty (trim value))); [reflexivity|].
  unfold withConversation in Hconv.
  destruct (truthy (conversationId tab)); [discriminate|].
  destruct (claude.createConversation br (model tab)) as [[c p]|]; [discriminate|].
  reflexivity.
Qed.

(** X19.  A line submitted in the terminal of the active CLI tab is
    recorded in the history of the tab twice.  [handleCLIMessage] adds
    it as a user message and then runs [sendMessage], which adds the
    input again before the placeholder of the reply: for a tab that
    has a conversation nothing is awaited on the way, and when the
    bridge is called the three nodes have been appended and the tab,
    and no other, records them.  The message goes to the bridge once,
    without the white space around it, and whatever the input element
    held is lost: it ends empty.  For a tab that has no conversation
    the message goes to the bridge once as well, for the conversation
    the bridge creates; and when the bridge fails to create one,
    nothing is sent but the first copy stays. *)
Theorem cli_message_recorded_twice br st i tab message previous :
  getActiveTab st = Some i ->
  tabs st !! i = Some tab ->
  is_some (terminal tab) = true ->
  inputValue (page st) = Some previous ->
  nonempty (trim message) = true ->
  let n := length (nodes st) in
  (truthy (conversationId tab) = true ->
   exists out st1,
     handleCLIMessage_begin marked br i message st = (Some (i, out), st1) /\
     out_message out = trim message /\
     out_conversation out = conversationId tab /\
     nodes st1
     = nodes st ++
       [{| role := user; innerHTML := escapeHtml_string message |};
        {| role := user; innerHTML := escapeHtml_string (trim message) |};
        {| role := assistant; innerHTML := EmptyString |}] /\
     (messages <$> tabs st1 !! i) = Some (messages tab ++ [n; S n; S (S n)]) /\
     (forall j, j <> i -> tabs st1 !! j = tabs st !! j) /\
     fst (handleCLIMessage marked br i message st) = Some out /\
     inputValue (page (snd (handleCLIMessage marked br i message st)))
     = Some EmptyString) /\
  (forall c p,
     truthy (conversationId tab) = false ->
     claude.createConversation br (model tab) = Resolve (c, p) ->
     exists out,
       fst (handleCLIMessage marked br i message st) = Some out /\
       out_message out = trim message /\
       out_conversation out = JStr c) /\
  (forall reason,
     truthy (conversationId tab) = false ->
     claude.createConversation br (model tab) = Reject reason ->
     exists st',
       handleCLIMessage marked br i message st = (None, st') /\
       nodes st'
       = nodes st ++ [{| role := user; innerHTML := escapeHtml_string message |}] /\
       (messages <$> tabs st' !! i) = Some (messages tab ++ [n]) /\
       inputValue (page st') = Some EmptyString).
Proof.
  intros Hact Htab Hterm Hin Hmsg. cbv zeta.
  unfold handleCLIMessage, handleCLIMessage_begin. rewrite Htab.
  destruct (terminal tab) as [term|] eqn:Et; [clear Hterm|discriminate].
  set (ops := [Writeln _]).
  set (st1 := update_tab i (terminal_do ops) st).
  assert (Hact1 : getActiveTab st1 = Some i).
  { unfold st1. rewrite getActiveTab_update_tab; [exact Hact|].
    intros t. now destruct (terminal_do_fields ops t) as (_ & _ & -> & _). }
  assert (Htab1 : tabs st1 !! i = Some (terminal_do ops tab)).
  { unfold st1. now rewrite update_tab_lookup, Htab. }
  rewrite (addMessage_full marked user message false st1 i Hact1). cbn [snd].
  change (nodes st1) with (nodes st).
  set (u1 := {| role := user; innerHTML := escapeHtml_string message |}).
  set (g := fun t => set_messages (messages t ++ [length (nodes st)]) t).
  set (st2 := update_tab i g (set_nodes (nodes st ++ [u1]) st1)).
  change (inputValue (page st2)) with (inputValue (page st)). rewrite Hin.
  set (st2i := set_inputValue (Some message) st2).
  assert (Hact2 : getActiveTab st2i = Some i).
  { unfold st2i, st2.
    change (getActiveTab (update_tab i g (set_nodes (nodes st ++ [u1]) st1)) = Some i).
    rewrite getActiveTab_update_tab; [exact Hact1|reflexivity]. }
  assert (Htab2 : tabs st2i !! i = Some (g (terminal_do ops tab))).
  { unfold st2i, st2. change (tabs (set_inputValue ?v ?s)) with (tabs s).
    rewrite update_tab_lookup. change (tabs (set_nodes ?l ?s)) with (tabs s).
    now rewrite Htab1. }
  assert (Hoth2 : forall j, j <> i -> tabs st2i !! j = tabs st !! j).
  { intros j Hj. unfold st2i, st2. change (tabs (set_inputValue ?v ?s)) with (tabs s).
    rewrite update_tab_other by congruence.
    change (tabs (set_nodes ?l ?s)) with (tabs s).
    unfold st1. apply update_tab_other. congruence. }
  assert (Hn2 : nodes st2i = nodes st ++ [u1]) by reflexivity.
  assert (Hmsgs : messages (terminal_do ops tab) = messages tab).
  { unfold terminal_do. now rewrite Et. }
  assert (Hcid : forall x, conversationId (g (terminal_do ops x)) = conversationId x).
  { intros x. unfold g, terminal_do. now destruct (terminal x). }
  assert (Hmod : forall x, model (g (terminal_do ops x)) = model x).
  { intros x. unfold g, terminal_do. now destruct (terminal x). }
  split; [|split].
  - intros Hconv.
    assert (Hconv2 : withConversation br (g (terminal_do ops tab))
                     = Some (g (terminal_do ops tab))).
    { unfold withConversation. now rewrite Hcid, Hconv. }
    destruct (sendMessage_begin_effect marked br st2i i _ _ message
                Hact2 Htab2 eq_refl Hmsg Hconv2)
      as (s1 & Hb & Hn & Ht & Ho & _ & Hi & _).
    rewrite Hn2 in Hn, Ht. rewrite length_app, Nat.add_1_r in Ht.
    unfold sendMessage. rewrite Hb.
    eexists _, s1. split; [reflexivity|].
    split; [reflexivity|]. split; [apply Hcid|].
    split; [|split; [|split; [|split]]].
    + rewrite Hn, <- app_assoc. reflexivity.
    + rewrite Ht. unfold sending, g. simpl. rewrite Hmsgs, <- app_assoc. reflexivity.
    + intros j Hj. rewrite (Ho j Hj). now apply Hoth2.
    + now destruct (claude.sendMessage br).
    + now destruct (claude.sendMessage br).
  - intros c p Hconv Hcreate.
    assert (Hconv2 : withConversation br (g (terminal_do ops tab))
                     = Some (set_parentMessageUuid (JStr p)
                               (set_conversationId (JStr c) (g (terminal_do ops tab))))).
    { unfold withConversation. now rewrite Hcid, Hmod, Hconv, Hcreate. }
    destruct (sendMessage_begin_effect marked br st2i i _ _ message
                Hact2 Htab2 eq_refl Hmsg Hconv2)
      as (s1 & Hb & _).
    unfold sendMessage. rewrite Hb.
    eexists. split; [now destruct (claude.sendMessage br)|].
    split; reflexivity.
  - intros reason Hconv Hcreate.
    assert (Hconv2 : withConversation br (g (terminal_do ops tab)) = None).
    { unfold withConversation. now rewrite Hcid, Hmod, Hconv, Hcreate. }
    rewrite (sendMessage_aborts br st2i i _ Hact2 Htab2 Hconv2).
    eexists. split; [reflexivity|]. split; [reflexivity|]. split; [|reflexivity].
    change (tabs (set_inputValue ?v ?s)) with (tabs s). rewrite Htab2.
    unfold g. simpl. now rewrite Hmsgs.
Qed.

End TerminalMessageFacts.

Lemma cli_message_witness :
  (exists out st1,
     handleCLIMessage_begin demo_marked (with_history []) 0 "hi"
       (update_tab 0 (set_conversationId (JStr "c1")) cli_tab)
     = (Some (0, out), st1) /\
     nodes st1 = [{| role := user; innerHTML := "hi" |};
                  {| role := user; innerHTML := "hi" |};
                  {| role := assistant; innerHTML := EmptyString |}] /\
     (messages <$> tabs st1 !! 0) = Some [0; 1; 2]) /\
  (exists out,
     fst (handleCLIMessage demo_marked (with_history []) 0 "hi" cli_tab) = Some out /\
     out_message out = "hi" /\ out_conversation out = JStr "c1") /\
  (exists st',
     handleCLIMessage demo_marked offline 0 "hi" cli_tab = (None, st') /\
     nodes st' = [{| role := user; innerHTML := "hi" |}]).
Proof.
  split; [|split].
  - destruct (proj1 (cli_message_recorded_twice demo_marked (with_history [])
                       (update_tab 0 (set_conversationId (JStr "c1")) cli_tab) 0 _
                       "hi" "hello" eq_refl eq_refl eq_refl eq_refl eq_refl) eq_refl)
      as (out & st1 & H & _ & _ & Hn & Hm & _).
    exists out, st1. split; [exact H|]. split; [exact Hn|exact Hm].
  - apply (proj1 (proj2 (cli_message_recorded_twice demo_marked (with_history [])
                           cli_tab 0 _ "hi" "hello"
                           eq_refl eq_refl eq_refl eq_refl eq_refl))
             "c1" "p1" eq_refl eq_refl).
  - destruct (proj2 (proj2 (cli_message_recorded_twice demo_marked offline cli_tab 0 _
                              "hi" "hello" eq_refl eq_refl eq_refl eq_refl eq_refl))
                "offline" eq_refl eq_refl)
      as (st' & H & Hn & _).
    exists st'. split; [exact H|exact Hn].
Defined.

(** ** Markdown with citations *)

Lemma substring_app_l a n p q :
  a + n <= String.length p -> substring a n (p +:+ q) = substring a n p.
Proof.
  revert a n. induction p as [|c p IH]; intros a n H; simpl in H.
  - assert (a = 0) as -> by lia. assert (n = 0) as -> by lia.
    rewrite append_nil. now destruct q.
  - rewrite append_cons. destruct a as [|a]; simpl.
    + destruct n as [|n]; [reflexivity|]. f_equal. apply IH. simpl. lia.
    + apply IH. lia.
Qed.

Lemma substring_full t : substring 0 (String.length t) t = t.
Proof. induction t as [|c t IH]; simpl; [reflexivity|]. now rewrite IH. Qed.

Lemma substring_app_r a p q :
  a <= String.length p ->
  substring a (String.length (p +:+ q) - a) (p +:+ q)
  = substring a (String.length p - a) p +:+ q.
Proof.
  revert a. induction p as [|c p IH]; intros a H; simpl in H.
  - assert (a = 0) as -> by lia. rewrite append_nil, Nat.sub_0_r.
    rewrite substring_full. reflexivity.
  - rewrite append_cons. destruct a as [|a].
    + rewrite !Nat.sub_0_r. change (String c (p +:+ q)) with (String c p +:+ q).
      now rewrite !substring_full.
    + simpl. apply IH. lia.
Qed.

Lemma substring_prefix a n m t :
  a + n <= m -> substring a n (substring 0 m t) = substring a n t.
Proof.
  revert a n m. induction t as [|c t IH]; intros a n m H.
  - now destruct m.
  - destruct m as [|m].
    + assert (a = 0) as -> by lia. assert (n = 0) as -> by lia. reflexivity.
    + simpl. destruct a as [|a].
      * destruct n as [|n]; [reflexivity|]. f_equal. apply IH. lia.
      * apply IH. lia.
Qed.

Lemma length_substring a n t :
  a + n <= String.length t -> String.length (substring a n t) = n.
Proof.
  revert a n. induction t as [|c t IH]; intros a n H; simpl in H.
  - assert (a = 0) as -> by lia. assert (n = 0) as -> by lia. reflexivity.
  - destruct a as [|a]; simpl.
    + destruct n as [|n]; [reflexivity|]. simpl. f_equal. apply IH. simpl. lia.
    + apply IH. lia.
Qed.

Section CitationFacts.
Import markdown.

Lemma position_in_range len k :
  (0 <= k <= Z.of_nat len)%Z -> position len k = Z.to_nat k.
Proof.
  intros H. unfold position.
  destruct (k <? 0)%Z eqn:E; [apply Z.ltb_lt in E; lia|]. lia.
Qed.

Lemma cite_within text x :
  within (String.length text) x ->
  let s := Z.to_nat (default 0%Z (start_index (snd x))) in
  let e := Z.to_nat (default 0%Z (end_index (snd x))) in
  cite text x
  = substring 0 s text
    +:+ citationLink (fst x + 1) (snd x) (substring s (e - s) text)
    +:+ substring e (String.length text - e) text.
Proof.
  intros (s & e & Hs & He & Hse & Hb). destruct x as [k cit]. simpl in *.
  unfold cite. rewrite Hs, He. simpl. unfold slice.
  rewrite !position_in_range by lia.
  change (Z.to_nat 0) with 0. rewrite Nat.sub_0_r. reflexivity.
Qed.

Lemma length_cite text x :
  within (String.length text) x ->
  Z.to_nat (default 0%Z (start_index (snd x))) <= String.length (cite text x).
Proof.
  intros H. rewrite (cite_within text x H). cbv zeta.
  destruct H as (s & e & Hs & He & Hse & Hb). rewrite Hs, He in *. simpl in *.
  rewrite length_append, length_substring by lia. lia.
Qed.

Lemma cite_app p q x :
  within (String.length p) x -> cite (p +:+ q) x = cite p x +:+ q.
Proof.
  intros H.
  assert (H' : within (String.length (p +:+ q)) x).
  { destruct H as (s & e & Hs & He & Hse & Hb). exists s, e.
    rewrite length_append. repeat split; try assumption; lia. }
  rewrite (cite_within _ x H'), (cite_within _ x H). cbv zeta.
  destruct H as (s & e & Hs & He & Hse & Hb). rewrite Hs, He. simpl.
  rewrite !substring_app_l by lia.
  rewrite substring_app_r by lia.
  now rewrite !append_assoc.
Qed.

Lemma within_le b b' x : b <= b' -> within b x -> within b' x.
Proof.
  intros Hb (s & e & Hs & He & Hse & H). exists s, e. repeat split; try assumption; lia.
Qed.

Lemma before_within b x z :
  within b x -> before z x -> (exists s e, start_index (snd z) = Some s /\
                                           end_index (snd z) = Some e /\
                                           (0 <= s <= e)%Z) ->
  within (Z.to_nat (default 0%Z (start_index (snd x)))) z.
Proof.
  intros (s & e & Hs & He & Hse & H) Hb (s' & e' & Hs' & He' & Hse').
  unfold before in Hb. rewrite Hs, He' in *. simpl in *.
  exists s', e'. repeat split; try assumption; lia.
Qed.

(** What the loop does to a text does not depend on what follows the
    last cited part. *)
Lemma cite_all_app l : forall p q,
  Forall (within (String.length p)) l ->
  StronglySorted (fun a b => before b a) l ->
  fold_left cite l (p +:+ q) = fold_left cite l p +:+ q.
Proof.
  induction l as [|x l IH]; intros p q Hw Hs; [reflexivity|].
  apply Forall_cons_1 in Hw as [Hx Hw].
  apply StronglySorted_inv in Hs as [Hs Hbx].
  cbn [fold_left]. rewrite (cite_app p q x Hx). apply IH; [|exact Hs].
  rewrite List.Forall_forall in Hbx. apply List.Forall_forall. intros z Hz.
  rewrite List.Forall_forall in Hw. pose proof (Hw z Hz) as Hwz.
  apply (within_le (Z.to_nat (default 0%Z (start_index (snd x))))).
  - now apply length_cite.
  - apply (before_within _ x z Hx).
    + now apply Hbx.
    + destruct Hwz as (s & e & ? & ? & ? & _). now exists s, e.
Qed.

Lemma annotate_snoc l : forall pos x stop t,
  annotate pos (l ++ [x]) stop t
  = annotate pos l (Z.to_nat (default 0%Z (start_index (snd x)))) t
    +:+ citationLink (fst x + 1) (snd x)
          (substring (Z.to_nat (default 0%Z (start_index (snd x))))
             (Z.to_nat (default 0%Z (end_index (snd x)))
              - Z.to_nat (default 0%Z (start_index (snd x)))) t)
    +:+ substring (Z.to_nat (default 0%Z (end_index (snd x))))
          (stop - Z.to_nat (default 0%Z (end_index (snd x)))) t.
Proof.
  induction l as [|[k cit] l IH]; intros pos [k' cit'] stop t.
  - reflexivity.
  - cbn [app annotate]. rewrite IH. now rewrite !append_assoc.
Qed.

(** The loop over citations given from right to left, none reaching
    into the next, wraps the parts of the text they designate. *)
Lemma cite_all_annotate l : forall m t,
  m <= String.length t ->
  Forall (within m) l ->
  StronglySorted (fun a b => before b a) l ->
  fold_left cite l (substring 0 m t) = annotate 0 (rev l) m t.
Proof.
  induction l as [|x l IH]; intros m t Hm Hw Hs.
  - simpl. now rewrite Nat.sub_0_r.
  - apply Forall_cons_1 in Hw as [Hx Hw].
    apply StronglySorted_inv in Hs as [Hs Hbx].
    assert (Hlen : String.length (substring 0 m t) = m)
      by (apply length_substring; lia).
    assert (Hx' : within (String.length (substring 0 m t)) x) by now rewrite Hlen.
    cbn [fold_left rev]. rewrite (cite_within _ x Hx'). cbv zeta.
    destruct Hx as (s & e & Hs' & He' & Hse & Hb).
    rewrite Hs', He', Hlen. cbn [default from_option id].
    rewrite cite_all_app.
    + rewrite !substring_prefix by lia.
      rewrite annotate_snoc, Hs', He'. cbn [default from_option id].
      rewrite (IH (Z.to_nat s) t); [reflexivity|lia| |exact Hs].
      rewrite List.Forall_forall in Hbx. apply List.Forall_forall. intros z Hz.
      rewrite List.Forall_forall in Hw. pose proof (Hw z Hz) as Hwz.
      pose proof (Hbx z Hz) as Hb'.
      unfold before in Hb'. rewrite Hs' in Hb'.
      destruct Hwz as (s1 & e1 & H1 & H2 & H3 & _). rewrite H2 in Hb'. simpl in Hb'.
      exists s1, e1. repeat split; try assumption; lia.
    + rewrite length_substring by lia.
      rewrite List.Forall_forall in Hbx. apply List.Forall_forall. intros z Hz.
      rewrite List.Forall_forall in Hw. pose proof (Hw z Hz) as Hwz.
      pose proof (Hbx z Hz) as Hb'.
      unfold before in Hb'. rewrite Hs' in Hb'.
      destruct Hwz as (s1 & e1 & H1 & H2 & H3 & _). rewrite H2 in Hb'. simpl in Hb'.
      exists s1, e1. repeat split; try assumption; lia.
    + exact Hs.
Qed.

End CitationFacts.

Section CitationOrder.
Import markdown.

Lemma insert_Forall (P : nat * Citation -> Prop) x l :
  P x -> Forall P l -> Forall P (insert x l).
Proof.
  intros Hx. induction 1 as [|y l Hy Hl IH]; simpl.
  - now constructor.
  - destruct (0 <? compare x y)%Z; repeat constructor; assumption.
Qed.

Lemma sort_Forall (P : nat * Citation -> Prop) l :
  Forall P l -> Forall P (sort l).
Proof.
  induction 1 as [|x l Hx Hl IH]; simpl; [constructor|]. now apply insert_Forall.
Qed.

Lemma insert_perm x l : Permutation (insert x l) (x :: l).
Proof.
  induction l as [|y l IH]; simpl; [reflexivity|].
  destruct (0 <? compare x y)%Z; [|reflexivity].
  rewrite IH. apply perm_swap.
Qed.

Lemma sort_perm l : Permutation (sort l) l.
Proof.
  induction l as [|x l IH]; simpl; [reflexivity|].
  rewrite insert_perm. now constructor.
Qed.

Lemma insert_separated len x l :
  placed len (snd x) ->
  Forall (fun y => placed len (snd y)) l ->
  Forall (fun y => apart (snd x) (snd y)) l ->
  StronglySorted (fun a b => before b a) l ->
  StronglySorted (fun a b => before b a) (insert x l).
Proof.
  intros (s & e & Hs & He & Hse & Hb) Hp Ha Hsorted.
  induction l as [|y l IH]; simpl.
  - repeat constructor.
  - apply Forall_cons_1 in Hp as [(s' & e' & Hs' & He' & Hse' & Hb') Hp].
    apply Forall_cons_1 in Ha as [Hay Ha].
    apply StronglySorted_inv in Hsorted as [Hsorted Hy].
    unfold apart in Hay. rewrite Hs, He, Hs', He' in Hay. simpl in Hay.
    unfold compare, key. rewrite Hs, Hs'. simpl.
    destruct (0 <? s' - s)%Z eqn:E.
    + apply Z.ltb_lt in E. constructor; [now apply IH|].
      apply insert_Forall; [|exact Hy].
      unfold before. rewrite He, Hs'. simpl. lia.
    + apply Z.ltb_ge in E. constructor; [now constructor|].
      constructor.
      * unfold before. rewrite He', Hs. simpl. lia.
      * rewrite List.Forall_forall in Hy. apply List.Forall_forall. intros z Hz.
        pose proof (Hy z Hz) as Hzy. unfold before in *.
        rewrite Hs' in Hzy. rewrite Hs. simpl in *. lia.
Qed.

Lemma sort_separated len l :
  Forall (fun y => placed len (snd y)) l ->
  ForallOrdPairs (fun a b => apart (snd a) (snd b)) l ->
  StronglySorted (fun a b => before b a) (sort l).
Proof.
  intros Hp Ha. induction Ha as [|x l Hx Ha IH]; simpl; [constructor|].
  apply Forall_cons_1 in Hp as [Hpx Hp].
  apply (insert_separated len); auto.
  - now apply sort_Forall.
  - now apply sort_Forall.
Qed.

Lemma imap_Forall (P : Citation -> Prop) cits : forall (f : nat -> Citation -> nat * Citation),
  (forall k c, snd (f k c) = c) ->
  Forall P cits -> Forall (fun y => P (snd y)) (imap f cits).
Proof.
  induction cits as [|c cits IH]; intros f Hf H; [constructor|].
  apply Forall_cons_1 in H as [Hc H]. cbn. constructor.
  - now rewrite Hf.
  - apply IH; [|exact H]. intros k c'. apply Hf.
Qed.

Lemma imap_ForallOrdPairs (R : Citation -> Citation -> Prop) cits :
  forall (f : nat -> Citation -> nat * Citation),
  (forall k c, snd (f k c) = c) ->
  ForallOrdPairs R cits ->
  ForallOrdPairs (fun a b => R (snd a) (snd b)) (imap f cits).
Proof.
  induction cits as [|c cits IH]; intros f Hf H; [constructor|].
  inversion H as [|? ? Hc H']; subst. cbn. constructor.
  - rewrite Hf. apply (imap_Forall (R c) cits (fun k => f (S k))); [|exact Hc].
    intros k c'. apply Hf.
  - apply IH; [|exact H']. intros k c'. apply Hf.
Qed.

Lemma StronglySorted_snoc {A} (R : A -> A -> Prop) l x :
  StronglySorted R l -> Forall (fun y => R y x) l -> StronglySorted R (l ++ [x]).
Proof.
  induction 1 as [|a l Hl IH Ha]; intros H; simpl.
  - repeat constructor.
  - apply Forall_cons_1 in H as [Hax H]. constructor; [now apply IH|].
    apply Forall_app. split; [exact Ha|]. now constructor.
Qed.

Lemma StronglySorted_rev {A} (R : A -> A -> Prop) l :
  StronglySorted (fun a b => R b a) l -> StronglySorted R (rev l).
Proof.
  induction 1 as [|a l Hl IH Ha]; simpl; [constructor|].
  apply StronglySorted_snoc; [exact IH|].
  apply List.Forall_forall. intros y Hy. rewrite List.Forall_forall in Ha.
  apply Ha. now apply in_rev.
Qed.

Lemma cite_unplaced l : forall t,
  Forall (fun y => unplaced (snd y) = true) l -> fold_left cite l t = t.
Proof.
  induction l as [|[k cit] l IH]; intros t H; [reflexivity|].
  apply Forall_cons_1 in H as [Hc H]. cbn [fold_left].
  replace (cite t (k, cit)) with t; [now apply IH|].
  unfold unplaced in Hc. simpl in Hc. unfold cite.
  destruct (start_index cit), (end_index cit); try reflexivity. discriminate.
Qed.

Lemma replaceAll_removes c r s :
  ~ In c (list_ascii_of_string r) ->
  ~ In c (list_ascii_of_string (replaceAll c r s)).
Proof.
  intros Hr. induction s as [|a s IH]; simpl; [tauto|].
  destruct (Ascii.eqb_spec a c) as [->|Hac].
  - rewrite chars_append. intros H. apply in_app_or in H. tauto.
  - simpl. intros [H|H]; [congruence|tauto].
Qed.

End CitationOrder.

Section CitationTheorems.
Variable marked : string -> string.

(** X20.  [parseMarkdown] with no citations, with an empty list of
    them, or with citations none of which has both a start and an end,
    gives what it gives for the text alone: the rendering of the text,
    or the empty string for an empty text.  And the link put in for a
    citation is an anchor whose [href] is the address of the citation
    and whose [title] is its title (the empty text for one that is
    missing), each with every double quote replaced by [&quot;]: the
    two attribute values hold no double quote, so neither can close
    its attribute; the cited text follows as it is, and then the
    number in brackets. *)
Theorem citations_without_place_ignored t :
  markdown.parseMarkdown marked t None = parseMarkdown marked t /\
  (forall cits,
     forallb markdown.unplaced cits = true ->
     markdown.parseMarkdown marked t (Some cits) = parseMarkdown marked t) /\
  (forall n cit cited,
     exists href title,
       markdown.citationLink n cit cited
       = ("<a class=" +:+ quote +:+ "citation-link" +:+ quote
          +:+ " href=" +:+ quote +:+ href +:+ quote
          +:+ " target=" +:+ quote +:+ "_blank" +:+ quote
          +:+ " title=" +:+ quote +:+ title +:+ quote +:+ ">"
          +:+ cited
          +:+ "</a><sup class=" +:+ quote +:+ "citation-num" +:+ quote +:+ ">["
          +:+ numeral n +:+ "]</sup>")%string /\
       href = replaceAll dquote "&quot;" (default EmptyString (markdown.url cit)) /\
       title = replaceAll dquote "&quot;" (default EmptyString (markdown.title cit)) /\
       ~ In dquote (list_ascii_of_string href) /\
       ~ In dquote (list_ascii_of_string title)).
Proof.
  assert (Hq : forall s, ~ In dquote (list_ascii_of_string
                                        (replaceAll dquote "&quot;" s))).
  { intros s. apply (replaceAll_removes dquote "&quot;"%string s).
    simpl. intros H.
    repeat (destruct H as [H|H]; [discriminate|]). exact H. }
  split; [reflexivity|]. split.
  - intros cits H. unfold markdown.parseMarkdown, parseMarkdown.
    destruct (nonempty t); [|reflexivity]. f_equal.
    destruct cits as [|c cs]; [reflexivity|].
    apply cite_unplaced, sort_Forall.
    apply (imap_Forall (fun c => markdown.unplaced c = true)); [reflexivity|].
    apply List.Forall_forall. rewrite forallb_forall in H. exact H.
  - intros n cit cited.
    exists (replaceAll dquote "&quot;" (default EmptyString (markdown.url cit))),
           (replaceAll dquote "&quot;" (default EmptyString (markdown.title cit))).
    split; [reflexivity|]. split; [reflexivity|]. split; [reflexivity|].
    split; apply Hq.
Qed.

(** X21.  Citations of parts of the text that are not empty and do not
    overlap, given in any order: the text handed to [marked] is the
    original text in which each citation wraps exactly the part its
    indices designate in the original, the parts in between being
    untouched.  Sorting by descending start does what it is there
    for: no index is shifted by the markup put in before.  Each
    citation is numbered by its position in the list given. *)
Theorem citations_wrap_the_parts_they_designate t cits :
  nonempty t = true ->
  Forall (markdown.placed (String.length t)) cits ->
  ForallOrdPairs markdown.apart cits ->
  exists asc,
    Permutation asc (imap pair cits) /\
    StronglySorted markdown.before asc /\
    markdown.parseMarkdown marked t (Some cits)
    = marked (markdown.annotate 0 asc (String.length t) t).
Proof.
  intros Ht Hp Ha.
  set (l := markdown.sort (imap pair cits)).
  assert (Hsorted : StronglySorted (fun a b => markdown.before b a) l).
  { apply (sort_separated (String.length t)).
    - now apply (imap_Forall (markdown.placed (String.length t))).
    - now apply (imap_ForallOrdPairs markdown.apart). }
  assert (Hw : Forall (markdown.within (String.length t)) l).
  { apply sort_Forall.
    apply (imap_Forall (fun c => markdown.within (String.length t) (0, c))); [reflexivity|].
    rewrite List.Forall_forall in Hp. apply List.Forall_forall. intros c Hc.
    destruct (Hp c Hc) as (s & e & Hs & He & Hse & Hb).
    exists s, e. simpl. repeat split; try assumption; lia. }
  exists (rev l). split; [|split].
  - rewrite <- Permutation_rev. apply sort_perm.
  - now apply StronglySorted_rev.
  - unfold markdown.parseMarkdown. rewrite Ht. f_equal.
    transitivity (fold_left markdown.cite l t).
    { destruct cits; reflexivity. }
    rewrite <- (substring_full t) at 1.
    now apply cite_all_annotate.
Qed.

End CitationTheorems.

Lemma citations_ignored_witness :
  markdown.parseMarkdown demo_marked "hello"
    (Some [{| markdown.url := Some "https://a.example"; markdown.title := None;
              markdown.start_index := Some 0%Z; markdown.end_index := None |}])
  = "<p>hello</p>" /\
  exists href title,
    markdown.citationLink 1
      {| markdown.url := Some ("a" +:+ quote +:+ "b"); markdown.title := None;
         markdown.start_index := Some 0%Z; markdown.end_index := Some 1%Z |} "x"
    = ("<a class=" +:+ quote +:+ "citation-link" +:+ quote
       +:+ " href=" +:+ quote +:+ href +:+ quote
       +:+ " target=" +:+ quote +:+ "_blank" +:+ quote
       +:+ " title=" +:+ quote +:+ title +:+ quote +:+ ">"
       +:+ "x"
       +:+ "</a><sup class=" +:+ quote +:+ "citation-num" +:+ quote +:+ ">["
       +:+ numeral 1 +:+ "]</sup>")%string /\
    href = "a&quot;b"%string /\ title = EmptyString.
Proof.
  split.
  - apply (proj1 (proj2 (citations_without_place_ignored demo_marked "hello"))).
    reflexivity.
  - destruct (proj2 (proj2 (citations_without_place_ignored demo_marked "hello")) 1
                {| markdown.url := Some ("a" +:+ quote +:+ "b"); markdown.title := None;
                   markdown.start_index := Some 0%Z; markdown.end_index := Some 1%Z |}
                "x")
      as (href & title & H & Hh & Ht & _).
    exists href, title. split; [exact H|].
    split; [rewrite Hh; reflexivity|rewrite Ht; reflexivity].
Defined.

Lemma citations_wrap_witness :
  exists asc,
    Permutation asc (imap pair demo_citations) /\
    StronglySorted markdown.before asc /\
    markdown.parseMarkdown demo_marked "hello world" (Some demo_citations)
    = demo_marked (markdown.annotate 0 asc 11 "hello world").
Proof.
  apply (citations_wrap_the_parts_they_designate demo_marked "hello world"
           demo_citations eq_refl).
  - apply List.Forall_cons; [|apply List.Forall_cons; [|apply List.Forall_nil]].
    + exists 6%Z, 11%Z. simpl. repeat split; lia.
    + exists 0%Z, 5%Z. simpl. repeat split; lia.
  - apply FOP_cons; [|apply FOP_cons; [apply List.Forall_nil|apply FOP_nil]].
    apply List.Forall_cons; [|apply List.Forall_nil].
    right. simpl. lia.
Defined.

(** ** The configuration file *)

Lemma findIndex_None {A} (p : A -> bool) l :
  findIndex p l = None -> forall x, In x l -> p x = false.
Proof.
  induction l as [|a l IH]; simpl; [tauto|].
  destruct (p a) eqn:E; [discriminate|].
  destruct (findIndex p l); [discriminate|].
  intros _ x [<-|Hx]; [exact E|now apply IH].
Qed.

Section ConfigFacts.
Import ConfigStorage claudeTypes.

(** The disk once the directory has been looked for. *)
Lemma ensureConfigDir_stored d :
  stored (snd (ensureConfigDir d)) = stored d /\
  writable (snd (ensureConfigDir d)) = writable d.
Proof.
  unfold ensureConfigDir, stored. destruct d as [[|f] w]; simpl; [|auto].
  destruct w; auto.
Qed.

Lemma loadConfig_spec d :
  fst (loadConfig d) = default emptyConfig (stored d) /\
  stored (snd (loadConfig d)) = stored d /\
  writable (snd (loadConfig d)) = writable d.
Proof.
  unfold loadConfig, ensureConfigDir, stored.
  destruct d as [[|[[|c]|]] w]; simpl; auto. destruct w; auto.
Qed.

Lemma saveConfig_writable config d :
  writable d = true ->
  saveConfig config d = {| files := Dir (Some (Holds config)); writable := true |}.
Proof.
  unfold saveConfig, ensureConfigDir. destruct d as [[|f] w]; simpl; now intros ->.
Qed.

Lemma saveConfig_readonly config d : writable d = false -> saveConfig config d = d.
Proof.
  unfold saveConfig, ensureConfigDir. destruct d as [[|f] w]; simpl; now intros ->.
Qed.

Lemma updateConfig_writable p d :
  writable d = true ->
  updateConfig p d
  = {| files := Dir (Some (Holds (merge (default emptyConfig (stored d)) p)));
       writable := true |}.
Proof.
  intros H. unfold updateConfig.
  destruct (loadConfig_spec d) as (Hc & _ & Hw).
  destruct (loadConfig d) as [c d1]. simpl in *. subst c.
  apply saveConfig_writable. now rewrite Hw.
Qed.

Lemma updateConfig_readonly p d :
  writable d = false -> stored (updateConfig p d) = stored d /\
                        writable (updateConfig p d) = false.
Proof.
  intros H. unfold updateConfig.
  destruct (loadConfig_spec d) as (_ & Hs & Hw).
  destruct (loadConfig d) as [c d1]. simpl in *.
  rewrite saveConfig_readonly by now rewrite Hw. split; [exact Hs|now rewrite Hw].
Qed.

(** X22.  The config file.  On a disk that can be written to, what
    [saveConfig] writes is what [loadConfig] reads back.  A file that
    is missing or does not parse reads as the empty config, so that
    an update of such a file keeps nothing but the properties the
    update names.  An update changes the properties it names and
    keeps the others.  On a disk that cannot be written to, saving
    changes nothing and reports nothing. *)
Theorem config_file_roundtrip d :
  (forall config,
     writable d = true ->
     fst (loadConfig (saveConfig config d)) = config) /\
  (stored d = None -> fst (loadConfig d) = emptyConfig) /\
  (forall p,
     writable d = true ->
     stored (updateConfig p d) = Some (merge (default emptyConfig (stored d)) p)) /\
  (forall config, writable d = false -> saveConfig config d = d).
Proof.
  split; [|split; [|split]].
  - intros config H. rewrite (saveConfig_writable _ _ H). reflexivity.
  - intros H. destruct (loadConfig_spec d) as (-> & _). now rewrite H.
  - intros p H. now rewrite (updateConfig_writable _ _ H).
  - intros config H. now apply saveConfig_readonly.
Qed.

End ConfigFacts.

Lemma config_file_witness :
  fst (ConfigStorage.loadConfig
         (ConfigStorage.saveConfig ConfigStorage.emptyConfig new_disk))
  = ConfigStorage.emptyConfig /\
  ConfigStorage.saveConfig ConfigStorage.emptyConfig readonly_disk = readonly_disk /\
  fst (ConfigStorage.loadConfig corrupt_disk) = ConfigStorage.emptyConfig.
Proof.
  split; [|split].
  - apply (proj1 (config_file_roundtrip new_disk)). reflexivity.
  - apply (proj2 (proj2 (proj2 (config_file_roundtrip readonly_disk)))). reflexivity.
  - apply (proj1 (proj2 (config_file_roundtrip corrupt_disk))). reflexivity.
Defined.

Section AccountFacts.
Import ConfigStorage claudeTypes.

Lemma findAccount_Some id accounts acc :
  findAccount id accounts = Some acc -> In acc accounts /\ accountId acc = id.
Proof.
  unfold findAccount. intros H. apply find_some in H as [H1 H2].
  now apply String.eqb_eq in H2.
Qed.

Lemma findAccount_None id accounts :
  findAccount id accounts = None <-> ~ In id (map accountId accounts).
Proof.
  unfold findAccount. split.
  - intros H Hin. apply in_map_iff in Hin as (acc & <- & Hacc).
    pose proof (find_none _ _ H acc Hacc) as E. simpl in E.
    now rewrite String.eqb_refl in E.
  - intros H. induction accounts as [|a l IH]; [reflexivity|]. simpl in *.
    destruct (String.eqb_spec (accountId a) id) as [E|E]; [tauto|].
    apply IH. tauto.
Qed.

(** The list [saveClaudeAccount] writes. *)
Lemma saved_ids account accounts :
  map accountId
    (match findIndex (fun acc => String.eqb (accountId acc) (accountId account))
                     accounts with
     | Some existingIndex => <[existingIndex := account]> accounts
     | None => accounts ++ [account]
     end)
  = if existsb (String.eqb (accountId account)) (map accountId accounts)
    then map accountId accounts
    else map accountId accounts ++ [accountId account].
Proof.
  destruct (findIndex _ accounts) as [i|] eqn:E.
  - destruct (findIndex_Some _ _ _ E) as (x & Hx & Hp & _).
    apply String.eqb_eq in Hp.
    assert (Hex : existsb (String.eqb (accountId account)) (map accountId accounts)
                  = true).
    { apply existsb_exists. exists (accountId x). split.
      - apply in_map. now apply list_elem_of_lookup_2, list_elem_of_In in Hx.
      - rewrite Hp. apply String.eqb_refl. }
    rewrite Hex.
    change (accountId <$> <[i:=account]> accounts = accountId <$> accounts).
    rewrite list_fmap_insert, <- Hp. apply list_insert_id.
    now rewrite list_lookup_fmap, Hx.
  - pose proof (findIndex_None _ _ E) as Hn.
    assert (Hex : existsb (String.eqb (accountId account)) (map accountId accounts)
                  = false).
    { apply not_true_is_false. intros H. apply existsb_exists in H as (y & Hy & Hp).
      apply in_map_iff in Hy as (acc & <- & Hacc).
      pose proof (Hn acc Hacc) as F. simpl in F.
      rewrite String.eqb_sym in F. congruence. }
    rewrite Hex. apply map_app.
Qed.

Lemma saved_find account accounts :
  findAccount (accountId account)
    (match findIndex (fun acc => String.eqb (accountId acc) (accountId account))
                     accounts with
     | Some existingIndex => <[existingIndex := account]> accounts
     | None => accounts ++ [account]
     end)
  = Some account.
Proof.
  unfold findAccount.
  induction accounts as [|a l IH]; simpl.
  - now rewrite String.eqb_refl.
  - destruct (String.eqb (accountId a) (accountId account)) eqn:E; simpl.
    + now rewrite String.eqb_refl.
    + destruct (findIndex _ l) as [i|]; simpl in *; now rewrite E.
Qed.

Lemma saved_find_other id account accounts :
  id <> accountId account ->
  findAccount id
    (match findIndex (fun acc => String.eqb (accountId acc) (accountId account))
                     accounts with
     | Some existingIndex => <[existingIndex := account]> accounts
     | None => accounts ++ [account]
     end)
  = findAccount id accounts.
Proof.
  intros Hid. unfold findAccount.
  assert (Hne : String.eqb (accountId account) id = false).
  { apply String.eqb_neq. congruence. }
  induction accounts as [|a l IH]; simpl.
  - now rewrite Hne.
  - destruct (String.eqb (accountId a) (accountId account)) eqn:E; simpl.
    + rewrite Hne. apply String.eqb_eq in E. rewrite E, Hne. reflexivity.
    + destruct (findIndex _ l) as [i|]; simpl in *;
        destruct (String.eqb (accountId a) id); auto.
Qed.

Lemma filtered_ids id accounts :
  map accountId (List.filter (fun acc => negb (String.eqb (accountId acc) id)) accounts)
  = List.filter (fun x => negb (String.eqb x id)) (map accountId accounts).
Proof.
  induction accounts as [|a l IH]; simpl; [reflexivity|].
  destruct (String.eqb (accountId a) id); simpl; now rewrite IH.
Qed.

Lemma consistent_empty : consistent emptyConfig.
Proof. split; [constructor|discriminate]. Qed.

Lemma sound_stored d config : sound d -> stored d = Some config -> consistent config.
Proof. unfold sound. intros H E. now rewrite E in H. Qed.

Lemma sound_current d : sound d -> consistent (default emptyConfig (stored d)).
Proof.
  unfold sound. destruct (stored d); simpl; [auto|]. intros _. apply consistent_empty.
Qed.

Lemma sound_written config :
  consistent config ->
  sound {| files := Dir (Some (Holds config)); writable := true |}.
Proof. auto. Qed.

Lemma sound_same d d' : stored d' = stored d -> sound d -> sound d'.
Proof. unfold sound. now intros ->. Qed.

Lemma consistent_save account config :
  consistent config ->
  consistent
    (merge config
       (with_claudeAccounts
          (match findIndex (fun acc => String.eqb (accountId acc) (accountId account))
                           (default [] (claudeAccounts config)) with
           | Some existingIndex =>
               <[existingIndex := account]> (default [] (claudeAccounts config))
           | None => default [] (claudeAccounts config) ++ [account]
           end) nothing)).
Proof.
  intros [Hnd Hact]. unfold consistent, ids in *. simpl.
  rewrite saved_ids.
  destruct (existsb _ _) eqn:E; [now split|].
  split.
  - apply NoDup_app; [exact Hnd|repeat constructor; auto|].
    intros x Hx [<-|[]].
    assert (F : existsb (String.eqb (accountId account))
                  (map accountId (default [] (claudeAccounts config))) = true).
    { apply existsb_exists. exists (accountId account). split; [exact Hx|].
      apply String.eqb_refl. }
    congruence.
  - intros id Hid. apply in_or_app. left. now apply Hact.
Qed.

Lemma consistent_remove id config (clear : bool) :
  consistent config ->
  (clear = false -> activeClaudeAccountId config <> Some id) ->
  consistent
    (merge config
       (if clear
        then with_activeClaudeAccountId None
               (with_claudeAccounts
                  (List.filter (fun acc => negb (String.eqb (accountId acc) id))
                     (default [] (claudeAccounts config))) nothing)
        else with_claudeAccounts
               (List.filter (fun acc => negb (String.eqb (accountId acc) id))
                  (default [] (claudeAccounts config))) nothing)).
Proof.
  intros [Hnd Hact] Hc. unfold consistent, ids in *.
  destruct clear; simpl; rewrite filtered_ids.
  - split; [now apply NoDup_filter|discriminate].
  - split; [now apply NoDup_filter|].
    intros a Ha. apply filter_In. split; [now apply Hact|].
    apply negb_true_iff, String.eqb_neq. intros ->. now apply Hc.
Qed.

Lemma perform_readonly c d :
  writable d = false -> stored (perform c d) = stored d.
Proof.
  intros Hw. destruct c; simpl.
  - unfold saveClaudeAccount. destruct (loadConfig_spec d) as (_ & Hs & Hw1).
    destruct (loadConfig d) as [config d1]. simpl in *. rewrite Hw in Hw1.
    now destruct (updateConfig_readonly
                    (with_claudeAccounts
                       (match findIndex (fun acc => String.eqb (accountId acc)
                                                      (accountId account))
                                        (default [] (claudeAccounts config)) with
                        | Some existingIndex =>
                            <[existingIndex := account]>
                              (default [] (claudeAccounts config))
                        | None => default [] (claudeAccounts config) ++ [account]
                        end) nothing) d1 Hw1) as [-> _].
  - unfold removeClaudeAccount. destruct (loadConfig_spec d) as (_ & Hs & Hw1).
    destruct (loadConfig d) as [config d1]. simpl in *. rewrite Hw in Hw1.
    destruct (activeClaudeAccountId config) as [a|];
      [destruct (String.eqb a id)|];
      match goal with
      | |- stored (updateConfig ?p d1) = _ =>
          now destruct (updateConfig_readonly p d1 Hw1) as [-> _]
      end.
  - unfold setActiveClaudeAccount, getClaudeAccount.
    destruct (loadConfig_spec d) as (_ & Hs & Hw1).
    destruct (loadConfig d) as [config d1]. simpl in *. rewrite Hw in Hw1.
    destruct (findAccount id _); simpl; [|exact Hs].
    now destruct (updateConfig_readonly
                    (with_activeClaudeAccountId (Some id) nothing) d1 Hw1) as [-> _].
  - unfold updateAccountLastUsed, getClaudeAccount.
    destruct (loadConfig_spec d) as (_ & Hs & Hw1).
    destruct (loadConfig d) as [config d1]. simpl in *. rewrite Hw in Hw1.
    destruct (findAccount id _) as [acc|]; simpl; [|exact Hs].
    unfold saveClaudeAccount. destruct (loadConfig_spec d1) as (_ & Hs2 & Hw2).
    destruct (loadConfig d1) as [config2 d2]. simpl in *. rewrite Hw1 in Hw2.
    match goal with
    | |- stored (updateConfig ?p d2) = _ =>
        destruct (updateConfig_readonly p d2 Hw2) as [-> _]
    end. congruence.
  - now destruct (updateConfig_readonly partialConfig d Hw) as [-> _].
  - unfold clearConfig. destruct (files d) as [|[f|]]; try reflexivity.
    now rewrite Hw.
Qed.

Lemma saveClaudeAccount_writable account d :
  writable d = true ->
  saveClaudeAccount account d
  = {| files :=
         Dir (Some (Holds
           (merge (default emptyConfig (stored d))
              (with_claudeAccounts
                 (match findIndex (fun acc => String.eqb (accountId acc)
                                                (accountId account))
                                  (default [] (claudeAccounts
                                                 (default emptyConfig (stored d)))) with
                  | Some existingIndex =>
                      <[existingIndex := account]>
                        (default [] (claudeAccounts (default emptyConfig (stored d))))
                  | None =>
                      default [] (claudeAccounts (default emptyConfig (stored d)))
                      ++ [account]
                  end) nothing))));
       writable := true |}.
Proof.
  intros Hw. unfold saveClaudeAccount.
  destruct (loadConfig_spec d) as (Hc & Hs & Hw1).
  destruct (loadConfig d) as [config d1]. simpl in *. subst config.
  rewrite updateConfig_writable by congruence. now rewrite Hs.
Qed.

Lemma removeClaudeAccount_writable id d :
  writable d = true ->
  removeClaudeAccount id d
  = {| files :=
         Dir (Some (Holds
           (merge (default emptyConfig (stored d))
              (if match activeClaudeAccountId (default emptyConfig (stored d)) with
                  | Some active => String.eqb active id
                  | None => false
                  end
               then with_activeClaudeAccountId None
                      (with_claudeAccounts
                         (List.filter (fun acc => negb (String.eqb (accountId acc) id))
                            (default [] (claudeAccounts
                                           (default emptyConfig (stored d)))))
                         nothing)
               else with_claudeAccounts
                      (List.filter (fun acc => negb (String.eqb (accountId acc) id))
                         (default [] (claudeAccounts
                                        (default emptyConfig (stored d)))))
                      nothing))));
       writable := true |}.
Proof.
  intros Hw. unfold removeClaudeAccount.
  destruct (loadConfig_spec d) as (Hc & Hs & Hw1).
  destruct (loadConfig d) as [config d1]. simpl in *. subst config.
  destruct (activeClaudeAccountId (default emptyConfig (stored d))) as [a|];
    [destruct (String.eqb a id)|];
    rewrite updateConfig_writable by congruence; now rewrite Hs.
Qed.

Lemma sound_step c d : admissible c -> sound d -> sound (perform c d).
Proof.
  intros Hadm Hd.
  destruct (writable d) eqn:Hw.
  2:{ apply (sound_same d); [|exact Hd]. now apply perform_readonly. }
  pose proof (sound_current d Hd) as Hcur.
  destruct c; simpl.
  - rewrite (saveClaudeAccount_writable _ _ Hw).
    apply sound_written. now apply consistent_save.
  - rewrite (removeClaudeAccount_writable _ _ Hw).
    apply sound_written.
    apply (consistent_remove id _
             (match activeClaudeAccountId (default emptyConfig (stored d)) with
              | Some active => String.eqb active id
              | None => false
              end)); [exact Hcur|].
    destruct (activeClaudeAccountId _) as [a|]; [|discriminate].
    intros E [= ->]. now rewrite String.eqb_refl in E.
  - unfold setActiveClaudeAccount, getClaudeAccount.
    destruct (loadConfig_spec d) as (Hc & Hs & Hw1).
    destruct (loadConfig d) as [config d1]. simpl in *. subst config.
    destruct (findAccount id _) as [acc|] eqn:Ef; simpl.
    + rewrite updateConfig_writable by congruence. rewrite Hs.
      apply sound_written. destruct Hcur as [Hnd Hact].
      apply findAccount_Some in Ef as [Hin Hid].
      split; [exact Hnd|]. simpl. intros a [= <-].
      unfold ids. rewrite <- Hid. now apply in_map.
    + now apply (sound_same d).
  - unfold updateAccountLastUsed, getClaudeAccount.
    destruct (loadConfig_spec d) as (Hc & Hs & Hw1).
    destruct (loadConfig d) as [config d1]. simpl in *. subst config.
    destruct (findAccount id _) as [acc|] eqn:Ef; simpl.
    + rewrite saveClaudeAccount_writable by congruence. rewrite Hs.
      apply sound_written. now apply consistent_save.
    + now apply (sound_same d).
  - rewrite (updateConfig_writable _ _ Hw). apply sound_written.
    destruct Hadm as [H1 H2]. destruct Hcur as [Hnd Hact].
    unfold consistent, ids. simpl. rewrite H1, H2. simpl. now split.
  - unfold clearConfig, sound, stored. destruct (files d) as [|[f|]]; simpl; auto.
    rewrite Hw. simpl. exact I.
Qed.

(** X23.  The accounts in the config file stay consistent.  Whatever
    accounts are saved, removed, made active or touched, in whatever
    order, with settings updated or the file cleared in between, and
    whether or not the disk can be written to: if the file held no
    config, or one in which no two Claude accounts share an id and the
    active id is the id of one of them, then so it does afterwards. *)
Theorem accounts_stay_consistent calls : forall d,
  Forall admissible calls -> sound d -> sound (run calls d).
Proof.
  induction calls as [|c calls IH]; intros d Hadm Hd; [exact Hd|].
  apply Forall_cons_1 in Hadm as [Hc Hadm].
  apply IH; [exact Hadm|]. now apply sound_step.
Qed.

End AccountFacts.

Lemma accounts_consistent_witness :
  ConfigStorage.sound
    (ConfigStorage.run
       [ConfigStorage.Save (demo_claude "a"); ConfigStorage.Save (demo_claude "b");
        ConfigStorage.SetActive "b"; ConfigStorage.Save (demo_claude "a");
        ConfigStorage.Remove "b"; ConfigStorage.Touch 7 "a"]
       corrupt_disk).
Proof.
  apply accounts_stay_consistent.
  - repeat (apply List.Forall_cons; [exact I|]). apply List.Forall_nil.
  - exact I.
Defined.

Section AccountRoundTrips.
Import ConfigStorage claudeTypes.

Lemma getClaudeAccount_spec id d :
  fst (getClaudeAccount id d)
  = findAccount id (default [] (claudeAccounts (default emptyConfig (stored d)))) /\
  stored (snd (getClaudeAccount id d)) = stored d /\
  writable (snd (getClaudeAccount id d)) = writable d.
Proof.
  unfold getClaudeAccount. destruct (loadConfig_spec d) as (Hc & Hs & Hw).
  destruct (loadConfig d) as [config d1]. simpl in *. now subst config.
Qed.

Lemma getActiveClaudeAccount_spec d :
  fst (getActiveClaudeAccount d)
  = match activeClaudeAccountId (default emptyConfig (stored d)) with
    | Some id =>
        if nonempty id
        then findAccount id
               (default [] (claudeAccounts (default emptyConfig (stored d))))
        else None
    | None => None
    end.
Proof.
  unfold getActiveClaudeAccount. destruct (loadConfig_spec d) as (Hc & Hs & Hw).
  destruct (loadConfig d) as [config d1]. simpl in *. subst config.
  destruct (activeClaudeAccountId _) as [id|]; [|reflexivity].
  destruct (nonempty id); [|reflexivity].
  destruct (getClaudeAccount_spec id d1) as (-> & _). now rewrite Hs.
Qed.

Lemma findAccount_filtered id id' accounts :
  findAccount id' (List.filter (fun acc => negb (String.eqb (accountId acc) id)) accounts)
  = if String.eqb id' id then None else findAccount id' accounts.
Proof.
  unfold findAccount. induction accounts as [|a l IH]; simpl.
  - now destruct (String.eqb id' id).
  - destruct (String.eqb_spec (accountId a) id) as [E|E]; simpl.
    + rewrite IH. destruct (String.eqb_spec id' id) as [E'|E']; [reflexivity|].
      destruct (String.eqb_spec (accountId a) id'); [congruence|reflexivity].
    + destruct (String.eqb_spec (accountId a) id') as [E2|E2].
      * destruct (String.eqb_spec id' id); [congruence|reflexivity].
      * exact IH.
Qed.

(** X24.  Saving and removing an account, on a disk that can be
    written to.  An account that has been saved is the one found
    under its id, whether it replaced an account of that id or was
    added; an account that has been removed is not found any more,
    and is not the active one.  Either way the accounts of other ids
    are found as before.  A save leaves everything else in the file as
    it was: the active id, the Google accounts and their active id,
    and the four settings (model, provider, base URL and mode).  A
    removal leaves the Google accounts, their active id and the four
    settings as they were, and the active id too unless it is the id
    removed.  On a disk that cannot be written to the file is left as
    it is. *)
Theorem account_save_and_remove d :
  (forall account,
     writable d = true ->
     let d' := saveClaudeAccount account d in
     fst (getClaudeAccount (accountId account) d') = Some account /\
     (forall id, id <> accountId account ->
                 fst (getClaudeAccount id d') = fst (getClaudeAccount id d)) /\
     exists config',
       stored d' = Some config' /\
       activeClaudeAccountId config'
       = activeClaudeAccountId (default emptyConfig (stored d)) /\
       googleAccounts config' = googleAccounts (default emptyConfig (stored d)) /\
       activeGoogleAccountId config'
       = activeGoogleAccountId (default emptyConfig (stored d)) /\
       model config' = model (default emptyConfig (stored d)) /\
       provider config' = provider (default emptyConfig (stored d)) /\
       baseUrl config' = baseUrl (default emptyConfig (stored d)) /\
       mode config' = mode (default emptyConfig (stored d))) /\
  (forall id,
     writable d = true ->
     let d' := removeClaudeAccount id d in
     fst (getClaudeAccount id d') = None /\
     (forall id', id' <> id ->
                  fst (getClaudeAccount id' d') = fst (getClaudeAccount id' d)) /\
     (forall acc, fst (getActiveClaudeAccount d') = Some acc -> accountId acc <> id) /\
     exists config',
       stored d' = Some config' /\
       (activeClaudeAccountId (default emptyConfig (stored d)) <> Some id ->
        activeClaudeAccountId config'
        = activeClaudeAccountId (default emptyConfig (stored d))) /\
       googleAccounts config' = googleAccounts (default emptyConfig (stored d)) /\
       activeGoogleAccountId config'
       = activeGoogleAccountId (default emptyConfig (stored d)) /\
       model config' = model (default emptyConfig (stored d)) /\
       provider config' = provider (default emptyConfig (stored d)) /\
       baseUrl config' = baseUrl (default emptyConfig (stored d)) /\
       mode config' = mode (default emptyConfig (stored d))) /\
  (forall account id,
     writable d = false ->
     stored (saveClaudeAccount account d) = stored d /\
     stored (removeClaudeAccount id d) = stored d).
Proof.
  split; [|split].
  - intros account Hw. cbv zeta.
    rewrite (saveClaudeAccount_writable _ _ Hw).
    set (cur := default emptyConfig (stored d)).
    split; [|split].
    + destruct (getClaudeAccount_spec (accountId account)
                  {| files := Dir (Some (Holds (merge cur
                       (with_claudeAccounts
                          match findIndex (fun acc => String.eqb (accountId acc)
                                                         (accountId account))
                                  (default [] (claudeAccounts cur)) with
                          | Some existingIndex =>
                              <[existingIndex := account]>
                                (default [] (claudeAccounts cur))
                          | None => default [] (claudeAccounts cur) ++ [account]
                          end nothing))));
                     writable := true |}) as (-> & _).
      simpl. apply saved_find.
    + intros id Hid.
      destruct (getClaudeAccount_spec id
                  {| files := Dir (Some (Holds (merge cur
                       (with_claudeAccounts
                          match findIndex (fun acc => String.eqb (accountId acc)
                                                         (accountId account))
                                  (default [] (claudeAccounts cur)) with
                          | Some existingIndex =>
                              <[existingIndex := account]>
                                (default [] (claudeAccounts cur))
                          | None => default [] (claudeAccounts cur) ++ [account]
                          end nothing))));
                     writable := true |}) as (-> & _).
      destruct (getClaudeAccount_spec id d) as (-> & _).
      simpl. now apply saved_find_other.
    + eexists. split; [reflexivity|]. simpl. auto 10.
  - intros id Hw. cbv zeta.
    rewrite (removeClaudeAccount_writable _ _ Hw).
    set (cur := default emptyConfig (stored d)).
    set (clear := match activeClaudeAccountId cur with
                  | Some active => String.eqb active id
                  | None => false
                  end).
    set (filtered := List.filter (fun acc => negb (String.eqb (accountId acc) id))
                       (default [] (claudeAccounts cur))).
    set (d' := {| files := Dir (Some (Holds (merge cur
                    (if clear
                     then with_activeClaudeAccountId None
                            (with_claudeAccounts filtered nothing)
                     else with_claudeAccounts filtered nothing))));
                  writable := true |}).
    assert (Hacc : default [] (claudeAccounts (default emptyConfig (stored d')))
                   = filtered).
    { unfold d'. simpl. now destruct clear. }
    split; [|split; [|split]].
    + destruct (getClaudeAccount_spec id d') as (-> & _). rewrite Hacc.
      unfold filtered. rewrite findAccount_filtered. now rewrite String.eqb_refl.
    + intros id' Hid.
      destruct (getClaudeAccount_spec id' d') as (-> & _). rewrite Hacc.
      destruct (getClaudeAccount_spec id' d) as (-> & _).
      unfold filtered. rewrite findAccount_filtered.
      destruct (String.eqb_spec id' id); [congruence|reflexivity].
    + intros acc. rewrite getActiveClaudeAccount_spec, Hacc.
      assert (Hactive : activeClaudeAccountId (default emptyConfig (stored d'))
                        = if clear then None else activeClaudeAccountId cur).
      { unfold d'. simpl. now destruct clear. }
      rewrite Hactive. unfold clear.
      destruct (activeClaudeAccountId cur) as [a|]; [|intros; discriminate].
      destruct (String.eqb_spec a id) as [E|E]; [intros; discriminate|].
      destruct (nonempty a); [|intros; discriminate].
      unfold filtered. rewrite findAccount_filtered.
      destruct (String.eqb_spec a id) as [E'|_]; [contradiction|].
      intros H. apply findAccount_Some in H as [_ ->]. exact E.
    + exists (merge cur
                (if clear
                 then with_activeClaudeAccountId None
                        (with_claudeAccounts filtered nothing)
                 else with_claudeAccounts filtered nothing)).
      split; [reflexivity|]. split.
      * intros Hne. unfold clear.
        destruct (activeClaudeAccountId cur) as [a|] eqn:Ea; [|simpl; exact Ea].
        destruct (String.eqb_spec a id) as [E|E]; [congruence|].
        simpl. exact Ea.
      * destruct clear; simpl; auto 10.
  - intros account id Hw.
    split; [apply (perform_readonly (Save account) d Hw)
           |apply (perform_readonly (Remove id) d Hw)].
Qed.

(** X25.  The active account.  Making active an id under which no
    account is stored is refused with the message that the account
    was not found, and leaves the file as it is.  On a disk that can be
    written to, making active a stored account succeeds, and that
    account is then the active one, unless its id is the empty string,
    in which case no account is: an active id that is empty reads as
    none.  Removing the active account leaves no account active. *)
Theorem active_account d id :
  (fst (getClaudeAccount id d) = None ->
   fst (setActiveClaudeAccount id d) = Rejected (notFound id) /\
   stored (snd (setActiveClaudeAccount id d)) = stored d) /\
  (forall acc,
     writable d = true ->
     fst (getClaudeAccount id d) = Some acc ->
     let d' := snd (setActiveClaudeAccount id d) in
     fst (setActiveClaudeAccount id d) = Fulfilled tt /\
     fst (getActiveClaudeAccount d') = (if nonempty id then Some acc else None) /\
     fst (getActiveClaudeAccount (removeClaudeAccount id d')) = None).
Proof.
  split.
  - intros H. unfold setActiveClaudeAccount.
    destruct (getClaudeAccount_spec id d) as (_ & Hs & _).
    destruct (getClaudeAccount id d) as [o d1]. simpl in *. subst o. auto.
  - intros acc Hw H. cbv zeta. unfold setActiveClaudeAccount.
    destruct (getClaudeAccount_spec id d) as (Hf & Hs & Hw1).
    destruct (getClaudeAccount id d) as [o d1]. simpl in *.
    rewrite H in Hf. symmetry in Hf. rewrite H. simpl.
    rewrite updateConfig_writable by congruence. rewrite Hs.
    split; [reflexivity|]. split.
    + rewrite getActiveClaudeAccount_spec. simpl.
      destruct (nonempty id); [exact Hf|reflexivity].
    + rewrite removeClaudeAccount_writable by reflexivity.
      rewrite getActiveClaudeAccount_spec. simpl.
      now rewrite String.eqb_refl.
Qed.

End AccountRoundTrips.

Lemma account_save_witness :
  fst (ConfigStorage.getClaudeAccount "a"
         (ConfigStorage.saveClaudeAccount (demo_claude "a") corrupt_disk))
  = Some (demo_claude "a") /\
  fst (ConfigStorage.getClaudeAccount "a"
         (ConfigStorage.removeClaudeAccount "a"
            (ConfigStorage.saveClaudeAccount (demo_claude "a") new_disk)))
  = None /\
  ConfigStorage.stored (ConfigStorage.saveClaudeAccount (demo_claude "a") readonly_disk)
  = None.
Proof.
  split; [|split].
  - apply (proj1 (account_save_and_remove corrupt_disk) (demo_claude "a") eq_refl).
  - apply (proj1 (proj2 (account_save_and_remove
                           (ConfigStorage.saveClaudeAccount (demo_claude "a") new_disk)))
             "a" eq_refl).
  - apply (proj2 (proj2 (account_save_and_remove readonly_disk))
             (demo_claude "a") "a" eq_refl).
Defined.

Lemma active_account_witness :
  fst (ConfigStorage.setActiveClaudeAccount "b"
         (ConfigStorage.saveClaudeAccount (demo_claude "a") new_disk))
  = ConfigStorage.Rejected "Account b not found" /\
  fst (ConfigStorage.getActiveClaudeAccount
         (snd (ConfigStorage.setActiveClaudeAccount "a"
                 (ConfigStorage.saveClaudeAccount (demo_claude "a") new_disk))))
  = Some (demo_claude "a").
Proof.
  split.
  - apply (proj1 (active_account
                    (ConfigStorage.saveClaudeAccount (demo_claude "a") new_disk) "b")).
    reflexivity.
  - apply (proj2 (active_account
                    (ConfigStorage.saveClaudeAccount (demo_claude "a") new_disk) "a")
             (demo_claude "a") eq_refl eq_refl).
Defined.

(** ** The settings commands *)

Lemma CLIUI_store_writable ui :
  ConfigStorage.writable (snd ui) = true ->
  CLIUI.store ui
  = (fst ui,
     {| ConfigStorage.files :=
          ConfigStorage.Dir (Some (ConfigStorage.Holds
            (ConfigStorage.merge
               (default ConfigStorage.emptyConfig (ConfigStorage.stored (snd ui)))
               (CLIUI.important (fst ui)))));
        ConfigStorage.writable := true |}).
Proof.
  intros H. unfold CLIUI.store. now rewrite updateConfig_writable.
Qed.

Lemma stored_in_step ui :
  ConfigStorage.writable (snd ui) = true ->
  commands.in_step (CLIUI.store ui) /\
  commands.accounts (snd (CLIUI.store ui)) = commands.accounts (snd ui) /\
  fst (CLIUI.store ui) = fst ui.
Proof.
  intros H. rewrite (CLIUI_store_writable _ H). split; [|split].
  - eexists. split; [reflexivity|]. simpl. auto.
  - reflexivity.
  - reflexivity.
Qed.

Lemma updated_in_step newConfig ui :
  ConfigStorage.writable (snd ui) = true ->
  commands.in_step (CLIUI.updateConfig newConfig ui) /\
  commands.accounts (snd (CLIUI.updateConfig newConfig ui))
  = commands.accounts (snd ui).
Proof.
  intros H. unfold CLIUI.updateConfig.
  destruct (stored_in_step (CLIUI.assign newConfig ui) H) as (H1 & H2 & _).
  split; [exact H1|exact H2].
Qed.

Lemma modes_spec m : existsb (String.eqb m) commands.modes = true <-> In m commands.modes.
Proof.
  rewrite existsb_exists. split.
  - intros (x & Hx & E). apply String.eqb_eq in E. now subst.
  - intros H. exists m. split; [exact H|apply String.eqb_refl].
Qed.

(** X26.  The settings commands, on a disk that can be written to.
    Every command leaves the accounts in the file as they are.  Each
    of the five commands that wait for their update ([model], [mode],
    [task], [changeModel], [setBaseUrl]), unless it is a [mode] command
    with an unknown mode, leaves the model, the provider, the base URL
    and the mode in the file equal to those of the running client; a
    [mode] command with an unknown mode changes nothing, neither in the
    client nor in the file.  A base URL that is blank is no base URL:
    it is dropped from the client and from the file; otherwise it is
    kept without the white space around it.  [changeProvider] does not
    wait for its update: when it reports the change, the provider of
    the client is the one picked, nothing else in the client has
    changed and the file has not been touched, so that a file that
    agreed with the client no longer does when the provider is a new
    one.  The write left to be done, whenever it runs, stores the
    settings the client has then, leaving the client and the accounts
    alone; run at once, it gives what the awaited update would have
    given. *)
Theorem settings_commands c ui :
  ConfigStorage.writable (snd ui) = true ->
  let ui' := commands.execute c ui in
  commands.accounts (snd ui') = commands.accounts (snd ui) /\
  (commands.awaited c = true ->
   commands.in_step ui \/ (forall m, c = commands.Mode m -> In m commands.modes) ->
   commands.in_step ui') /\
  (forall m, c = commands.Mode m ->
     (~ In m commands.modes -> ui' = ui) /\
     (In m commands.modes -> CLIUI.mode (fst ui') = m)) /\
  (forall answer, c = commands.SetBaseUrl answer ->
     CLIUI.baseUrl (fst ui')
     = if nonempty (trim answer) then Some (trim answer) else None) /\
  (forall answer, c = commands.ChangeProvider answer ->
     fst ui'
     = {| CLIUI.model := CLIUI.model (fst ui);
          CLIUI.provider := answer;
          CLIUI.baseUrl := CLIUI.baseUrl (fst ui);
          CLIUI.requestsUsed := CLIUI.requestsUsed (fst ui);
          CLIUI.contextUsed := CLIUI.contextUsed (fst ui);
          CLIUI.currentFolder := CLIUI.currentFolder (fst ui);
          CLIUI.mode := CLIUI.mode (fst ui);
          CLIUI.task := CLIUI.task (fst ui);
          CLIUI.websocketConnected := CLIUI.websocketConnected (fst ui) |} /\
     snd ui' = snd ui /\
     (commands.in_step ui -> CLIUI.provider (fst ui) <> answer ->
      ~ commands.in_step ui') /\
     (forall later,
        ConfigStorage.writable (snd later) = true ->
        commands.in_step (CLIUI.store later) /\
        commands.accounts (snd (CLIUI.store later)) = commands.accounts (snd later) /\
        fst (CLIUI.store later) = fst later) /\
     CLIUI.store ui'
     = CLIUI.updateConfig (commands.with_provider answer CLIUI.nothing) ui).
Proof.
  intros Hw. cbv zeta. destruct c; simpl.
  - unfold commands.model.
    destruct (updated_in_step (commands.with_model modelName CLIUI.nothing) ui Hw)
      as [H1 H2].
    repeat split; auto; discriminate.
  - unfold commands.mode.
    destruct (existsb (String.eqb modeType) commands.modes) eqn:E.
    + apply modes_spec in E.
      destruct (updated_in_step (commands.with_mode modeType CLIUI.nothing) ui Hw)
        as [H1 H2].
      split; [exact H2|]. split; [auto|]. split; [|split; discriminate].
      intros m [= <-]. split; [contradiction|].
      intros _. reflexivity.
    + assert (Hn : ~ In modeType commands.modes).
      { intros H. apply modes_spec in H. congruence. }
      split; [reflexivity|]. split.
      * intros _ [H|H]; [exact H|]. exfalso. apply Hn. now apply H.
      * split; [|split; discriminate].
        intros m [= <-]. split; [reflexivity|contradiction].
  - unfold commands.task.
    destruct (updated_in_step (commands.with_task taskDescription CLIUI.nothing) ui Hw)
      as [H1 H2].
    repeat split; auto; discriminate.
  - unfold commands.changeModel.
    destruct (String.eqb answer "custom");
      match goal with
      | |- context [CLIUI.updateConfig ?p ui] =>
          destruct (updated_in_step p ui Hw) as [H1 H2]
      end; repeat split; auto; discriminate.
  - split; [reflexivity|]. split; [discriminate|]. split; [discriminate|].
    split; [discriminate|].
    intros a [= <-]. split; [reflexivity|]. split; [reflexivity|].
    split; [|split; [|reflexivity]].
    + intros (config & Hs & _ & Hp & _) Hne (config' & Hs' & _ & Hp' & _).
      simpl in Hs', Hp'. rewrite Hs in Hs'. injection Hs' as <-.
      rewrite Hp in Hp'. injection Hp' as E. contradiction.
    + intros later Hl. now apply stored_in_step.
  - unfold commands.setBaseUrl.
    match goal with
    | |- context [CLIUI.updateConfig ?p ui] =>
        destruct (updated_in_step p ui Hw) as [H1 H2]
    end.
    split; [exact H2|]. split; [auto|]. split; [discriminate|].
    split; [|discriminate].
    intros a [= <-]. reflexivity.
Qed.

Lemma settings_witness :
  commands.execute (commands.Mode "fast") (demo_cli, new_disk) = (demo_cli, new_disk) /\
  commands.in_step (commands.execute (commands.SetBaseUrl "  ") (demo_cli, new_disk)) /\
  CLIUI.baseUrl (fst (commands.execute (commands.SetBaseUrl "  ") (demo_cli, new_disk)))
  = None /\
  ~ commands.in_step
      (commands.execute (commands.ChangeProvider "Gemini")
         (commands.execute (commands.Model "gpt-4") (demo_cli, new_disk))).
Proof.
  split; [|split; [|split]].
  - apply (proj1 (proj2 (proj2 (settings_commands (commands.Mode "fast")
                                   (demo_cli, new_disk) eq_refl))) "fast" eq_refl).
    simpl. intuition discriminate.
  - apply (proj1 (proj2 (settings_commands (commands.SetBaseUrl "  ")
                           (demo_cli, new_disk) eq_refl))); [reflexivity|].
    right. discriminate.
  - apply (proj1 (proj2 (proj2 (proj2 (settings_commands (commands.SetBaseUrl "  ")
                                   (demo_cli, new_disk) eq_refl)))) "  " eq_refl).
  - apply (proj2 (proj2 (proj2 (proj2
             (settings_commands (commands.ChangeProvider "Gemini")
                (commands.execute (commands.Model "gpt-4") (demo_cli, new_disk))
                eq_refl)))) "Gemini" eq_refl).
    + apply (proj1 (proj2 (settings_commands (commands.Model "gpt-4")
                             (demo_cli, new_disk) eq_refl))); [reflexivity|].
      right. discriminate.
    + discriminate.
Defined.

(** ** The folder shown by [renderStats] *)

Lemma substring_split a s :
  a <= String.length s ->
  s = substring 0 a s +:+ substring a (String.length s - a) s.
Proof.
  revert a. induction s as [|c s IH]; intros a H; simpl in H.
  - now assert (a = 0) as -> by lia.
  - destruct a as [|a].
    + rewrite append_nil, Nat.sub_0_r. now rewrite substring_full.
    + simpl. rewrite append_cons. f_equal. apply IH. lia.
Qed.

(** X27.  The folder [renderStats] shows never takes more than 50
    characters: a path of up to 50 characters is shown as it is, and a
    longer one as three dots followed by its last 47 characters. *)
Theorem folderPath_fits config :
  String.length (CLIUI.folderPath config) <= 50 /\
  (String.length (CLIUI.currentFolder config) <= 50 ->
   CLIUI.folderPath config = CLIUI.currentFolder config) /\
  (50 < String.length (CLIUI.currentFolder config) ->
   exists dropped kept,
     CLIUI.currentFolder config = dropped +:+ kept /\
     String.length kept = 47 /\
     CLIUI.folderPath config = "..." +:+ kept).
Proof.
  unfold CLIUI.folderPath. set (s := CLIUI.currentFolder config).
  destruct (50 <? String.length s) eqn:E.
  - apply Nat.ltb_lt in E.
    assert (Hs : slice (-47) None s
                 = substring (String.length s - 47) 47 s).
    { unfold slice, position. simpl.
      replace (Z.to_nat (Z.max (Z.of_nat (String.length s) + -47) 0))
        with (String.length s - 47) by lia.
      f_equal. lia. }
    rewrite Hs.
    assert (Hl : String.length (substring (String.length s - 47) 47 s) = 47).
    { apply length_substring. lia. }
    split; [rewrite length_append, Hl; simpl; lia|].
    split; [lia|]. intros _.
    exists (substring 0 (String.length s - 47) s),
           (substring (String.length s - 47) 47 s).
    split; [|split; [exact Hl|reflexivity]].
    rewrite (substring_split (String.length s - 47) s) at 1 by lia.
    do 2 f_equal. lia.
  - apply Nat.ltb_ge in E. split; [exact E|]. split; [reflexivity|lia].
Qed.

Lemma folderPath_witness :
  exists dropped kept,
    CLIUI.currentFolder demo_cli = dropped +:+ kept /\
    String.length kept = 47 /\
    CLIUI.folderPath demo_cli = "..." +:+ kept.
Proof.
  apply (proj2 (proj2 (folderPath_fits demo_cli))). vm_compute. lia.
Defined.

(** ** Snapshots of the earlier renderer *)






(** ** The active tab after a restart, and the history guard *)

Lemma findIndex_map_none {A B} (p : B -> bool) (f : A -> B) l :
  existsb (fun x => p (f x)) l = false -> findIndex p (map f l) = None.
Proof.
  induction l as [|a l IH]; simpl; [reflexivity|].
  destruct (p (f a)); [discriminate|]. simpl. intros H. now rewrite (IH H).
Qed.

Lemma keeps_ret {A} (a : A) : keeps_active (ret a).
Proof. intros st. reflexivity. Qed.

Lemma keeps_throw {A} e : keeps_active (@throw A e).
Proof. intros st. reflexivity. Qed.

Lemma keeps_lift {A} (o : outcome A) : keeps_active (lift o).
Proof. intros st. reflexivity. Qed.

Lemma keeps_gets {A} (f : State -> A) : keeps_active (gets f).
Proof. intros st. reflexivity. Qed.

Lemma keeps_modify f :
  (forall st, activeTabId (f st) = activeTabId st) -> keeps_active (modify f).
Proof. intros H st. apply H. Qed.

Lemma keeps_bind {A B} (m : M A) (k : A -> M B) :
  keeps_active m -> (forall a, keeps_active (k a)) -> keeps_active (bind m k).
Proof.
  intros Hm Hk st. unfold bind. specialize (Hm st).
  destruct (m st) as [[a|e] st1]; simpl in *; [|exact Hm].
  now rewrite Hk.
Qed.

Lemma keeps_try_catch m : keeps_active m -> keeps_active (try_catch m).
Proof.
  intros Hm st. unfold try_catch. specialize (Hm st).
  destruct (m st) as [[a|e] st1]; exact Hm.
Qed.

Lemma keeps_forM {A} (l : list A) body :
  (forall x, keeps_active (body x)) -> keeps_active (forM_ l body).
Proof.
  intros H. induction l as [|x l IH]; simpl.
  - apply keeps_ret.
  - apply keeps_bind; [apply H|intros _; exact IH].
Qed.

Lemma keeps_renderTabs : keeps_active renderTabs.
Proof.
  intros st. unfold renderTabs. destruct (tabsContainer (page st)); [|reflexivity].
  apply keeps_forM. intros tab.
  apply keeps_bind; [apply keeps_lift|intros _].
  apply keeps_bind; [apply keeps_lift|intros _]. apply keeps_ret.
Qed.

Lemma renderActiveTab_active st : activeTabId (renderActiveTab st) = activeTabId st.
Proof.
  unfold renderActiveTab.
  destruct (negb _); [reflexivity|].
  destruct (getActiveTab st) as [i|]; [|reflexivity].
  destruct (tabs st !! i) as [tab|]; [|reflexivity].
  destruct (strict_eq _ _); [|reflexivity].
  destruct (terminal tab); [reflexivity|].
  unfold initializeTerminal. destruct (terminalContainer _); reflexivity.
Qed.

Lemma keeps_updateTabName tabId name : keeps_active (updateTabName tabId name).
Proof.
  unfold updateTabName. apply keeps_bind; [apply keeps_gets|intros st0].
  destruct (findIndex _ _); [|apply keeps_ret].
  apply keeps_bind; [now apply keeps_modify|intros _].
  apply keeps_bind; [apply keeps_renderTabs|intros _].
  now apply keeps_modify.
Qed.

Section KeepsActive.
Variable marked : string -> string.
Variable Date_parse : string -> option Z.

Lemma addMessage_active_id r content raw st :
  activeTabId (snd (addMessage marked r content raw st)) = activeTabId st.
Proof.
  unfold addMessage. destruct (getActiveTab _); reflexivity.
Qed.

Lemma keeps_renderHistoryMessage msg : keeps_active (renderHistoryMessage marked msg).
Proof.
  unfold renderHistoryMessage. apply keeps_bind; [apply keeps_lift|intros mt].
  destruct mt; try apply keeps_throw.
  destruct (negb (nonempty s)); [apply keeps_ret|].
  apply keeps_bind; [apply keeps_lift|intros sender].
  destruct (strict_eq sender (JStr "human")).
  { apply keeps_modify. intros st. apply addMessage_active_id. }
  destruct (strict_eq sender (JStr "assistant")); [|apply keeps_ret].
  apply keeps_modify. intros st. apply addMessage_active_id.
Qed.

Lemma keeps_loadConversationHistory br i :
  keeps_active (loadConversationHistory marked Date_parse br i).
Proof.
  unfold loadConversationHistory. apply keeps_bind; [apply keeps_gets|intros st0].
  destruct (tabs st0 !! i) as [tab|]; [|apply keeps_ret].
  destruct (negb _ || _); [apply keeps_ret|].
  apply keeps_try_catch.
  destruct (claude.loadConversation br (conversationId tab)) as [data|reason];
    [|apply keeps_throw].
  destruct (negb (truthy data)); [apply keeps_ret|].
  apply keeps_bind; [apply keeps_lift|intros m1].
  apply keeps_bind; [apply keeps_lift|intros m2].
  apply keeps_bind; [apply keeps_lift|intros m3].
  destruct (js_or m1 (js_or m2 m3)); try apply keeps_ret.
  apply keeps_bind; [apply keeps_lift|intros sortedMessages].
  apply keeps_bind.
  { apply keeps_forM. intros msg. apply keeps_renderHistoryMessage. }
  intros _. apply keeps_bind.
  { destruct (list.last sortedMessages); [|apply keeps_ret].
    apply keeps_bind; [apply keeps_lift|intros uuid].
    now apply keeps_modify. }
  intros _. apply keeps_bind; [apply keeps_lift|intros name].
  destruct (truthy name); [|apply keeps_ret].
  destruct name; try apply keeps_throw.
  destruct (nonempty (trim s)); [apply keeps_updateTabName|apply keeps_ret].
Qed.

End KeepsActive.

Section RestoreActive.
Variable marked : string -> string.
Variable Date_parse : string -> option Z.

(** X29.  When the snapshot holds an entry, no [null] entry, and the id
    saved as active is missing, empty, or the id of none of its
    entries, [restoreTabs] makes the first restored tab the active
    one.  The choice is made in its first part, before anything is
    drawn or awaited; run to its end with no other handler in between,
    [restoreTabs] ends with that tab active; and whatever happens in
    between, none of its later steps changes the choice: drawing the
    tabs, drawing the active tab and loading a history leave the
    active id alone, whatever the bridge answers and in whatever state
    they run. *)
Theorem restore_active_fallback br st first rest :
  tabs st = [] ->
  chatTabs (localStorage st) = Some (Json (JArr (first :: rest))) ->
  forallb (fun x => negb (nullish x)) (first :: rest) = true ->
  match activeTabKey (localStorage st) with
  | Some s => nonempty s
              && existsb (fun e => strict_eq (prop e "id") (JStr s)) (first :: rest)
  | None => false
  end = false ->
  activeTabId (snd (restoreTabs_load st)) = prop first "id" /\
  activeTabId (snd (restoreTabs marked Date_parse br st)) = prop first "id" /\
  (forall s, activeTabId (snd (renderTabs s)) = activeTabId s) /\
  (forall s, activeTabId (renderActiveTab s) = activeTabId s) /\
  (forall i s,
     activeTabId (snd (loadConversationHistory marked Date_parse br i s))
     = activeTabId s).
Proof.
  intros Ht Hs Hobj Hsaved.
  assert (Hload : exists st',
             restoreTabs_load st = (Normal tt, st') /\
             tabs st' <> [] /\ activeTabId st' = prop first "id").
  { destruct (restoreTabs_load_array st (first :: rest) Hs)
      as (st' & Hrun & Htabs & _ & _ & _ & H).
    exists st'. split; [exact Hrun|]. split.
    { rewrite Htabs, Ht. cbn [app beforeNull].
      cbn [forallb] in Hobj. apply andb_prop in Hobj as [Hf _].
      destruct (nullish first); [discriminate|]. discriminate. }
    rewrite (H Hobj), Ht. cbn [app].
    unfold chooseActiveTab, bind, gets. cbn [fst snd].
    change (tabs (set_tabs ?l st)) with l.
    assert (Hfound :
      match activeTabKey (localStorage st) with
      | Some s =>
          nonempty s &&
          bool_decide (is_Some (findIndex (fun t => strict_eq (tab_id t) (JStr s))
                                  (map tabOfData (first :: rest))))
      | None => false
      end = false).
    { destruct (activeTabKey (localStorage st)) as [s|]; [|reflexivity].
      destruct (nonempty s); [|reflexivity]. cbn [andb] in *.
      apply bool_decide_eq_false_2.
      rewrite (findIndex_map_none (fun t => strict_eq (tab_id t) (JStr s)) tabOfData);
        [now intros [? ?]|exact Hsaved]. }
    rewrite Hfound. reflexivity. }
  destruct Hload as (st' & Hrun & Hne & Hact).
  split; [now rewrite Hrun|]. split.
  - unfold restoreTabs. unfold bind at 1. rewrite Hrun.
    unfold bind at 1. unfold gets at 1.
    destruct (tabs st') as [|t l] eqn:Et; [contradiction|]. cbn [length Nat.eqb].
    rewrite <- Hact.
    apply (keeps_bind renderTabs); [apply keeps_renderTabs|intros _].
    apply keeps_bind; [apply keeps_modify, renderActiveTab_active|intros _].
    apply keeps_bind; [|intros _; apply keeps_modify, renderActiveTab_active].
    apply keeps_forM. intros i.
    apply keeps_bind; [apply keeps_gets|intros s].
    destruct (tabs s !! i) as [tab|]; [|apply keeps_ret].
    destruct (truthy (conversationId tab) && _); [|apply keeps_ret].
    apply keeps_loadConversationHistory.
  - split; [apply keeps_renderTabs|]. split; [apply renderActiveTab_active|].
    intros i s. apply keeps_loadConversationHistory.
Qed.

End RestoreActive.

Lemma restore_fallback_witness :
  activeTabId
    (snd (restoreTabs demo_marked demo_Date_parse offline
            (fresh {| chatTabs :=
                        Some (Json (JArr [tabData (demo_tab "u1" "Chat 1" JNull JNull);
                                          tabData (demo_tab "u2" "Chat 2" (JStr "c2") JNull)]));
                      activeTabKey := Some "u7" |} demo_page)))
  = JStr "u1".
Proof.
  apply (proj1 (proj2 (restore_active_fallback demo_marked demo_Date_parse offline
           (fresh {| chatTabs :=
                       Some (Json (JArr [tabData (demo_tab "u1" "Chat 1" JNull JNull);
                                         tabData (demo_tab "u2" "Chat 2" (JStr "c2") JNull)]));
                     activeTabKey := Some "u7" |} demo_page)
           (tabData (demo_tab "u1" "Chat 1" JNull JNull))
           [tabData (demo_tab "u2" "Chat 2" (JStr "c2") JNull)]
           eq_refl eq_refl eq_refl eq_refl))).
Defined.

Section HistoryGuard.
Variable marked : string -> string.
Variable Date_parse : string -> option Z.

(** X30.  [loadConversationHistory] never lets an exception out:
    whatever the bridge answers, it returns normally.  It does nothing
    at all, and does not ask the bridge, for a tab that has no
    conversation or has messages already; and it changes nothing when
    the bridge rejects the request or answers with no data. *)
Theorem history_load_guarded br i st :
  fst (loadConversationHistory marked Date_parse br i st) = Normal tt /\
  (forall tab,
     tabs st !! i = Some tab ->
     truthy (conversationId tab) = false \/ messages tab <> [] \/
     no_history (claude.loadConversation br (conversationId tab)) = true ->
     loadConversationHistory marked Date_parse br i st = (Normal tt, st)).
Proof.
  split.
  - unfold loadConversationHistory, bind, gets. cbn [fst snd].
    destruct (tabs st !! i) as [tab|]; [|reflexivity].
    destruct (negb (truthy (conversationId tab)) || (0 <? length (messages tab)));
      [reflexivity|].
    unfold try_catch.
    match goal with |- fst (let (_, _) := ?m in _) = _ => destruct m as [[[]|e] s] end;
      reflexivity.
  - intros tab Htab [H|[H|H]].
    + apply (loadConversationHistory_no_history marked Date_parse br i st tab Htab).
      now rewrite H.
    + unfold loadConversationHistory, bind, gets. cbn [fst snd]. rewrite Htab.
      destruct (messages tab); [contradiction|]. simpl.
      now rewrite orb_true_r.
    + apply (loadConversationHistory_no_history marked Date_parse br i st tab Htab).
      rewrite H. apply orb_true_r.
Qed.

End HistoryGuard.

Lemma history_guard_witness :
  loadConversationHistory demo_marked demo_Date_parse offline 0 returning
  = (Normal tt, returning).
Proof.
  apply (proj2 (history_load_guarded demo_marked demo_Date_parse offline 0 returning)
           (demo_tab "u1" "Chat 1" (JStr "c1") (JStr "p1")) eq_refl).
  right. right. reflexivity.
Defined.
